(** * gopi: load generation, statistics and degradation detection

  A shallow embedding of the Go packages [runner], [stats], [history] and
  [util] of the repository, and the properties of them that the design
  document states.

  Conventions.
  - Go's [int], [int64] and [time.Duration] are 64-bit two's complement
    integers: they are values of [Z], and every arithmetic result is passed
    through [wrap64].
  - Go's [float64] is IEEE 754 binary64: Rocq's primitive [float].
  - A run-time panic (integer division by zero, index out of range) is the
    result [None].
  - A Go [map] is a [gmap]; the order in which Go ranges over it is left
    open by the language, and every loop over a map below computes a result
    that does not depend on it.
  - A Go [error] value is an [option string], [None] being [nil]. *)

From Stdlib Require Import ZArith Lia Floats Permutation Sorted.
From stdpp Require Import gmap strings list.

Local Open Scope Z_scope.

(** ** Machine integers *)

Module goint.

Definition min_int64 : Z := - 2 ^ 63.
Definition max_int64 : Z := 2 ^ 63 - 1.

(** The value a 64-bit signed register holds after an exact result [z]. *)
Definition wrap64 (z : Z) : Z := (z + 2 ^ 63) mod 2 ^ 64 - 2 ^ 63.

Definition add (a b : Z) : Z := wrap64 (a + b).
Definition sub (a b : Z) : Z := wrap64 (a - b).
Definition mul (a b : Z) : Z := wrap64 (a * b).

(** [a / b]: truncated division; a zero divisor panics. *)
Definition div (a b : Z) : option Z :=
  if b =? 0 then None else Some (wrap64 (Z.quot a b)).

(** [a % b]: the remainder of the truncated division. *)
Definition rem (a b : Z) : option Z :=
  if b =? 0 then None else Some (wrap64 (Z.rem a b)).

(** [s[i]] on a slice: an index outside [0 <= i < len(s)] panics. *)
Definition index {A} (s : list A) (i : Z) : option A :=
  if i <? 0 then None else s !! Z.to_nat i.

(** [len(s)] as an [int]. *)
Definition len {A} (s : list A) : Z := Z.of_nat (length s).

End goint.

(** ** Floating point *)

Module gofloat.

(** [float64(z)]: the binary64 value nearest to [z], ties to even. *)
Definition of_int (z : Z) : float :=
  SF2Prim (binary_normalize prec emax z 0 false).

(** [int(f)]: the fraction is discarded.  A value that does not fit (or a
    NaN) is left implementation-defined by the language; amd64 yields the
    smallest integer, which is what stands here. *)
Definition to_int (f : float) : Z :=
  match Prim2SF f with
  | S754_zero _ => 0
  | S754_finite s m e =>
      let a := if 0 <=? e then Z.pos m * 2 ^ e else Z.quot (Z.pos m) (2 ^ (- e)) in
      let v := if s then - a else a in
      if (goint.min_int64 <=? v) && (v <=? goint.max_int64) then v
      else goint.min_int64
  | _ => goint.min_int64
  end.

(** The constants of the source, written as the binary64 values the
    compiler rounds the decimal literals to. *)
Definition c0_95 : float := 0x1.e666666666666p-1%float.
Definition c0_99 : float := 0x1.fae147ae147aep-1%float.
Definition c100 : float := 100%float.
Definition c1e9 : float := 1000000000%float.

End gofloat.

(** ** Package [time] (the part the program uses) *)

Module time.

(** A [Duration] is an [int64] count of nanoseconds. *)
Definition Nanosecond : Z := 1.
Definition Millisecond : Z := 1000000.
Definition Second : Z := 1000000000.
Definition Hour : Z := 3600000000000.

(** [Duration.Seconds]:
    [sec := d / Second; nsec := d % Second;
     return float64(sec) + float64(nsec)/1e9]. *)
Definition Seconds (d : Z) : float :=
  let sec := Z.quot d Second in
  let nsec := Z.rem d Second in
  (gofloat.of_int sec + gofloat.of_int nsec / gofloat.c1e9)%float.

End time.

(** ** Package [runner]: the data model *)

Module Task.
Record t := mk {
  URL : string;
  Method : string;
  Headers : gmap string string;
  Body : list Byte.byte
}.
End Task.

Module Result.
Record t := mk {
  URL : string;
  Method : string;
  StatusCode : Z;
  Duration : Z;
  Error : option string;
  ThreadID : Z;
  StartTime : Z;
  EndTime : Z
}.
End Result.

Module LoadTestResult.
Record t := mk {
  UserCount : Z;
  DataSize : Z;
  Results : list Result.t;
  StepNumber : Z
}.
End LoadTestResult.

Module UserLoadConfig.
Record t := mk {
  StartUsers : Z;
  MaxUsers : Z;
  StepUsers : Z;
  DurationPerStep : Z
}.
End UserLoadConfig.

Module DataLoadConfig.
Record t := mk {
  InitialDataSize : Z;
  MaxDataSize : Z;
  DataSizeMultiplier : float;
  StepsCount : Z
}.
End DataLoadConfig.

(** ** Package [stats]: the aggregator *)

Module EndpointStatistics.
Record t := mk {
  URL : string;
  Method : string;
  TotalRequests : Z;
  SuccessRequests : Z;
  FailedRequests : Z;
  TotalDuration : Z;
  AverageDuration : Z;
  MinDuration : Z;
  MaxDuration : Z;
  MedianDuration : Z;
  Percentile95 : Z;
  Percentile99 : Z;
  RequestsPerSecond : float;
  StatusCodes : gmap Z Z;
  SuccessCodes : Z;
  ClientErrors : Z;
  ServerErrors : Z;
  P50Latency : Z;
  P95Latency : Z;
  P99Latency : Z
}.

(** The value [&EndpointStatistics{URL: .., Method: .., MinDuration:
    time.Hour, StatusCodes: make(map[int]int)}]: every other field is the
    zero value of its type. *)
Definition fresh (url method : string) : t :=
  mk url method 0 0 0 0 0 time.Hour 0 0 0 0 0%float ∅ 0 0 0 0 0 0.
End EndpointStatistics.

Module Statistics.
Record t := mk {
  EndpointStats : gmap string EndpointStatistics.t;
  TotalRequests : Z;
  TotalDuration : Z
}.
End Statistics.

Module stats.
Import goint.
Module ES := EndpointStatistics.

(** [fmt.Sprintf("%s %s", result.Method, result.URL)]. *)
Definition key (r : Result.t) : string :=
  (Result.Method r ++ " " ++ Result.URL r)%string.

(** The body of the first loop of [Calculate] on the failure branch:
    [TotalRequests++; FailedRequests++; continue]. *)
Definition countFailure (e : ES.t) : ES.t :=
  ES.mk (ES.URL e) (ES.Method e)
    (add (ES.TotalRequests e) 1) (ES.SuccessRequests e)
    (add (ES.FailedRequests e) 1)
    (ES.TotalDuration e) (ES.AverageDuration e) (ES.MinDuration e)
    (ES.MaxDuration e) (ES.MedianDuration e) (ES.Percentile95 e)
    (ES.Percentile99 e) (ES.RequestsPerSecond e) (ES.StatusCodes e)
    (ES.SuccessCodes e) (ES.ClientErrors e) (ES.ServerErrors e)
    (ES.P50Latency e) (ES.P95Latency e) (ES.P99Latency e).

(** [endpointStat.StatusCodes[code]++]: a missing key reads as zero. *)
Definition bump (code : Z) (m : gmap Z Z) : gmap Z Z :=
  <[code := add (default 0 (m !! code)) 1]> m.

(** The body of the first loop of [Calculate] on the success branch. *)
Definition countSuccess (r : Result.t) (e : ES.t) : ES.t :=
  let d := Result.Duration r in
  let c := Result.StatusCode r in
  ES.mk (ES.URL e) (ES.Method e)
    (add (ES.TotalRequests e) 1)
    (add (ES.SuccessRequests e) 1)
    (ES.FailedRequests e)
    (add (ES.TotalDuration e) d)
    (ES.AverageDuration e)
    (if d <? ES.MinDuration e then d else ES.MinDuration e)
    (if ES.MaxDuration e <? d then d else ES.MaxDuration e)
    (ES.MedianDuration e) (ES.Percentile95 e) (ES.Percentile99 e)
    (ES.RequestsPerSecond e)
    (bump c (ES.StatusCodes e))
    (if (200 <=? c) && (c <? 300) then add (ES.SuccessCodes e) 1
     else ES.SuccessCodes e)
    (if (200 <=? c) && (c <? 300) then ES.ClientErrors e
     else if (400 <=? c) && (c <? 500) then add (ES.ClientErrors e) 1
     else ES.ClientErrors e)
    (if (200 <=? c) && (c <? 300) then ES.ServerErrors e
     else if (400 <=? c) && (c <? 500) then ES.ServerErrors e
     else if 500 <=? c then add (ES.ServerErrors e) 1
     else ES.ServerErrors e)
    (ES.P50Latency e) (ES.P95Latency e) (ES.P99Latency e).

(** One iteration of the first loop of [Calculate]. *)
Definition accumulate (s : Statistics.t) (r : Result.t) : Statistics.t :=
  let k := key r in
  let m := Statistics.EndpointStats s in
  let e := match m !! k with
           | Some e => e
           | None => ES.fresh (Result.URL r) (Result.Method r)
           end in
  match Result.Error r with
  | Some _ =>
      Statistics.mk (<[k := countFailure e]> m)
        (add (Statistics.TotalRequests s) 1)
        (Statistics.TotalDuration s)
  | None =>
      Statistics.mk (<[k := countSuccess r e]> m)
        (add (Statistics.TotalRequests s) 1)
        (add (Statistics.TotalDuration s) (Result.Duration r))
  end.

(** The first loop of [Calculate], from the empty [Statistics]. *)
Definition firstPass (results : list Result.t) : Statistics.t :=
  fold_left accumulate results (Statistics.mk ∅ 0 0).

(** The loop that opens [calculateEndpointStats]: the durations of the
    results with [result.URL == stat.URL && result.Error == nil], in the
    order of [results]. *)
Fixpoint collectDurations (url : string) (results : list Result.t) : list Z :=
  match results with
  | [] => []
  | r :: rest =>
      if bool_decide (Result.URL r = url) && bool_decide (Result.Error r = None)
      then Result.Duration r :: collectDurations url rest
      else collectDurations url rest
  end.

(** [sort.Slice(durations, less)] with [less] the order of the integers.
    The order is total, so the sorted slice is the same whichever sorting
    algorithm runs; an insertion sort stands for it. *)
Fixpoint insertSorted (d : Z) (l : list Z) : list Z :=
  match l with
  | [] => [d]
  | x :: rest => if d <=? x then d :: l else x :: insertSorted d rest
  end.

Fixpoint sortDurations (l : list Z) : list Z :=
  match l with
  | [] => []
  | d :: rest => insertSorted d (sortDurations rest)
  end.

(** The index expressions of the two percentile formulas. *)
Definition floatIndex (c : float) (l : Z) : Z :=
  gofloat.to_int (gofloat.of_int l * c)%float.

Definition intIndex (pct : Z) (l : Z) : Z :=
  wrap64 (Z.quot (mul l pct) 100).

(** [EndpointStatistics.calculatePercentiles]. *)
Definition calculatePercentiles (s : ES.t) (durations : list Z) : option ES.t :=
  let durations := sortDurations durations in
  let l := len durations in
  p50 ← index durations (intIndex 50 l);
  p95 ← index durations (intIndex 95 l);
  p99 ← index durations (intIndex 99 l);
  Some (ES.mk (ES.URL s) (ES.Method s) (ES.TotalRequests s)
          (ES.SuccessRequests s) (ES.FailedRequests s) (ES.TotalDuration s)
          (ES.AverageDuration s) (ES.MinDuration s) (ES.MaxDuration s)
          (ES.MedianDuration s) (ES.Percentile95 s) (ES.Percentile99 s)
          (ES.RequestsPerSecond s) (ES.StatusCodes s) (ES.SuccessCodes s)
          (ES.ClientErrors s) (ES.ServerErrors s) p50 p95 p99).

(** [calculateEndpointStats]. *)
Definition calculateEndpointStats (stat : ES.t) (results : list Result.t)
  : option ES.t :=
  let durations := collectDurations (ES.URL stat) results in
  if 0 <? len durations then
    let durations := sortDurations durations in
    avg ← div (ES.TotalDuration stat) (ES.SuccessRequests stat);
    med ← index durations (wrap64 (Z.quot (len durations) 2));
    p95 ← index durations (floatIndex gofloat.c0_95 (len durations));
    p99 ← index durations (floatIndex gofloat.c0_99 (len durations));
    let rps := (gofloat.of_int (ES.SuccessRequests stat)
                / time.Seconds (ES.TotalDuration stat))%float in
    calculatePercentiles
      (ES.mk (ES.URL stat) (ES.Method stat) (ES.TotalRequests stat)
         (ES.SuccessRequests stat) (ES.FailedRequests stat)
         (ES.TotalDuration stat) avg (ES.MinDuration stat)
         (ES.MaxDuration stat) med p95 p99 rps (ES.StatusCodes stat)
         (ES.SuccessCodes stat) (ES.ClientErrors stat)
         (ES.ServerErrors stat) (ES.P50Latency stat) (ES.P95Latency stat)
         (ES.P99Latency stat))
      durations
  else Some stat.

(** The second loop of [Calculate]: [calculateEndpointStats] on every entry
    of the map.  A panic in one entry is a panic of the loop; an entry's
    outcome reads only that entry and [results], so the order of the range
    has no influence. *)
Definition secondPass (m : gmap string ES.t) (results : list Result.t)
  : option (gmap string ES.t) :=
  if decide (map_Forall (fun _ e => is_Some (calculateEndpointStats e results)) m)
  then Some (omap (fun e => calculateEndpointStats e results) m)
  else None.

(** [Calculate]. *)
Definition Calculate (results : list Result.t) : option Statistics.t :=
  let s := firstPass results in
  m ← secondPass (Statistics.EndpointStats s) results;
  Some (Statistics.mk m (Statistics.TotalRequests s) (Statistics.TotalDuration s)).

End stats.

(** ** Package [util] *)

Module util.

(** [CalculatePercentageChange]. *)
Definition CalculatePercentageChange (current previous : float) : float :=
  if (previous =? 0)%float then 0%float
  else ((current - previous) / previous * gofloat.c100)%float.

End util.

(** ** Package [history]: the degradation detector *)

Module DegradationReport.
Record t := mk {
  LatencyIncrease : float;
  ErrorRateIncrease : float;
  ThroughputDecrease : float;
  SuccessRateDecrease : float
}.
End DegradationReport.

Module Comparison.
Record t := mk {
  Current : EndpointStatistics.t;
  Previous : EndpointStatistics.t;
  Degradation : bool;
  Changes : DegradationReport.t
}.
End Comparison.

Module TestHistory.
Record t := mk {
  RunID : string;
  Statistics : Statistics.t;
  Endpoints : gmap string Comparison.t;
  BaselineID : string;
  Degradation : bool;
  ThresholdPct : float
}.
End TestHistory.

Module Store.
Record t := mk {
  baseDir : string;
  thresholdPct : float
}.
End Store.

Module history.
Module ES := EndpointStatistics.

(** [percentageIncrease]. *)
Definition percentageIncrease (current previous : float) : float :=
  if (previous =? 0)%float then 0%float
  else ((current - previous) / previous * gofloat.c100)%float.

(** [percentageDecrease]. *)
Definition percentageDecrease (current previous : float) : float :=
  (- percentageIncrease current previous)%float.

(** [successRate]. *)
Definition successRate (stats : ES.t) : float :=
  if ES.TotalRequests stats =? 0 then 0%float
  else (gofloat.of_int (ES.SuccessRequests stats)
        / gofloat.of_int (ES.TotalRequests stats) * gofloat.c100)%float.

(** [Store.isDegraded]. *)
Definition isDegraded (s : Store.t) (changes : DegradationReport.t) : bool :=
  (Store.thresholdPct s <? DegradationReport.LatencyIncrease changes)%float
  || (Store.thresholdPct s <? DegradationReport.ErrorRateIncrease changes)%float
  || (Store.thresholdPct s <? DegradationReport.ThroughputDecrease changes)%float
  || (Store.thresholdPct s <? DegradationReport.SuccessRateDecrease changes)%float.

(** The [DegradationReport] literal built inside the loop of
    [compareWithBaseline]. *)
Definition changesOf (currentStats baselineStats : ES.t) : DegradationReport.t :=
  DegradationReport.mk
    (percentageIncrease (time.Seconds (ES.AverageDuration currentStats))
       (time.Seconds (ES.AverageDuration baselineStats)))
    (percentageIncrease (gofloat.of_int (ES.FailedRequests currentStats))
       (gofloat.of_int (ES.FailedRequests baselineStats)))
    (percentageDecrease (ES.RequestsPerSecond currentStats)
       (ES.RequestsPerSecond baselineStats))
    (percentageDecrease (successRate currentStats) (successRate baselineStats)).

(** The [Comparison] the loop stores for an endpoint found in both runs. *)
Definition compare (s : Store.t) (currentStats baselineStats : ES.t) : Comparison.t :=
  let changes := changesOf currentStats baselineStats in
  Comparison.mk currentStats baselineStats (isDegraded s changes) changes.

(** One iteration of the loop of [compareWithBaseline]; the accumulator is
    [current.Endpoints] and [hasDegradation]. *)
Definition compareEndpoint (s : Store.t) (baseline : gmap string ES.t)
    (endpoint : string) (currentStats : ES.t)
    (acc : gmap string Comparison.t * bool) : gmap string Comparison.t * bool :=
  match baseline !! endpoint with
  | Some baselineStats =>
      let comparison := compare s currentStats baselineStats in
      (<[endpoint := comparison]> acc.1,
       if Comparison.Degradation comparison then true else acc.2)
  | None => acc
  end.

(** [Store.compareWithBaseline]: the updated [current] and the verdict. *)
Definition compareWithBaseline (s : Store.t) (current baseline : TestHistory.t)
  : TestHistory.t * bool :=
  let '(endpoints, hasDegradation) :=
    map_fold
      (compareEndpoint s (Statistics.EndpointStats (TestHistory.Statistics baseline)))
      (TestHistory.Endpoints current, false)
      (Statistics.EndpointStats (TestHistory.Statistics current)) in
  (TestHistory.mk (TestHistory.RunID current) (TestHistory.Statistics current)
     endpoints (TestHistory.BaselineID current)
     (TestHistory.Degradation current) (TestHistory.ThresholdPct current),
   hasDegradation).

End history.

(** ** Package [runner]: the ramp controllers *)

Module Runner.
Record t := mk {
  tasks : list Task.t;
  workerCount : Z;
  requestCount : Z
}.

Definition withRequestCount (r : t) (n : Z) : t :=
  mk (tasks r) (workerCount r) n.
End Runner.

Module runner.
Import goint.

(** [calculateRequestCount]. *)
Definition calculateRequestCount (dataSize : Z) : Z :=
  if dataSize <? 1000 then 100
  else if dataSize <? 10000 then 50
  else if dataSize <? 100000 then 20
  else 10.

(** How a call of a controller ends: with a value, in a panic, or with the
    model out of fuel before the loop is over. *)
Inductive outcome (A : Type) : Type :=
| Returned (a : A)
| Panicked
| OutOfFuel.
Arguments Returned {A} a.
Arguments Panicked {A}.
Arguments OutOfFuel {A}.

Section Controllers.
(** What a controller cannot see from inside the program (the network,
    the clock) is a state of type [World], threaded through every call
    that reads or changes it. *)
Context {World : Type}.

(** [Runner.Run]: the results of one batch.  The pool itself is modelled
    in [pool] below; the controllers only use what it returns. *)
Variable Run : Runner.t -> World -> list Result.t * World.

(** The body of one user-load step after [resultChan] is made, up to the
    drain of the channel: the virtual users run until the deadline and the
    buffered results are collected into [stepResults].  This part is
    concurrent and timed, and what it yields is the environment's answer;
    it can end in a panic ([rand.Intn(0)] on an empty task list, a send on
    the channel that is closed at the deadline before the users are
    waited for, a capacity [make] cannot allocate), which is [None]. *)
Variable userStep : Runner.t -> Z -> Z -> World -> option (list Result.t * World).

(** The loop of [RunDataLoadTest].  [fuel] bounds the iterations for the
    termination checker; [RunDataLoadTest] passes [StepsCount], which the
    loop counter [step] can never exceed. *)
Fixpoint dataLoadLoop (fuel : nat) (config : DataLoadConfig.t)
    (step currentSize : Z) (r : Runner.t) (w : World)
    (results : list LoadTestResult.t)
  : list LoadTestResult.t * Runner.t * World :=
  match fuel with
  | O => (results, r, w)
  | S fuel' =>
      if (step <? DataLoadConfig.StepsCount config)
         && (currentSize <=? DataLoadConfig.MaxDataSize config)
      then
        let originalRequestCount := Runner.requestCount r in
        let r1 := Runner.withRequestCount r (calculateRequestCount currentSize) in
        let '(testResults, w1) := Run r1 w in
        let results1 :=
          results ++ [LoadTestResult.mk 0 currentSize testResults 0] in
        let r2 := Runner.withRequestCount r1 originalRequestCount in
        let nextSize :=
          gofloat.to_int (gofloat.of_int currentSize
                          * DataLoadConfig.DataSizeMultiplier config)%float in
        dataLoadLoop fuel' config (add step 1) nextSize r2 w1 results1
      else (results, r, w)
  end.

(** [Runner.RunDataLoadTest]. *)
Definition RunDataLoadTest (r : Runner.t) (config : DataLoadConfig.t) (w : World)
  : list LoadTestResult.t * Runner.t * World :=
  dataLoadLoop (Z.to_nat (DataLoadConfig.StepsCount config)) config 0
    (DataLoadConfig.InitialDataSize config) r w [].

(** [totalSteps := (config.MaxUsers-config.StartUsers)/config.StepUsers + 1]. *)
Definition totalSteps (config : UserLoadConfig.t) : option Z :=
  q ← div (sub (UserLoadConfig.MaxUsers config) (UserLoadConfig.StartUsers config))
        (UserLoadConfig.StepUsers config);
  Some (add q 1).

(** The loop of [RunUserLoadTest].  The loop has no bound of its own, and
    [fuel] is the number of iterations the model is allowed.  Every
    iteration opens with
    [make(chan Result, currentUsers*len(r.tasks))], which panics on a
    negative capacity. *)
Fixpoint userLoadLoop (fuel : nat) (config : UserLoadConfig.t)
    (stepNumber currentUsers : Z) (r : Runner.t) (w : World)
    (results : list LoadTestResult.t)
  : outcome (list LoadTestResult.t * World) :=
  match fuel with
  | O => OutOfFuel
  | S fuel' =>
      if currentUsers <=? UserLoadConfig.MaxUsers config then
        if mul currentUsers (len (Runner.tasks r)) <? 0 then Panicked
        else
          match userStep r currentUsers (UserLoadConfig.DurationPerStep config) w with
          | None => Panicked
          | Some (stepResults, w1) =>
              let results1 :=
                results ++ [LoadTestResult.mk currentUsers 0 stepResults stepNumber] in
              if currentUsers <? UserLoadConfig.MaxUsers config then
                userLoadLoop fuel' config (add stepNumber 1)
                  (add currentUsers (UserLoadConfig.StepUsers config)) r w1 results1
              else Returned (results1, w1)
          end
      else Returned (results, w)
  end.

(** [Runner.RunUserLoadTest]: the division in [totalSteps] comes first, and
    panics on a step of zero. *)
Definition RunUserLoadTest (fuel : nat) (r : Runner.t) (config : UserLoadConfig.t)
    (w : World) : outcome (list LoadTestResult.t * World) :=
  match totalSteps config with
  | None => Panicked
  | Some _ => userLoadLoop fuel config 0 (UserLoadConfig.StartUsers config) r w []
  end.

End Controllers.

End runner.

(** ** Package [runner]: the fixed worker pool

  [Runner.Run] starts [workerCount] workers, a producer, a goroutine that
  closes [resultChan] once the wait group is released, and collects the
  results itself.  Both channels are unbuffered, so a send and its receive
  are one event.  The pool is a transition system: a [state] holds what
  each goroutine has left to do, an [action] is one event, and [fire] is
  the effect of an event that is enabled.  Any interleaving the Go
  scheduler may choose is a list of actions. *)

Module pool.

(** Where a worker stands in [Runner.worker]. *)
Inductive worker :=
  | Receiving                      (* at [for task := range tasks] *)
  | Requesting (task : Task.t)     (* a task received, its result not yet built *)
  | Sending (result : Result.t)    (* at [results <- Result{...}] *)
  | Finished.                      (* the loop left; [wg.Done()] has run *)

(** What the HTTP client answers to one attempt. *)
Inductive response :=
  | BadRequest (err : string)                (* [http.NewRequest] failed *)
  | Failed (duration : Z) (err : string)     (* [client.Do] failed *)
  | Responded (statusCode duration : Z).     (* a response arrived *)

(** The [Result] literal of the branch of [Runner.worker] taken. *)
Definition resultOf (task : Task.t) (resp : response) : Result.t :=
  match resp with
  | BadRequest err =>
      Result.mk (Task.URL task) (Task.Method task) 0 0 (Some err) 0 0 0
  | Failed duration err =>
      Result.mk (Task.URL task) (Task.Method task) 0 duration (Some err) 0 0 0
  | Responded statusCode duration =>
      Result.mk (Task.URL task) (Task.Method task) statusCode duration None 0 0 0
  end.

Record state := mkState {
  pending : list Task.t;       (* what the producer has still to send *)
  taskChanClosed : bool;
  workers : list worker;
  resultChanClosed : bool;
  results : list Result.t;     (* the slice [results] of [Run] *)
  returned : bool              (* [Run] has left its collecting loop *)
}.

(** The producer's two loops: every task, [requestCount] times in a row. *)
Definition enqueue (tasks : list Task.t) (requestCount : Z) : list Task.t :=
  flat_map (fun task => replicate (Z.to_nat requestCount) task) tasks.

Definition init (r : Runner.t) : state :=
  mkState (enqueue (Runner.tasks r) (Runner.requestCount r)) false
    (replicate (Z.to_nat (Runner.workerCount r)) Receiving) false [] false.

Inductive action :=
  | Dispatch (i : nat)                  (* [taskChan <- task] meets worker [i] *)
  | CloseTasks                          (* [close(taskChan)] *)
  | Request (i : nat) (resp : response) (* worker [i] gets its answer *)
  | Deliver (i : nat)                   (* worker [i]'s send meets [Run]'s receive *)
  | Exit (i : nat)                      (* worker [i] sees [taskChan] closed *)
  | CloseResults                        (* [wg.Wait()] is over: [close(resultChan)] *)
  | Return.                             (* [Run]'s loop sees [resultChan] closed *)

Definition isFinished (w : worker) : bool :=
  match w with Finished => true | _ => false end.

Definition setWorker (s : state) (i : nat) (w : worker) : state :=
  mkState (pending s) (taskChanClosed s) (<[i := w]> (workers s))
    (resultChanClosed s) (results s) (returned s).

Definition fire (a : action) (s : state) : option state :=
  match a with
  | Dispatch i =>
      match pending s, workers s !! i with
      | task :: rest, Some Receiving =>
          if taskChanClosed s then None
          else Some (mkState rest false (<[i := Requesting task]> (workers s))
                       (resultChanClosed s) (results s) (returned s))
      | _, _ => None
      end
  | CloseTasks =>
      match pending s with
      | [] =>
          if taskChanClosed s then None
          else Some (mkState [] true (workers s) (resultChanClosed s)
                       (results s) (returned s))
      | _ => None
      end
  | Request i resp =>
      match workers s !! i with
      | Some (Requesting task) => Some (setWorker s i (Sending (resultOf task resp)))
      | _ => None
      end
  | Deliver i =>
      match workers s !! i with
      | Some (Sending result) =>
          if returned s || resultChanClosed s then None
          else Some (mkState (pending s) (taskChanClosed s)
                       (<[i := Receiving]> (workers s)) false
                       (results s ++ [result]) false)
      | _ => None
      end
  | Exit i =>
      match workers s !! i with
      | Some Receiving =>
          if taskChanClosed s then Some (setWorker s i Finished) else None
      | _ => None
      end
  | CloseResults =>
      if forallb isFinished (workers s) && negb (resultChanClosed s)
      then Some (mkState (pending s) (taskChanClosed s) (workers s) true
                   (results s) (returned s))
      else None
  | Return =>
      if resultChanClosed s && negb (returned s)
      then Some (mkState (pending s) (taskChanClosed s) (workers s) true
                   (results s) true)
      else None
  end.

(** A run of the pool along a schedule. *)
Fixpoint run (schedule : list action) (s : state) : option state :=
  match schedule with
  | [] => Some s
  | a :: rest => s' ← fire a s; run rest s'
  end.

(** How many events a state can still take part in. *)
Definition workerWeight (w : worker) : nat :=
  match w with
  | Requesting _ => 3
  | Sending _ => 2
  | Receiving => 1
  | Finished => 0
  end.

Definition weight (s : state) : nat :=
  (3 * length (pending s)
   + (if taskChanClosed s then 0 else 1)
   + sum_list_with workerWeight (workers s)
   + (if resultChanClosed s then 0 else 1)
   + (if returned s then 0 else 1))%nat.

(** The endpoint a result or a task belongs to. *)
Definition taskKey (task : Task.t) : string * string :=
  (Task.Method task, Task.URL task).
Definition resultKey (r : Result.t) : string * string :=
  (Result.Method r, Result.URL r).

(** A schedule in which every attempt gets a response. *)
Definition succeeds (a : action) : bool :=
  match a with
  | Request _ (BadRequest _) | Request _ (Failed _ _) => false
  | _ => true
  end.

End pool.

(** ** Package [stats], continued: the reducer of a load test *)

Module StepStatistics.
Record t := mk {
  UserCount : Z;
  DataSize : Z;
  AverageLatency : Z;
  RequestsPerSecond : float;
  SuccessRate : float;
  ErrorRate : float
}.
End StepStatistics.

Module LoadStats.
Record t := mk {
  AverageLatency : Z;
  P50Latency : Z;
  P95Latency : Z;
  P99Latency : Z;
  RequestsPerSecond : float;
  SuccessRate : float;
  MaxConcurrent : Z;
  MaxDataSize : Z
}.
End LoadStats.

Module LoadTestStats.
Record t := mk {
  Steps : list StepStatistics.t;
  EndpointStats : gmap string LoadStats.t;
  AverageLatency : Z;
  MaxLatency : Z;
  MinLatency : Z;
  TotalRequests : Z;
  TestDuration : Z
}.
End LoadTestStats.

Module loadtest.
Import goint.
Module ES := EndpointStatistics.

Section Range.
(** [for _, es := range stats.EndpointStats]: Go visits the entries of a map
    in an order of its choosing.  The order is a parameter: [rangeOver m] is
    the sequence of the values of [m] as one traversal yields them. *)
Variable rangeOver : gmap string ES.t -> list ES.t.

(** [calculateAverageLatency]. *)
Definition calculateAverageLatency (stats : Statistics.t) : Z :=
  let '(total, count) :=
    fold_left (fun '(total, count) es => (add total (ES.AverageDuration es), add count 1))
      (rangeOver (Statistics.EndpointStats stats)) (0, 0) in
  if count =? 0 then 0 else wrap64 (Z.quot total count).

(** [calculateOverallRPS]. *)
Definition calculateOverallRPS (stats : Statistics.t) : float :=
  fold_left (fun total es => (total + ES.RequestsPerSecond es)%float)
    (rangeOver (Statistics.EndpointStats stats)) 0%float.

(** [calculateOverallSuccessRate]. *)
Definition calculateOverallSuccessRate (stats : Statistics.t) : float :=
  let '(totalRequests, totalSuccess) :=
    fold_left (fun '(totalRequests, totalSuccess) es =>
                 (add totalRequests (ES.TotalRequests es),
                  add totalSuccess (ES.SuccessRequests es)))
      (rangeOver (Statistics.EndpointStats stats)) (0, 0) in
  if totalRequests =? 0 then 0%float
  else (gofloat.of_int totalSuccess / gofloat.of_int totalRequests * gofloat.c100)%float.

(** [calculateOverallErrorRate]. *)
Definition calculateOverallErrorRate (stats : Statistics.t) : float :=
  (gofloat.c100 - calculateOverallSuccessRate stats)%float.

(** [countTotalRequests]. *)
Definition countTotalRequests (stats : Statistics.t) : Z :=
  fold_left (fun total es => add total (ES.TotalRequests es))
    (rangeOver (Statistics.EndpointStats stats)) 0.

(** [updateLatencyStats]. *)
Definition updateLatencyStats (stats : LoadTestStats.t) (latency : Z) : LoadTestStats.t :=
  LoadTestStats.mk (LoadTestStats.Steps stats) (LoadTestStats.EndpointStats stats)
    (if LoadTestStats.AverageLatency stats =? 0 then latency
     else wrap64 (Z.quot (add (LoadTestStats.AverageLatency stats) latency) 2))
    (if LoadTestStats.MaxLatency stats <? latency then latency
     else LoadTestStats.MaxLatency stats)
    (if (LoadTestStats.MinLatency stats =? 0)
        || (latency <? LoadTestStats.MinLatency stats)
     then latency else LoadTestStats.MinLatency stats)
    (LoadTestStats.TotalRequests stats) (LoadTestStats.TestDuration stats).

(** The [StepStatistics] literal of one iteration of [CalculateLoadTest]. *)
Definition stepStatistics (result : LoadTestResult.t) (stepStats : Statistics.t)
  : StepStatistics.t :=
  StepStatistics.mk (LoadTestResult.UserCount result) (LoadTestResult.DataSize result)
    (calculateAverageLatency stepStats) (calculateOverallRPS stepStats)
    (calculateOverallSuccessRate stepStats) (calculateOverallErrorRate stepStats).

(** One iteration of the loop of [CalculateLoadTest]; a panic of
    [Calculate] is a panic of the iteration. *)
Definition reduceStep (stats : LoadTestStats.t) (result : LoadTestResult.t)
  : option LoadTestStats.t :=
  stepStats ← stats.Calculate (LoadTestResult.Results result);
  let avgLatency := calculateAverageLatency stepStats in
  Some (updateLatencyStats
          (LoadTestStats.mk
             (LoadTestStats.Steps stats ++ [stepStatistics result stepStats])
             (LoadTestStats.EndpointStats stats)
             (LoadTestStats.AverageLatency stats) (LoadTestStats.MaxLatency stats)
             (LoadTestStats.MinLatency stats)
             (add (LoadTestStats.TotalRequests stats) (countTotalRequests stepStats))
             (LoadTestStats.TestDuration stats))
          avgLatency).

Fixpoint reduceSteps (stats : LoadTestStats.t) (results : list LoadTestResult.t)
  : option LoadTestStats.t :=
  match results with
  | [] => Some stats
  | result :: rest => stats' ← reduceStep stats result; reduceSteps stats' rest
  end.

(** [CalculateLoadTest]. *)
Definition CalculateLoadTest (results : list LoadTestResult.t) : option LoadTestStats.t :=
  reduceSteps (LoadTestStats.mk [] ∅ 0 0 0 0 0) results.

End Range.

End loadtest.

(** ** Vocabulary of the statements *)

(** The counters of one endpoint after [n] results have been read. *)
Definition counted (n : Z) (e : EndpointStatistics.t) : Prop :=
  EndpointStatistics.TotalRequests e
  = EndpointStatistics.SuccessRequests e + EndpointStatistics.FailedRequests e
  /\ 0 <= EndpointStatistics.SuccessRequests e
  /\ 0 <= EndpointStatistics.FailedRequests e
  /\ EndpointStatistics.TotalRequests e <= n.

(** The state of the first loop of [Calculate] after [n] results. *)
Definition firstPassInv (n : Z) (s : Statistics.t) : Prop :=
  Statistics.TotalRequests s = n
  /\ map_Forall (fun _ e => counted n e) (Statistics.EndpointStats s).

(** The fields the second loop of [Calculate] leaves as the first loop set
    them. *)
Definition sameCounters (e e' : EndpointStatistics.t) : Prop :=
  EndpointStatistics.URL e' = EndpointStatistics.URL e
  /\ EndpointStatistics.Method e' = EndpointStatistics.Method e
  /\ EndpointStatistics.TotalRequests e' = EndpointStatistics.TotalRequests e
  /\ EndpointStatistics.SuccessRequests e' = EndpointStatistics.SuccessRequests e
  /\ EndpointStatistics.FailedRequests e' = EndpointStatistics.FailedRequests e
  /\ EndpointStatistics.TotalDuration e' = EndpointStatistics.TotalDuration e
  /\ EndpointStatistics.MinDuration e' = EndpointStatistics.MinDuration e
  /\ EndpointStatistics.MaxDuration e' = EndpointStatistics.MaxDuration e.

(** A request that was answered with status [code] after [d] nanoseconds,
    and one that failed, as [Runner.worker] builds them. *)
Definition answered (method url : string) (code d : Z) : Result.t :=
  Result.mk url method code d None 0 0 0.

Definition failed (method url : string) : Result.t :=
  Result.mk url method 0 0 (Some "timeout"%string) 0 0 0.

(** The durations of the successful results of one endpoint, the endpoint
    being the pair of a method and a URL: the grouping of the design
    document, next to [stats.collectDurations], the grouping of the code. *)
Definition groupDurations (method url : string) (results : list Result.t) : list Z :=
  Result.Duration <$>
    filter (fun r => Result.Method r = method /\ Result.URL r = url
                     /\ Result.Error r = None) results.

(** An entry no successful result has touched. *)
Definition pristine (e : EndpointStatistics.t) : Prop :=
  EndpointStatistics.SuccessRequests e = 0
  /\ EndpointStatistics.TotalDuration e = 0
  /\ EndpointStatistics.AverageDuration e = 0
  /\ EndpointStatistics.MinDuration e = time.Hour
  /\ EndpointStatistics.MaxDuration e = 0
  /\ EndpointStatistics.MedianDuration e = 0
  /\ EndpointStatistics.Percentile95 e = 0
  /\ EndpointStatistics.Percentile99 e = 0
  /\ EndpointStatistics.RequestsPerSecond e = 0%float
  /\ EndpointStatistics.P50Latency e = 0
  /\ EndpointStatistics.P95Latency e = 0
  /\ EndpointStatistics.P99Latency e = 0.

(** Two endpoints on one URL, both answering. *)
Definition sharedUrlResults : list Result.t :=
  [answered "GET" "/a" 200 5; answered "POST" "/a" 200 7].

(** Two endpoints on one URL, one of which only fails. *)
Definition sharedUrlFailure : list Result.t :=
  [answered "GET" "/a" 200 5; failed "POST" "/a"].

(** Two endpoints on two URLs, one of which only fails. *)
Definition mixedResults : list Result.t :=
  [failed "GET" "/a"; answered "GET" "/b" 200 5].

(** One hundred answers of one endpoint, after 10 ms, 20 ms, ..., 1000 ms. *)
Definition hundredResults : list Result.t :=
  (fun i => answered "GET" "/x" 200 (10 * Z.of_nat i * time.Millisecond)) <$> seq 1 100.

(** A data-volume plan: the batches [Run] is asked for, one per pair of a
    data size and a request count, each batch in the world the previous one
    left; the runner itself keeps its request count. *)
Fixpoint runPlan {World : Type} (Run : Runner.t -> World -> list Result.t * World)
    (r : Runner.t) (w : World) (plan : list (Z * Z))
  : list LoadTestResult.t * World :=
  match plan with
  | [] => ([], w)
  | (size, count) :: rest =>
      let '(testResults, w1) := Run (Runner.withRequestCount r count) w in
      let '(later, w2) := runPlan Run r w1 rest in
      (LoadTestResult.mk 0 size testResults 0 :: later, w2)
  end.

(** A user ramp: one step per user count, numbered from [stepNumber] on;
    a step that panics ends the ramp. *)
Fixpoint runRamp {World : Type}
    (userStep : Runner.t -> Z -> Z -> World -> option (list Result.t * World))
    (r : Runner.t) (duration : Z) (w : World) (stepNumber : Z) (counts : list Z)
  : option (list LoadTestResult.t * World) :=
  match counts with
  | [] => Some ([], w)
  | users :: rest =>
      '(stepResults, w1) ← userStep r users duration w;
      '(later, w2) ← runRamp userStep r duration w1 (stepNumber + 1) rest;
      Some (LoadTestResult.mk users 0 stepResults stepNumber :: later, w2)
  end.

(** The user counts [start], [start + step], ... of [n] steps. *)
Definition rampCounts (start step : Z) (n : nat) : list Z :=
  (fun i => start + Z.of_nat i * step) <$> seq 0 n.

(** A value of Go's [int]. *)
Definition fitsInt (z : Z) : Prop := goint.min_int64 <= z <= goint.max_int64.

(** A world that is the log of the request counts [Run] was called with, and
    a [Run] that does nothing but write to it. *)
Definition logRun (r : Runner.t) (log : list Z) : list Result.t * list Z :=
  ([], log ++ [Runner.requestCount r]).

(** A step body that collects no result and leaves the world alone: what a
    step does when its deadline has passed from the start (a
    [DurationPerStep] of zero or less), every virtual user returning at its
    first look at the context. *)
Definition idleStep (r : Runner.t) (users duration : Z) (w : unit)
  : option (list Result.t * unit) := Some ([], w).

(** The endpoint of the attempt a worker is in the middle of. *)
Definition inflight (w : pool.worker) : list (string * string) :=
  match w with
  | pool.Requesting task => [pool.taskKey task]
  | pool.Sending result => [pool.resultKey result]
  | _ => []
  end.

(** Every attempt of a run, by endpoint: the collected results, the
    attempts in the workers' hands, and the tasks not yet sent. *)
Definition accounted (s : pool.state) : list (string * string) :=
  (pool.resultKey <$> pool.results s)
  ++ (pool.workers s ≫= inflight)
  ++ (pool.taskKey <$> pool.pending s).

(** What holds in every state the pool of runner [r] can reach. *)
Definition poolInv (r : Runner.t) (s : pool.state) : Prop :=
  accounted s ≡ₚ pool.taskKey <$> pool.enqueue (Runner.tasks r) (Runner.requestCount r)
  /\ (pool.taskChanClosed s = true -> pool.pending s = [])
  /\ (forall i, pool.workers s !! i = Some pool.Finished -> pool.taskChanClosed s = true)
  /\ (pool.resultChanClosed s = true -> forallb pool.isFinished (pool.workers s) = true)
  /\ (pool.returned s = true -> pool.resultChanClosed s = true)
  /\ length (pool.workers s) = Z.to_nat (Runner.workerCount r).

(** No result, collected or about to be sent, carries an error. *)
Definition allAnswered (s : pool.state) : Prop :=
  Forall (fun result => Result.Error result = None) (pool.results s)
  /\ forall i result, pool.workers s !! i = Some (pool.Sending result) ->
                      Result.Error result = None.

(** Two endpoints, two workers, two requests per endpoint, and one of the
    interleavings the scheduler may choose for them. *)
Definition sampleRunner : Runner.t :=
  Runner.mk [Task.mk "/a" "GET" ∅ []; Task.mk "/b" "POST" ∅ []] 2 2.

Definition sampleSchedule : list pool.action :=
  [pool.Dispatch 0; pool.Dispatch 1;
   pool.Request 1 (pool.Responded 200 7); pool.Deliver 1;
   pool.Request 0 (pool.Responded 200 5); pool.Dispatch 1;
   pool.Deliver 0; pool.Dispatch 0; pool.CloseTasks;
   pool.Request 0 (pool.Responded 201 9); pool.Request 1 (pool.Responded 201 8);
   pool.Deliver 0; pool.Deliver 1; pool.Exit 0; pool.Exit 1;
   pool.CloseResults; pool.Return].

(** Reading the fields of a pool state that is written out. *)
Ltac pool_fields :=
  cbn [pool.setWorker pool.pending pool.taskChanClosed pool.workers
       pool.resultChanClosed pool.results pool.returned] in *.

(** The results that share the map key [k], in the order of [results]. *)
Definition groupOf (k : string) (results : list Result.t) : list Result.t :=
  filter (fun r => stats.key r = k) results.

(** What one iteration of the first loop of [Calculate] does to the entry of
    its result. *)
Definition tally (e : EndpointStatistics.t) (r : Result.t) : EndpointStatistics.t :=
  match Result.Error r with
  | Some _ => stats.countFailure e
  | None => stats.countSuccess r e
  end.

(** The successful results of a batch, and the sum of a list of integers. *)
Definition successes (results : list Result.t) : list Result.t :=
  filter (fun r => Result.Error r = None) results.

Definition sumZ (l : list Z) : Z := foldr Z.add 0 l.

(** A traversal order of the endpoint map: every value once. *)
Definition rangesOver (rangeOver : gmap string EndpointStatistics.t
                                   -> list EndpointStatistics.t) : Prop :=
  forall m, rangeOver m ≡ₚ (map_to_list m).*2.

(** Two traversal orders: by key, and by key backwards. *)
Definition keyOrder (m : gmap string EndpointStatistics.t) : list EndpointStatistics.t :=
  (map_to_list m).*2.

Definition reverseKeyOrder (m : gmap string EndpointStatistics.t)
  : list EndpointStatistics.t :=
  reverse (map_to_list m).*2.

(** Three endpoints that answer: one request in five seconds, one in ten,
    and three in ten. *)
Definition threeRates : list Result.t :=
  [answered "GET" "/a" 200 (5 * time.Second);
   answered "GET" "/b" 200 (10 * time.Second);
   answered "GET" "/c" 200 (3 * time.Second);
   answered "GET" "/c" 200 (3 * time.Second);
   answered "GET" "/c" 200 (4 * time.Second)].

(** * Properties *)

(** ** Machine arithmetic inside its range *)

Lemma wrap64_small (z : Z) :
  goint.min_int64 <= z <= goint.max_int64 -> goint.wrap64 z = z.
Proof.
  unfold goint.wrap64, goint.min_int64, goint.max_int64. intros H.
  rewrite Z.mod_small; lia.
Qed.

Lemma wrap64_range (z : Z) :
  goint.min_int64 <= goint.wrap64 z <= goint.max_int64.
Proof.
  unfold goint.wrap64, goint.min_int64, goint.max_int64.
  pose proof (Z.mod_pos_bound (z + 2 ^ 63) (2 ^ 64)). lia.
Qed.

Lemma add_small (a b : Z) :
  goint.min_int64 <= a + b <= goint.max_int64 -> goint.add a b = a + b.
Proof. apply wrap64_small. Qed.

(** ** The aggregator's counters *)

Lemma counted_mono (n n' : Z) (e : EndpointStatistics.t) :
  n <= n' -> counted n e -> counted n' e.
Proof. unfold counted. intros Hn (H1 & H2 & H3 & H4). repeat split; lia. Qed.

Lemma counted_fresh (n : Z) (url method : string) :
  0 <= n -> counted n (EndpointStatistics.fresh url method).
Proof. unfold counted. simpl. lia. Qed.

Lemma counted_failure (n : Z) (e : EndpointStatistics.t) :
  0 <= n < goint.max_int64 -> counted n e -> counted (n + 1) (stats.countFailure e).
Proof.
  unfold counted. intros Hn (H1 & H2 & H3 & H4). simpl.
  rewrite !add_small by (unfold goint.min_int64, goint.max_int64 in *; lia).
  repeat split; lia.
Qed.

Lemma counted_success (n : Z) (r : Result.t) (e : EndpointStatistics.t) :
  0 <= n < goint.max_int64 -> counted n e -> counted (n + 1) (stats.countSuccess r e).
Proof.
  unfold counted. intros Hn (H1 & H2 & H3 & H4). simpl.
  rewrite !add_small by (unfold goint.min_int64, goint.max_int64 in *; lia).
  repeat split; lia.
Qed.

Lemma accumulate_inv (n : Z) (s : Statistics.t) (r : Result.t) :
  0 <= n < goint.max_int64 ->
  firstPassInv n s -> firstPassInv (n + 1) (stats.accumulate s r).
Proof.
  intros Hn [Htot Hmap]. unfold stats.accumulate.
  assert (Hrest : map_Forall (fun _ e => counted (n + 1) e) (Statistics.EndpointStats s)).
  { eapply map_Forall_impl; [exact Hmap|]. intros k e He. simpl in He.
    eapply counted_mono; [|exact He]. lia. }
  assert (He : counted n
                 match Statistics.EndpointStats s !! stats.key r with
                 | Some e => e
                 | None => EndpointStatistics.fresh (Result.URL r) (Result.Method r)
                 end).
  { destruct (Statistics.EndpointStats s !! stats.key r) as [e|] eqn:Hk.
    - exact (Hmap _ _ Hk).
    - apply counted_fresh. lia. }
  assert (Hadd : goint.add (Statistics.TotalRequests s) 1 = n + 1).
  { rewrite Htot. apply add_small.
    unfold goint.min_int64, goint.max_int64 in *. lia. }
  destruct (Result.Error r); split; simpl; try exact Hadd;
    apply map_Forall_insert_2; auto using counted_failure, counted_success.
Qed.

Lemma fold_accumulate_inv (results : list Result.t) :
  forall (n : Z) (s : Statistics.t),
    0 <= n -> n + goint.len results <= goint.max_int64 ->
    firstPassInv n s ->
    firstPassInv (n + goint.len results) (fold_left stats.accumulate results s).
Proof.
  unfold goint.len.
  induction results as [|r results IH]; intros n s Hn Hlen Hinv;
    cbn [fold_left length] in *.
  - now rewrite Z.add_0_r.
  - rewrite Nat2Z.inj_succ in *.
    replace (n + Z.succ (Z.of_nat (length results)))
      with ((n + 1) + Z.of_nat (length results)) by lia.
    apply IH; [lia | lia |]. apply accumulate_inv; [lia | exact Hinv].
Qed.

Lemma firstPass_inv (results : list Result.t) :
  goint.len results <= goint.max_int64 ->
  firstPassInv (goint.len results) (stats.firstPass results).
Proof.
  intros Hlen. unfold stats.firstPass.
  change (goint.len results) with (0 + goint.len results).
  apply fold_accumulate_inv; [lia | simpl; lia |].
  split; [reflexivity | apply map_Forall_empty].
Qed.

Lemma calculatePercentiles_counters (e e' : EndpointStatistics.t) (ds : list Z) :
  stats.calculatePercentiles e ds = Some e' -> sameCounters e e'.
Proof.
  unfold stats.calculatePercentiles. intros H.
  repeat (match type of H with
          | (?o ≫= _) = Some _ => destruct o; simpl in H; [|discriminate]
          end).
  injection H as <-. repeat split.
Qed.

Lemma calculateEndpointStats_counters (e e' : EndpointStatistics.t)
    (results : list Result.t) :
  stats.calculateEndpointStats e results = Some e' -> sameCounters e e'.
Proof.
  unfold stats.calculateEndpointStats. intros H.
  destruct (0 <? _).
  - repeat (match type of H with
            | (?o ≫= _) = Some _ => destruct o; simpl in H; [|discriminate]
            end).
    apply calculatePercentiles_counters in H. exact H.
  - injection H as <-. repeat split.
Qed.

Lemma secondPass_lookup (m m' : gmap string EndpointStatistics.t)
    (results : list Result.t) (k : string) :
  stats.secondPass m results = Some m' ->
  m' !! k = m !! k ≫= fun e => stats.calculateEndpointStats e results.
Proof.
  unfold stats.secondPass. intros H. destruct (decide _); [|discriminate].
  injection H as <-. apply lookup_omap.
Qed.

Lemma Calculate_lookup (results : list Result.t) (s : Statistics.t)
    (k : string) (e' : EndpointStatistics.t) :
  stats.Calculate results = Some s ->
  Statistics.EndpointStats s !! k = Some e' ->
  exists e, Statistics.EndpointStats (stats.firstPass results) !! k = Some e
            /\ stats.calculateEndpointStats e results = Some e'.
Proof.
  unfold stats.Calculate. intros H Hk.
  destruct (stats.secondPass _ _) as [m|] eqn:Hm; simpl in H; [|discriminate].
  injection H as <-. simpl in Hk.
  rewrite (secondPass_lookup _ _ _ k Hm) in Hk.
  destruct (_ !! k) as [e|]; simpl in Hk; [|discriminate]. eauto.
Qed.

(** C1.  Whatever the results, the counters of the aggregator count every
    result once: after the first loop of [Calculate], and in the statistics
    [Calculate] returns, [TotalRequests] is the length of the input, and in
    every endpoint entry the total is the sum of the successes and the
    failures.  (The length of a Go slice is an [int], which is the only
    bound the statement puts on the input.) *)
Theorem C1_request_counts (results : list Result.t) :
  goint.len results <= goint.max_int64 ->
  (Statistics.TotalRequests (stats.firstPass results) = goint.len results
   /\ forall (k : string) (e : EndpointStatistics.t),
        Statistics.EndpointStats (stats.firstPass results) !! k = Some e ->
        EndpointStatistics.TotalRequests e
        = EndpointStatistics.SuccessRequests e + EndpointStatistics.FailedRequests e)
  /\ forall s : Statistics.t,
       stats.Calculate results = Some s ->
       Statistics.TotalRequests s = goint.len results
       /\ forall (k : string) (e : EndpointStatistics.t),
            Statistics.EndpointStats s !! k = Some e ->
            EndpointStatistics.TotalRequests e
            = EndpointStatistics.SuccessRequests e + EndpointStatistics.FailedRequests e.
Proof.
  intros Hlen.
  destruct (firstPass_inv results Hlen) as [Htot Hmap]. split.
  - split; [exact Htot|]. intros k e He. now destruct (Hmap _ _ He).
  - intros s Hcalc. split.
    + unfold stats.Calculate in Hcalc.
      destruct (stats.secondPass _ _); simpl in Hcalc; [|discriminate].
      injection Hcalc as <-. exact Htot.
    + intros k e' Hk.
      destruct (Calculate_lookup _ _ _ _ Hcalc Hk) as (e & He & Hsecond).
      apply calculateEndpointStats_counters in Hsecond.
      destruct Hsecond as (_ & _ & Ht & Hs & Hf & _).
      destruct (Hmap _ _ He) as (Hsum & _). lia.
Qed.

(** The witness of C1: a batch of one failure and one success. *)
Lemma C1_request_counts_witness :
  exists s, stats.Calculate mixedResults = Some s
    /\ Statistics.TotalRequests s = goint.len mixedResults
    /\ forall (k : string) (e : EndpointStatistics.t),
         Statistics.EndpointStats s !! k = Some e ->
         EndpointStatistics.TotalRequests e
         = EndpointStatistics.SuccessRequests e + EndpointStatistics.FailedRequests e.
Proof.
  destruct (stats.Calculate mixedResults) as [s|] eqn:H.
  - exists s. split; [reflexivity|].
    destruct (C1_request_counts mixedResults) as [_ Hall];
      [vm_compute; discriminate|].
    exact (Hall s H).
  - vm_compute in H. discriminate.
Defined.

(** ** Which durations the percentiles of an endpoint are taken from *)

Lemma collectDurations_filter (url : string) (results : list Result.t) :
  stats.collectDurations url results
  = Result.Duration <$>
      filter (fun r => Result.URL r = url /\ Result.Error r = None) results.
Proof.
  induction results as [|r results IH]; [reflexivity|].
  cbn [stats.collectDurations]. rewrite filter_cons.
  destruct (decide (Result.URL r = url /\ Result.Error r = None)) as [[Hu He]|Hn].
  - rewrite !bool_decide_eq_true_2 by assumption. cbn. now rewrite IH.
  - destruct (bool_decide (Result.URL r = url)) eqn:Hu;
      destruct (bool_decide (Result.Error r = None)) eqn:He; cbn; try exact IH.
    apply bool_decide_eq_true_1 in Hu, He. tauto.
Qed.

Lemma insertSorted_perm (d : Z) (l : list Z) :
  Permutation (stats.insertSorted d l) (d :: l).
Proof.
  induction l as [|x l IH]; cbn; [reflexivity|].
  destruct (d <=? x); [reflexivity|].
  rewrite IH. apply perm_swap.
Qed.

Lemma sortDurations_perm (l : list Z) : Permutation (stats.sortDurations l) l.
Proof.
  induction l as [|d l IH]; cbn; [reflexivity|].
  rewrite insertSorted_perm. now rewrite IH.
Qed.

Lemma sortDurations_length (l : list Z) :
  length (stats.sortDurations l) = length l.
Proof. apply Permutation_length, sortDurations_perm. Qed.

Lemma insertSorted_sorted (d : Z) (l : list Z) :
  Sorted Z.le l -> Sorted Z.le (stats.insertSorted d l).
Proof.
  induction l as [|x l IH]; intros Hs; cbn.
  - repeat constructor.
  - destruct (d <=? x) eqn:Hdx.
    + constructor; [exact Hs|]. constructor. lia.
    + inversion Hs as [|? ? Hl Hhd]; subst. constructor; [auto|].
      destruct l as [|y l]; cbn.
      * constructor. lia.
      * destruct (d <=? y); constructor; [lia|].
        inversion Hhd; subst. assumption.
Qed.

Lemma sortDurations_sorted (l : list Z) : Sorted Z.le (stats.sortDurations l).
Proof.
  induction l as [|d l IH]; cbn; [constructor|].
  now apply insertSorted_sorted.
Qed.

Lemma collectDurations_group (method url : string) (results : list Result.t) :
  (forall r, r ∈ results -> Result.URL r = url -> Result.Method r = method) ->
  stats.collectDurations url results = groupDurations method url results.
Proof.
  intros Honly. rewrite collectDurations_filter. unfold groupDurations. f_equal.
  induction results as [|r results IH]; [reflexivity|].
  rewrite !filter_cons.
  assert (Hr : Result.URL r = url -> Result.Method r = method)
    by (apply Honly; now left).
  rewrite IH by (intros r0 Hin; apply Honly; now right).
  destruct (decide (Result.URL r = url /\ Result.Error r = None)) as [[Hu He]|Hn];
    destruct (decide (Result.Method r = method /\ Result.URL r = url
                      /\ Result.Error r = None)) as [Hm|Hm];
    try reflexivity; exfalso; tauto.
Qed.

(** C2 on the code.  The sequence behind the median and the percentiles of
    an entry is sorted, and it holds the durations of the successful results
    that carry the entry's URL, whatever their method.  It is the sequence
    of the entry's own (method, URL) group when no other method uses the
    URL; on two endpoints that share the URL [/a] it is not: the sequence of
    [GET /a] holds the duration of [POST /a] as well, and the median
    reported for [GET /a] is a duration only [POST /a] has. *)
Theorem C2_percentiles_group_by_url_only :
  (forall url results,
      Sorted Z.le (stats.sortDurations (stats.collectDurations url results))
      /\ stats.sortDurations (stats.collectDurations url results)
         ≡ₚ Result.Duration <$>
              filter (fun r => Result.URL r = url /\ Result.Error r = None) results)
  /\ (forall method url results,
        (forall r, r ∈ results -> Result.URL r = url -> Result.Method r = method) ->
        stats.collectDurations url results = groupDurations method url results)
  /\ stats.sortDurations (stats.collectDurations "/a" sharedUrlResults) = [5; 7]
  /\ groupDurations "GET" "/a" sharedUrlResults = [5]
  /\ groupDurations "POST" "/a" sharedUrlResults = [7]
  /\ exists s e,
       stats.Calculate sharedUrlResults = Some s
       /\ Statistics.EndpointStats s !! "GET /a"%string = Some e
       /\ EndpointStatistics.SuccessRequests e = 1
       /\ EndpointStatistics.MedianDuration e = 7.
Proof.
  split.
  { intros url results. split; [apply sortDurations_sorted|].
    rewrite sortDurations_perm. now rewrite collectDurations_filter. }
  split; [exact collectDurations_group|].
  split; [reflexivity|]. split; [reflexivity|]. split; [reflexivity|].
  destruct (stats.Calculate sharedUrlResults) as [s|] eqn:Hs;
    [|vm_compute in Hs; discriminate].
  destruct (Statistics.EndpointStats s !! "GET /a"%string) as [e|] eqn:He.
  - exists s, e. split; [reflexivity|]. split; [exact He|].
    vm_compute in Hs. injection Hs as <-. vm_compute in He.
    injection He as <-. split; reflexivity.
  - vm_compute in Hs. injection Hs as <-. vm_compute in He. discriminate.
Qed.

(** ** Endpoints without a successful request *)

Lemma firstPass_snoc (results : list Result.t) (r : Result.t) :
  stats.firstPass (results ++ [r]) = stats.accumulate (stats.firstPass results) r.
Proof. unfold stats.firstPass. now rewrite fold_left_app. Qed.

Lemma pristine_fresh (url method : string) :
  pristine (EndpointStatistics.fresh url method).
Proof. repeat split. Qed.

Lemma pristine_failure (e : EndpointStatistics.t) :
  pristine e -> pristine (stats.countFailure e).
Proof. unfold pristine. cbn. tauto. Qed.

Lemma accumulate_lookup_ne (s : Statistics.t) (r : Result.t) (k : string) :
  stats.key r <> k ->
  Statistics.EndpointStats (stats.accumulate s r) !! k
  = Statistics.EndpointStats s !! k.
Proof.
  intros Hk. unfold stats.accumulate.
  destruct (Result.Error r); cbn; now rewrite lookup_insert_ne.
Qed.

Lemma firstPass_pristine (results : list Result.t) :
  forall (k : string) (e : EndpointStatistics.t),
    Statistics.EndpointStats (stats.firstPass results) !! k = Some e ->
    (forall r, r ∈ results -> stats.key r = k -> Result.Error r <> None) ->
    pristine e.
Proof.
  induction results as [|r results IH] using rev_ind; intros k e Hk Hfail.
  - cbn in Hk. rewrite lookup_empty in Hk. discriminate.
  - rewrite firstPass_snoc in Hk.
    assert (Hprev : forall r0, r0 ∈ results -> stats.key r0 = k ->
                               Result.Error r0 <> None).
    { intros r0 Hin. apply Hfail. apply elem_of_app. now left. }
    destruct (decide (stats.key r = k)) as [Heq|Hne].
    + assert (Herr : Result.Error r <> None).
      { apply Hfail; [|exact Heq]. apply elem_of_app. right. now apply list_elem_of_singleton. }
      unfold stats.accumulate in Hk.
      destruct (Result.Error r) as [err|]; [|congruence].
      cbn in Hk. rewrite Heq, lookup_insert_eq in Hk. injection Hk as <-.
      apply pristine_failure.
      destruct (Statistics.EndpointStats (stats.firstPass results) !! k) as [e0|] eqn:He0.
      * now apply (IH k).
      * apply pristine_fresh.
    + rewrite accumulate_lookup_ne in Hk by exact Hne. now apply (IH k).
Qed.

Lemma collectDurations_nil (url : string) (results : list Result.t) :
  (forall r, r ∈ results -> Result.URL r = url -> Result.Error r <> None) ->
  stats.collectDurations url results = [].
Proof.
  induction results as [|r results IH]; intros H; [reflexivity|].
  cbn [stats.collectDurations].
  destruct (bool_decide (Result.URL r = url)) eqn:Hu;
    destruct (bool_decide (Result.Error r = None)) eqn:He; cbn;
    try (apply IH; intros r0 Hin; apply H; now right).
  apply bool_decide_eq_true_1 in Hu, He.
  exfalso. apply (H r); [now left | exact Hu | exact He].
Qed.

(** C7, as the code has it.  Take an endpoint whose group holds no successful
    result, on a URL no successful result of the batch carries.  Its entry
    passes the second loop of [Calculate] unchanged and without a panic, the
    average, median, maximum, the two 95th and 99th percentiles, the P50 and
    the requests per second are zero, and the minimum is still the sentinel
    of one hour it was created with; this entry is the one a completed
    [Calculate] returns. *)
Theorem C7_zero_success_endpoint (results : list Result.t) (k : string)
    (e : EndpointStatistics.t) :
  Statistics.EndpointStats (stats.firstPass results) !! k = Some e ->
  (forall r, r ∈ results -> stats.key r = k -> Result.Error r <> None) ->
  (forall r, r ∈ results -> Result.URL r = EndpointStatistics.URL e ->
             Result.Error r <> None) ->
  stats.calculateEndpointStats e results = Some e
  /\ EndpointStatistics.AverageDuration e = 0
  /\ EndpointStatistics.MedianDuration e = 0
  /\ EndpointStatistics.MaxDuration e = 0
  /\ EndpointStatistics.Percentile95 e = 0
  /\ EndpointStatistics.Percentile99 e = 0
  /\ EndpointStatistics.P50Latency e = 0
  /\ EndpointStatistics.P95Latency e = 0
  /\ EndpointStatistics.P99Latency e = 0
  /\ EndpointStatistics.RequestsPerSecond e = 0%float
  /\ EndpointStatistics.MinDuration e = time.Hour
  /\ forall s, stats.Calculate results = Some s ->
               Statistics.EndpointStats s !! k = Some e.
Proof.
  intros Hk Hgroup Hurl.
  assert (Hcalc : stats.calculateEndpointStats e results = Some e).
  { unfold stats.calculateEndpointStats.
    now rewrite (collectDurations_nil _ _ Hurl). }
  destruct (firstPass_pristine results k e Hk Hgroup)
    as (_ & _ & Havg & Hmin & Hmax & Hmed & H95 & H99 & Hrps & Hp50 & Hp95 & Hp99).
  repeat (split; [assumption|]).
  intros s Hs. unfold stats.Calculate in Hs.
  destruct (stats.secondPass _ _) as [m|] eqn:Hm; cbn in Hs; [|discriminate].
  injection Hs as <-. cbn.
  rewrite (secondPass_lookup _ _ _ k Hm), Hk. exact Hcalc.
Qed.

(** The witness of C7: [GET /a] only fails, and nothing else is on [/a]. *)
Lemma C7_zero_success_endpoint_witness :
  exists e,
    Statistics.EndpointStats (stats.firstPass mixedResults) !! "GET /a"%string = Some e
    /\ stats.calculateEndpointStats e mixedResults = Some e
    /\ EndpointStatistics.MedianDuration e = 0
    /\ EndpointStatistics.MinDuration e = time.Hour.
Proof.
  destruct (Statistics.EndpointStats (stats.firstPass mixedResults) !! "GET /a"%string)
    as [e|] eqn:He; [|vm_compute in He; discriminate].
  exists e. split; [reflexivity|].
  assert (Hurl : EndpointStatistics.URL e = "/a"%string).
  { vm_compute in He. injection He as <-. reflexivity. }
  assert (Hin : forall r, r ∈ mixedResults ->
                  r = failed "GET" "/a" \/ r = answered "GET" "/b" 200 5).
  { intros r Hr. unfold mixedResults in Hr.
    apply elem_of_cons in Hr as [->|Hr]; [now left|].
    apply list_elem_of_singleton in Hr as ->. now right. }
  destruct (C7_zero_success_endpoint mixedResults "GET /a" e He)
    as (H1 & _ & H3 & _ & _ & _ & _ & _ & _ & _ & H11 & _).
  - intros r Hr Hkey. destruct (Hin r Hr) as [-> | ->]; [discriminate|].
    vm_compute in Hkey. discriminate.
  - intros r Hr Hu. rewrite Hurl in Hu.
    destruct (Hin r Hr) as [-> | ->]; [discriminate|].
    vm_compute in Hu. discriminate.
  - repeat split; assumption.
Defined.

(** C7 as stated fails on the minimum: an endpoint with one failed request
    and no success reports a minimum of one hour, not zero. *)
Lemma C7_counterexample :
  exists s e,
    stats.Calculate [failed "GET" "/a"] = Some s
    /\ Statistics.EndpointStats s !! "GET /a"%string = Some e
    /\ EndpointStatistics.SuccessRequests e = 0
    /\ EndpointStatistics.MinDuration e = 3600000000000
    /\ EndpointStatistics.MinDuration e <> 0.
Proof.
  destruct (stats.Calculate [failed "GET" "/a"]) as [s|] eqn:Hs;
    [|vm_compute in Hs; discriminate].
  destruct (Statistics.EndpointStats s !! "GET /a"%string) as [e|] eqn:He.
  - exists s, e. split; [reflexivity|]. split; [exact He|].
    vm_compute in Hs. injection Hs as <-. vm_compute in He.
    injection He as <-. repeat split. discriminate.
  - vm_compute in Hs. injection Hs as <-. vm_compute in He. discriminate.
Qed.

(** ** The percentiles of a fixed batch *)

Lemma hundredResults_entry :
  exists s e,
    stats.Calculate hundredResults = Some s
    /\ Statistics.EndpointStats s !! "GET /x"%string = Some e
    /\ EndpointStatistics.MedianDuration e = 510 * time.Millisecond
    /\ EndpointStatistics.Percentile95 e = 960 * time.Millisecond
    /\ EndpointStatistics.Percentile99 e = 1000 * time.Millisecond
    /\ EndpointStatistics.P50Latency e = 510 * time.Millisecond
    /\ EndpointStatistics.P95Latency e = 960 * time.Millisecond
    /\ EndpointStatistics.P99Latency e = 1000 * time.Millisecond.
Proof.
  destruct (stats.Calculate hundredResults) as [s|] eqn:Hs;
    [|vm_compute in Hs; discriminate].
  destruct (Statistics.EndpointStats s !! "GET /x"%string) as [e|] eqn:He.
  - exists s, e. split; [reflexivity|]. split; [exact He|].
    vm_compute in Hs. injection Hs as <-. vm_compute in He.
    injection He as <-. repeat split.
  - vm_compute in Hs. injection Hs as <-. vm_compute in He. discriminate.
Qed.

(** C5, as the code has it.  On one hundred successful durations of 10 ms,
    20 ms, ..., 1000 ms the five index expressions are 50, 95, 99 (floating
    point) and 50, 95, 99 (integer), counted from zero: the median and the
    P50 are 510 ms (one rank above 500 ms), both 95th percentiles are 960 ms
    and both 99th percentiles are 1000 ms. *)
Theorem C5_percentiles_of_hundred :
  stats.floatIndex gofloat.c0_95 100 = 95
  /\ stats.floatIndex gofloat.c0_99 100 = 99
  /\ stats.intIndex 50 100 = 50
  /\ stats.intIndex 95 100 = 95
  /\ stats.intIndex 99 100 = 99
  /\ exists s e,
       stats.Calculate hundredResults = Some s
       /\ Statistics.EndpointStats s !! "GET /x"%string = Some e
       /\ EndpointStatistics.MedianDuration e = 510 * time.Millisecond
       /\ EndpointStatistics.Percentile95 e = 960 * time.Millisecond
       /\ EndpointStatistics.Percentile99 e = 1000 * time.Millisecond
       /\ EndpointStatistics.P50Latency e = 510 * time.Millisecond
       /\ EndpointStatistics.P95Latency e = 960 * time.Millisecond
       /\ EndpointStatistics.P99Latency e = 1000 * time.Millisecond.
Proof.
  repeat (split; [vm_compute; reflexivity|]). exact hundredResults_entry.
Qed.

(** C5 as stated fails: on that batch neither formula yields 950 ms for the
    95th percentile or 990 ms for the 99th. *)
Lemma C5_counterexample :
  exists s e,
    stats.Calculate hundredResults = Some s
    /\ Statistics.EndpointStats s !! "GET /x"%string = Some e
    /\ EndpointStatistics.Percentile95 e <> 950 * time.Millisecond
    /\ EndpointStatistics.P95Latency e <> 950 * time.Millisecond
    /\ EndpointStatistics.Percentile99 e <> 990 * time.Millisecond
    /\ EndpointStatistics.P99Latency e <> 990 * time.Millisecond.
Proof.
  destruct hundredResults_entry
    as (s & e & Hs & He & _ & H95 & H99 & _ & Hp95 & Hp99).
  exists s, e. rewrite H95, H99, Hp95, Hp99.
  repeat (split; [assumption || (vm_compute; discriminate)|]).
  vm_compute; discriminate.
Qed.

(** ** The data-volume ramp *)

Lemma grow_by_five (size : Z) :
  In size [1000; 5000; 25000; 125000] ->
  gofloat.to_int (gofloat.of_int size * 5)%float = 5 * size.
Proof.
  intros H. repeat (destruct H as [<-|H]; [vm_compute; reflexivity|]).
  destruct H.
Qed.

(** The loop bound [StepsCount] is never the reason the model stops early:
    with the counter at [step], [StepsCount - step] iterations of fuel are as
    good as any larger amount. *)
Lemma dataLoadLoop_fuel {World : Type}
    (Run : Runner.t -> World -> list Result.t * World)
    (config : DataLoadConfig.t) (fuel : nat) :
  forall (extra : nat) (step size : Z) (r : Runner.t) (w : World)
         (acc : list LoadTestResult.t),
    0 <= step ->
    DataLoadConfig.StepsCount config <= step + Z.of_nat fuel ->
    DataLoadConfig.StepsCount config <= goint.max_int64 ->
    runner.dataLoadLoop Run (fuel + extra) config step size r w acc
    = runner.dataLoadLoop Run fuel config step size r w acc.
Proof.
  induction fuel as [|fuel IH]; intros extra step size r w acc Hstep Hfuel Hmax.
  - destruct extra as [|extra]; [reflexivity|]. cbn.
    replace (step <? DataLoadConfig.StepsCount config) with false
      by (symmetry; apply Z.ltb_ge; lia).
    reflexivity.
  - cbn [Nat.add runner.dataLoadLoop].
    destruct (step <? DataLoadConfig.StepsCount config) eqn:Hlt; [|reflexivity].
    destruct (size <=? DataLoadConfig.MaxDataSize config); [|reflexivity].
    cbn [andb]. destruct (Run _ w) as [testResults w1].
    apply Z.ltb_lt in Hlt.
    assert (Hadd : goint.add step 1 = step + 1).
    { apply add_small. unfold goint.min_int64, goint.max_int64 in *. lia. }
    rewrite Hadd. apply IH; lia.
Qed.

(** C6, as the code has it.  With an initial size of 1000, a multiplier of 5,
    four steps and a maximum of at least 125000, [RunDataLoadTest] runs four
    batches, at the sizes 1000, 5000, 25000 and 125000, with 50, 50, 20 and
    10 requests per endpoint, and hands the runner back with the request
    count it came with. *)
Theorem C6_data_volume_plan {World : Type}
    (Run : Runner.t -> World -> list Result.t * World)
    (r : Runner.t) (w : World) (maxDataSize : Z) :
  125000 <= maxDataSize ->
  runner.RunDataLoadTest Run r (DataLoadConfig.mk 1000 maxDataSize 5 4) w
  = ((runPlan Run r w [(1000, 50); (5000, 50); (25000, 20); (125000, 10)]).1,
     r,
     (runPlan Run r w [(1000, 50); (5000, 50); (25000, 20); (125000, 10)]).2).
Proof.
  intros Hmax. destruct r as [tasks workerCount requestCount].
  unfold runner.RunDataLoadTest.
  cbn [DataLoadConfig.StepsCount DataLoadConfig.InitialDataSize].
  change (Z.to_nat 4) with 4%nat.
  cbn [runner.dataLoadLoop runPlan DataLoadConfig.StepsCount
       DataLoadConfig.MaxDataSize DataLoadConfig.DataSizeMultiplier].
  unfold Runner.withRequestCount. cbn [Runner.tasks Runner.workerCount Runner.requestCount].
  change (0 <? 4) with true. cbn [andb].
  replace (1000 <=? maxDataSize) with true by (symmetry; apply Z.leb_le; lia).
  change (runner.calculateRequestCount 1000) with 50.
  destruct (Run _ w) as [res1 w1].
  rewrite (grow_by_five 1000) by (cbn; tauto).
  change (goint.add 0 1 <? 4) with true. cbn [andb].
  change (5 * 1000) with 5000.
  replace (5000 <=? maxDataSize) with true by (symmetry; apply Z.leb_le; lia).
  change (runner.calculateRequestCount 5000) with 50.
  destruct (Run _ w1) as [res2 w2].
  rewrite (grow_by_five 5000) by (cbn; tauto).
  change (goint.add (goint.add 0 1) 1 <? 4) with true. cbn [andb].
  change (5 * 5000) with 25000.
  replace (25000 <=? maxDataSize) with true by (symmetry; apply Z.leb_le; lia).
  change (runner.calculateRequestCount 25000) with 20.
  destruct (Run _ w2) as [res3 w3].
  rewrite (grow_by_five 25000) by (cbn; tauto).
  change (goint.add (goint.add (goint.add 0 1) 1) 1 <? 4) with true. cbn [andb].
  change (5 * 25000) with 125000.
  replace (125000 <=? maxDataSize) with true by (symmetry; apply Z.leb_le; lia).
  change (runner.calculateRequestCount 125000) with 10.
  destruct (Run _ w3) as [res4 w4].
  reflexivity.
Qed.

(** The witness of C6: a maximum of exactly 125000, and a [Run] that logs
    the request count of each batch. *)
Lemma C6_data_volume_plan_witness :
  (runner.RunDataLoadTest logRun (Runner.mk [] 4 10)
     (DataLoadConfig.mk 1000 125000 5 4) []).2 = [50; 50; 20; 10].
Proof.
  rewrite (C6_data_volume_plan logRun (Runner.mk [] 4 10) [] 125000);
    [reflexivity | lia].
Defined.

(** C6 as stated fails at the first step: a size of 1000 is not below 1000,
    and the batch at that size asks for 50 requests per endpoint, not 100. *)
Lemma C6_counterexample :
  runner.calculateRequestCount 1000 = 50
  /\ (runner.RunDataLoadTest logRun (Runner.mk [] 4 10)
        (DataLoadConfig.mk 1000 125000 5 4) []).2 <> [100; 50; 20; 10].
Proof.
  split; [reflexivity|]. vm_compute. discriminate.
Qed.

(** ** The user ramp *)

Lemma rampCounts_S (start step : Z) (n : nat) :
  rampCounts start step (S n) = start :: rampCounts (start + step) step n.
Proof.
  unfold rampCounts. cbn [seq fmap list_fmap]. f_equal; [lia|].
  rewrite <- fmap_S_seq, <- list_fmap_compose.
  apply list_fmap_ext. intros i x _. cbn. lia.
Qed.

Lemma rampCounts_length (start step : Z) (n : nat) :
  length (rampCounts start step n) = n.
Proof. unfold rampCounts. now rewrite length_fmap, length_seq. Qed.

Lemma runRamp_length {World : Type}
    (userStep : Runner.t -> Z -> Z -> World -> option (list Result.t * World))
    (r : Runner.t) (d : Z) (counts : list Z) :
  forall (w w' : World) (j : Z) (steps : list LoadTestResult.t),
    runRamp userStep r d w j counts = Some (steps, w') ->
    length steps = length counts.
Proof.
  induction counts as [|c counts IH]; intros w w' j steps H; cbn in H.
  - now injection H as <- <-.
  - destruct (userStep r c d w) as [[res w1]|]; cbn in H; [|discriminate].
    destruct (runRamp userStep r d w1 (j + 1) counts) as [[later w2]|] eqn:Hlater;
      cbn in H; [|discriminate].
    injection H as <- <-. cbn. f_equal. eapply IH; eauto.
Qed.

Lemma runRamp_completes {World : Type}
    (userStep : Runner.t -> Z -> Z -> World -> option (list Result.t * World))
    (r : Runner.t) (d : Z) (counts : list Z) :
  (forall users w, is_Some (userStep r users d w)) ->
  forall (w : World) (j : Z), is_Some (runRamp userStep r d w j counts).
Proof.
  intros Hstep. induction counts as [|c counts IH]; intros w j; cbn; [eauto|].
  destruct (Hstep c w) as [[res w1] ->]. cbn.
  destruct (IH w1 (j + 1)) as [[later w2] ->]. cbn. eauto.
Qed.

Lemma runRamp_counts {World : Type}
    (userStep : Runner.t -> Z -> Z -> World -> option (list Result.t * World))
    (r : Runner.t) (d : Z) (counts : list Z) :
  forall (w w' : World) (j : Z) (steps : list LoadTestResult.t),
    runRamp userStep r d w j counts = Some (steps, w') ->
    LoadTestResult.UserCount <$> steps = counts.
Proof.
  induction counts as [|c counts IH]; intros w w' j steps H; cbn in H.
  - now injection H as <- <-.
  - destruct (userStep r c d w) as [[res w1]|]; cbn in H; [|discriminate].
    destruct (runRamp userStep r d w1 (j + 1) counts) as [[later w2]|] eqn:Hlater;
      cbn in H; [|discriminate].
    injection H as <- <-. cbn. f_equal. eapply IH; eauto.
Qed.

Lemma userLoadLoop_ramp {World : Type}
    (userStep : Runner.t -> Z -> Z -> World -> option (list Result.t * World))
    (r : Runner.t) (config : UserLoadConfig.t) (m : nat) :
  forall (fuel : nat) (j c : Z) (w : World) (acc : list LoadTestResult.t),
    0 < UserLoadConfig.StepUsers config ->
    c <= UserLoadConfig.MaxUsers config ->
    Z.of_nat m = (UserLoadConfig.MaxUsers config - c) / UserLoadConfig.StepUsers config ->
    (m + 2 <= fuel)%nat ->
    0 <= c ->
    UserLoadConfig.MaxUsers config + UserLoadConfig.StepUsers config <= goint.max_int64 ->
    UserLoadConfig.MaxUsers config * goint.len (Runner.tasks r) <= goint.max_int64 ->
    goint.min_int64 <= j -> j + Z.of_nat m <= goint.max_int64 ->
    runner.userLoadLoop userStep fuel config j c r w acc
    = match runRamp userStep r (UserLoadConfig.DurationPerStep config) w j
              (rampCounts c (UserLoadConfig.StepUsers config) (S m)) with
      | Some (steps, w') => runner.Returned (acc ++ steps, w')
      | None => runner.Panicked
      end.
Proof.
  assert (Hcap : forall c, 0 <= c <= UserLoadConfig.MaxUsers config ->
            UserLoadConfig.MaxUsers config * goint.len (Runner.tasks r) <= goint.max_int64 ->
            (goint.mul c (goint.len (Runner.tasks r)) <? 0) = false).
  { intros c Hc Hmax. apply Z.ltb_ge. unfold goint.mul.
    assert (0 <= goint.len (Runner.tasks r)) by (unfold goint.len; lia).
    rewrite wrap64_small; unfold goint.min_int64, goint.max_int64 in *; nia. }
  induction m as [|m IH]; intros fuel j c w acc Hstep Hc Hm Hfuel Hlo Hhi Hmul Hj Hjm.
  - destruct fuel as [|[|fuel]]; [lia | lia |].
    assert (Hlt : UserLoadConfig.MaxUsers config - c < UserLoadConfig.StepUsers config).
    { symmetry in Hm. apply Z.div_small_iff in Hm; lia. }
    cbn [runner.userLoadLoop rampCounts seq fmap list_fmap runRamp].
    replace (c <=? UserLoadConfig.MaxUsers config) with true
      by (symmetry; apply Z.leb_le; lia).
    rewrite (Hcap c) by (auto; lia).
    replace (c + Z.of_nat 0 * UserLoadConfig.StepUsers config) with c by lia.
    destruct (userStep r c _ w) as [[res w1]|]; [|reflexivity].
    cbn [mbind option_bind].
    destruct (c <? UserLoadConfig.MaxUsers config) eqn:Hcmax; [|reflexivity].
    rewrite add_small by (unfold goint.min_int64 in *; lia).
    replace (c + UserLoadConfig.StepUsers config <=? UserLoadConfig.MaxUsers config)
      with false by (symmetry; apply Z.leb_gt; lia).
    reflexivity.
  - destruct fuel as [|fuel]; [lia|].
    assert (Hdiv : (UserLoadConfig.MaxUsers config - c) / UserLoadConfig.StepUsers config
                   = (UserLoadConfig.MaxUsers config - (c + UserLoadConfig.StepUsers config))
                     / UserLoadConfig.StepUsers config + 1).
    { rewrite <- (Z.div_add _ 1) by lia. f_equal. lia. }
    assert (Hnext : c + UserLoadConfig.StepUsers config <= UserLoadConfig.MaxUsers config).
    { destruct (Z_le_gt_dec (c + UserLoadConfig.StepUsers config)
                  (UserLoadConfig.MaxUsers config)) as [?|Hgt]; [assumption|].
      rewrite Z.div_small in Hm by lia. lia. }
    rewrite rampCounts_S.
    cbn [runner.userLoadLoop runRamp].
    replace (c <=? UserLoadConfig.MaxUsers config) with true
      by (symmetry; apply Z.leb_le; lia).
    rewrite (Hcap c) by (auto; lia).
    destruct (userStep r c _ w) as [[res w1]|]; [|reflexivity].
    cbn [mbind option_bind].
    replace (c <? UserLoadConfig.MaxUsers config) with true
      by (symmetry; apply Z.ltb_lt; lia).
    rewrite !add_small by (unfold goint.min_int64 in *; lia).
    rewrite (IH fuel (j + 1) (c + UserLoadConfig.StepUsers config) w1) by lia.
    destruct (runRamp userStep r _ w1 (j + 1) _) as [[later w2]|];
      cbn [mbind option_bind]; [|reflexivity].
    now rewrite <- app_assoc.
Qed.

(** C8.  For [0 <= StartUsers <= MaxUsers] and [StepUsers > 0], with
    [MaxUsers + StepUsers] and [MaxUsers * len(tasks)] inside the range of
    [int], and with one unit of fuel per step and one more:
    [RunUserLoadTest] is the ramp over the user counts [StartUsers],
    [StartUsers + StepUsers], ... of [(MaxUsers - StartUsers) / StepUsers + 1]
    steps, and it panics exactly when the body of one of these steps does;
    when no step body panics it returns; and what it returns holds one
    [LoadTestResult] per step, [(MaxUsers - StartUsers) / StepUsers + 1]
    of them.  (Outside these bounds the count of the formula is not what
    the code does: see the counterexample.) *)
Theorem C8_user_ramp_steps {World : Type}
    (userStep : Runner.t -> Z -> Z -> World -> option (list Result.t * World))
    (r : Runner.t) (config : UserLoadConfig.t) (w : World) (fuel : nat) :
  0 <= UserLoadConfig.StartUsers config ->
  UserLoadConfig.StartUsers config <= UserLoadConfig.MaxUsers config ->
  0 < UserLoadConfig.StepUsers config ->
  fitsInt (UserLoadConfig.MaxUsers config + UserLoadConfig.StepUsers config) ->
  fitsInt (UserLoadConfig.MaxUsers config * goint.len (Runner.tasks r)) ->
  (Z.to_nat ((UserLoadConfig.MaxUsers config - UserLoadConfig.StartUsers config)
             / UserLoadConfig.StepUsers config + 1) < fuel)%nat ->
  runner.RunUserLoadTest userStep fuel r config w
  = match runRamp userStep r (UserLoadConfig.DurationPerStep config) w 0
            (rampCounts (UserLoadConfig.StartUsers config)
               (UserLoadConfig.StepUsers config)
               (Z.to_nat ((UserLoadConfig.MaxUsers config
                           - UserLoadConfig.StartUsers config)
                          / UserLoadConfig.StepUsers config + 1))) with
    | Some res => runner.Returned res
    | None => runner.Panicked
    end
  /\ ((forall users w0,
          is_Some (userStep r users (UserLoadConfig.DurationPerStep config) w0)) ->
      exists res, runner.RunUserLoadTest userStep fuel r config w = runner.Returned res)
  /\ (forall steps w',
        runner.RunUserLoadTest userStep fuel r config w = runner.Returned (steps, w') ->
        Z.of_nat (length steps)
        = (UserLoadConfig.MaxUsers config - UserLoadConfig.StartUsers config)
          / UserLoadConfig.StepUsers config + 1
        /\ LoadTestResult.UserCount <$> steps
           = rampCounts (UserLoadConfig.StartUsers config)
               (UserLoadConfig.StepUsers config) (length steps)).
Proof.
  intros Hs0 Hle Hstep [Hm1 Hm2] [Hc1 Hc2] Hfuel.
  set (q := (UserLoadConfig.MaxUsers config - UserLoadConfig.StartUsers config)
            / UserLoadConfig.StepUsers config) in *.
  assert (Hq0 : 0 <= q) by (apply Z.div_pos; lia).
  assert (Hq1 : q <= UserLoadConfig.MaxUsers config - UserLoadConfig.StartUsers config).
  { apply Z.div_le_upper_bound; [lia|]. nia. }
  assert (Htotal : exists n, runner.totalSteps config = Some n).
  { unfold runner.totalSteps, goint.div.
    replace (UserLoadConfig.StepUsers config =? 0) with false
      by (symmetry; apply Z.eqb_neq; lia).
    cbn. eauto. }
  destruct Htotal as [n Htotal].
  replace (Z.to_nat (q + 1)) with (S (Z.to_nat q)) in * by lia.
  assert (Hrun : runner.RunUserLoadTest userStep fuel r config w
                 = match runRamp userStep r (UserLoadConfig.DurationPerStep config) w 0
                           (rampCounts (UserLoadConfig.StartUsers config)
                              (UserLoadConfig.StepUsers config) (S (Z.to_nat q))) with
                   | Some res => runner.Returned res
                   | None => runner.Panicked
                   end).
  { unfold runner.RunUserLoadTest. rewrite Htotal.
    rewrite (userLoadLoop_ramp userStep r config (Z.to_nat q));
      try (unfold goint.min_int64, goint.max_int64 in *; lia).
    now destruct (runRamp _ _ _ _ _ _) as [[steps w']|]. }
  split; [exact Hrun|]. rewrite Hrun. split.
  - intros Hbody.
    destruct (runRamp_completes userStep r _
                (rampCounts (UserLoadConfig.StartUsers config)
                   (UserLoadConfig.StepUsers config) (S (Z.to_nat q))) Hbody w 0)
      as [res ->].
    eauto.
  - intros steps w' Hret.
    destruct (runRamp _ _ _ _ _ _) as [[steps0 w0]|] eqn:Hramp; [|discriminate].
    injection Hret as -> ->.
    pose proof (runRamp_length _ _ _ _ _ _ _ _ Hramp) as Hlen.
    rewrite rampCounts_length in Hlen.
    split; [rewrite Hlen; lia|].
    rewrite Hlen. eapply runRamp_counts. exact Hramp.
Qed.

(** The witness of C8: from 2 users to 50 in steps of 5 there are ten steps.
    The step duration is zero, so that every step is over as it starts and
    collects nothing. *)
Lemma C8_user_ramp_steps_witness :
  exists steps,
    runner.RunUserLoadTest idleStep 11 sampleRunner
      (UserLoadConfig.mk 2 50 5 0) tt = runner.Returned (steps, tt)
    /\ length steps = 10%nat
    /\ LoadTestResult.UserCount <$> steps = [2; 7; 12; 17; 22; 27; 32; 37; 42; 47].
Proof.
  destruct (C8_user_ramp_steps idleStep sampleRunner
              (UserLoadConfig.mk 2 50 5 0) tt 11) as (Hrun & _);
    try (cbn; lia);
    try (split; vm_compute; discriminate);
    try (vm_compute; lia).
  eexists. split; [exact Hrun|]. split; reflexivity.
Defined.

(** Against C8 as it was claimed, for every start at most the maximum and
    every positive step.
    - From -5 users to 0 in steps of 5 the formula counts two steps.  With
      a task to run, the first step asks [make] for a channel of capacity
      [-5 * 1] and the call panics, whatever the environment does: nothing
      is returned.
    - From 1 user to 2 in steps of [MaxInt64] the formula counts one step.
      [currentUsers += StepUsers] wraps to [-2^63] and then to [-1], both
      at most 2, so that with no task and steps that are over as they
      start the call returns three steps. *)
Lemma C8_counterexample :
  (-5 <= 0 /\ 0 < 5
   /\ runner.totalSteps (UserLoadConfig.mk (-5) 0 5 60000000000) = Some 2
   /\ forall (World : Type)
             (userStep : Runner.t -> Z -> Z -> World -> option (list Result.t * World))
             (fuel : nat) (w : World),
        runner.RunUserLoadTest userStep (S fuel)
          (Runner.mk [Task.mk "/a" "GET" ∅ []] 1 1)
          (UserLoadConfig.mk (-5) 0 5 60000000000) w
        = runner.Panicked)
  /\ (1 <= 2 /\ 0 < goint.max_int64
      /\ runner.totalSteps (UserLoadConfig.mk 1 2 goint.max_int64 0) = Some 1
      /\ exists steps,
           runner.RunUserLoadTest idleStep 4 (Runner.mk [] 1 1)
             (UserLoadConfig.mk 1 2 goint.max_int64 0) tt
           = runner.Returned (steps, tt)
           /\ length steps = 3%nat
           /\ LoadTestResult.UserCount <$> steps = [1; goint.min_int64; -1]).
Proof.
  split.
  - split; [lia|]. split; [lia|]. split; [reflexivity|].
    intros World userStep fuel w. reflexivity.
  - split; [lia|]. split; [reflexivity|]. split; [reflexivity|].
    eexists. split; [vm_compute; reflexivity|]. split; reflexivity.
Qed.

(** ** Comparisons of binary64 values *)

Lemma SFcompare_Eq_sym (f1 f2 : spec_float) :
  SFcompare f1 f2 = Some Eq -> SFcompare f2 f1 = Some Eq.
Proof.
  assert (Hpos : forall m1 m2 : positive,
             Pos.compare_cont Eq m1 m2 = Eq -> Pos.compare_cont Eq m2 m1 = Eq).
  { intros m1 m2 H. apply Pos.compare_eq in H. subst. apply Pos.compare_cont_refl. }
  destruct f1 as [s1|s1| |s1 m1 e1], f2 as [s2|s2| |s2 m2 e2]; cbn;
    try destruct s1; try destruct s2; try congruence;
    (destruct (e1 ?= e2) eqn:He; try discriminate;
     apply Z.compare_eq in He; subst; rewrite Z.compare_refl;
     intros H; injection H as H;
     destruct (Pos.compare_cont Eq m1 m2) eqn:Hm; try discriminate;
     now rewrite (Hpos _ _ Hm)).
Qed.

Lemma float_eqb_not_ltb (x y : float) :
  (x =? y)%float = true -> (y <? x)%float = false.
Proof.
  rewrite FloatAxioms.eqb_spec, FloatAxioms.ltb_spec. unfold SFeqb, SFltb.
  destruct (SFcompare (Prim2SF x) (Prim2SF y)) as [[| |]|] eqn:H; try discriminate.
  intros _. now rewrite (SFcompare_Eq_sym _ _ H).
Qed.

Lemma float_ltb_irrefl (x : float) : (x <? x)%float = false.
Proof.
  rewrite FloatAxioms.ltb_spec. unfold SFltb.
  destruct (Prim2SF x) as [s|s| |s m e]; cbn; try destruct s; try reflexivity;
    now rewrite Z.compare_refl, Pos.compare_cont_refl.
Qed.

(** A metric at the threshold: the same value, or one that [==] equates with
    it (the two zeros). *)
Lemma metric_at_threshold (t m : float) :
  m = t \/ (m =? t)%float = true -> (t <? m)%float = false.
Proof.
  intros [-> | H]; [apply float_ltb_irrefl | now apply float_eqb_not_ltb].
Qed.

(** ** The degradation detector *)

Lemma isDegraded_iff (s : Store.t) (changes : DegradationReport.t) :
  history.isDegraded s changes = true <->
  (Store.thresholdPct s <? DegradationReport.LatencyIncrease changes)%float = true
  \/ (Store.thresholdPct s <? DegradationReport.ErrorRateIncrease changes)%float = true
  \/ (Store.thresholdPct s <? DegradationReport.ThroughputDecrease changes)%float = true
  \/ (Store.thresholdPct s <? DegradationReport.SuccessRateDecrease changes)%float = true.
Proof. unfold history.isDegraded. rewrite !orb_true_iff. tauto. Qed.

(** What the loop of [compareWithBaseline] has built once it has ranged over
    the endpoints [m] of the current run. *)
Lemma compareEndpoint_fold (s : Store.t)
    (baseline : gmap string EndpointStatistics.t)
    (old : gmap string Comparison.t) (m : gmap string EndpointStatistics.t) :
  (forall k,
      (map_fold (history.compareEndpoint s baseline) (old, false) m).1 !! k
      = match m !! k, baseline !! k with
        | Some c, Some b => Some (history.compare s c b)
        | _, _ => old !! k
        end)
  /\ ((map_fold (history.compareEndpoint s baseline) (old, false) m).2 = true <->
      exists k c b, m !! k = Some c /\ baseline !! k = Some b
                    /\ history.isDegraded s (history.changesOf c b) = true).
Proof.
  apply (map_fold_weak_ind
           (fun (acc : gmap string Comparison.t * bool)
                (m : gmap string EndpointStatistics.t) =>
              (forall k,
                  acc.1 !! k
                  = match m !! k, baseline !! k with
                    | Some c, Some b => Some (history.compare s c b)
                    | _, _ => old !! k
                    end)
              /\ (acc.2 = true <->
                  exists k c b, m !! k = Some c /\ baseline !! k = Some b
                                /\ history.isDegraded s (history.changesOf c b) = true))).
  - split.
    + intros k. cbn. now rewrite lookup_empty.
    + cbn. split; [discriminate|]. intros (k & c & b & Hk & _).
      rewrite lookup_empty in Hk. discriminate.
  - intros i x m0 [eps has] Hfresh [Hlook Hhas]. cbn in Hlook, Hhas.
    unfold history.compareEndpoint. cbn [fst snd].
    destruct (baseline !! i) as [b|] eqn:Hb; cbn [fst snd].
    + split.
      * intros k. destruct (decide (i = k)) as [<-|Hne].
        -- now rewrite !lookup_insert_eq, Hb.
        -- rewrite !lookup_insert_ne by exact Hne. apply Hlook.
      * cbn [history.compare Comparison.Degradation].
        destruct (history.isDegraded s (history.changesOf x b)) eqn:Hdeg.
        -- split; [|reflexivity]. intros _. exists i, x, b.
           now rewrite lookup_insert_eq.
        -- rewrite Hhas. split.
           ++ intros (k & c & b0 & Hk & Hbk & Hd). exists k, c, b0.
              rewrite lookup_insert_ne; [auto|]. intros ->. congruence.
           ++ intros (k & c & b0 & Hk & Hbk & Hd).
              destruct (decide (i = k)) as [<-|Hne].
              ** rewrite lookup_insert_eq in Hk. congruence.
              ** rewrite lookup_insert_ne in Hk by exact Hne. eauto 6.
    + split.
      * intros k. destruct (decide (i = k)) as [<-|Hne].
        -- rewrite lookup_insert_eq, Hb. rewrite Hlook, Hfresh. reflexivity.
        -- rewrite lookup_insert_ne by exact Hne. apply Hlook.
      * rewrite Hhas. split.
        -- intros (k & c & b0 & Hk & Hbk & Hd). exists k, c, b0.
           rewrite lookup_insert_ne; [auto|]. intros ->. congruence.
        -- intros (k & c & b0 & Hk & Hbk & Hd).
           destruct (decide (i = k)) as [<-|Hne]; [congruence|].
           rewrite lookup_insert_ne in Hk by exact Hne. eauto 6.
Qed.

(** C4.  Let [out] be what [compareWithBaseline] returns for a current and a
    baseline run.
    - An endpoint of both runs gets a comparison of its two entries; it is
      flagged exactly when one of the four changes is above the threshold in
      the order of [float64].
    - A report whose four changes are at the threshold is not degraded.
    - The verdict is [true] exactly when an endpoint of both runs is flagged.
    - An endpoint that one of the runs lacks gets no comparison: its slot in
      [Endpoints] is what it was before the call. *)
Theorem C4_degradation_verdict (s : Store.t) (current baseline : TestHistory.t) :
  (forall k c b,
      Statistics.EndpointStats (TestHistory.Statistics current) !! k = Some c ->
      Statistics.EndpointStats (TestHistory.Statistics baseline) !! k = Some b ->
      exists cmp,
        TestHistory.Endpoints (history.compareWithBaseline s current baseline).1 !! k
        = Some cmp
        /\ Comparison.Current cmp = c
        /\ Comparison.Previous cmp = b
        /\ Comparison.Changes cmp = history.changesOf c b
        /\ (Comparison.Degradation cmp = true <->
            (Store.thresholdPct s
             <? DegradationReport.LatencyIncrease (history.changesOf c b))%float = true
            \/ (Store.thresholdPct s
                <? DegradationReport.ErrorRateIncrease (history.changesOf c b))%float = true
            \/ (Store.thresholdPct s
                <? DegradationReport.ThroughputDecrease (history.changesOf c b))%float = true
            \/ (Store.thresholdPct s
                <? DegradationReport.SuccessRateDecrease (history.changesOf c b))%float = true))
  /\ (forall changes,
         (DegradationReport.LatencyIncrease changes = Store.thresholdPct s
          \/ (DegradationReport.LatencyIncrease changes =? Store.thresholdPct s)%float = true) ->
         (DegradationReport.ErrorRateIncrease changes = Store.thresholdPct s
          \/ (DegradationReport.ErrorRateIncrease changes =? Store.thresholdPct s)%float = true) ->
         (DegradationReport.ThroughputDecrease changes = Store.thresholdPct s
          \/ (DegradationReport.ThroughputDecrease changes =? Store.thresholdPct s)%float = true) ->
         (DegradationReport.SuccessRateDecrease changes = Store.thresholdPct s
          \/ (DegradationReport.SuccessRateDecrease changes =? Store.thresholdPct s)%float = true) ->
         history.isDegraded s changes = false)
  /\ ((history.compareWithBaseline s current baseline).2 = true <->
      exists k c b,
        Statistics.EndpointStats (TestHistory.Statistics current) !! k = Some c
        /\ Statistics.EndpointStats (TestHistory.Statistics baseline) !! k = Some b
        /\ history.isDegraded s (history.changesOf c b) = true)
  /\ (forall k,
         Statistics.EndpointStats (TestHistory.Statistics current) !! k = None
         \/ Statistics.EndpointStats (TestHistory.Statistics baseline) !! k = None ->
         TestHistory.Endpoints (history.compareWithBaseline s current baseline).1 !! k
         = TestHistory.Endpoints current !! k).
Proof.
  destruct (compareEndpoint_fold s
              (Statistics.EndpointStats (TestHistory.Statistics baseline))
              (TestHistory.Endpoints current)
              (Statistics.EndpointStats (TestHistory.Statistics current)))
    as [Hlook Hhas].
  unfold history.compareWithBaseline.
  destruct (map_fold _ _ _) as [eps has]. cbn [fst snd] in *.
  cbn [TestHistory.Endpoints].
  split; [|split; [|split]].
  - intros k c b Hc Hb. exists (history.compare s c b).
    rewrite Hlook, Hc, Hb. repeat (split; [reflexivity|]).
    apply isDegraded_iff.
  - intros changes H1 H2 H3 H4. unfold history.isDegraded.
    now rewrite !metric_at_threshold.
  - exact Hhas.
  - intros k [Hc|Hb]; rewrite Hlook.
    + now rewrite Hc.
    + rewrite Hb.
      now destruct (Statistics.EndpointStats (TestHistory.Statistics current) !! k).
Qed.

(** ** Percentage changes *)

Lemma percentageIncrease_zero_baseline (current previous : float) :
  (previous =? 0)%float = true -> history.percentageIncrease current previous = 0%float.
Proof. unfold history.percentageIncrease. now intros ->. Qed.

Lemma percentageIncrease_formula (current previous : float) :
  (previous =? 0)%float = false ->
  history.percentageIncrease current previous
  = ((current - previous) / previous * 100)%float.
Proof. unfold history.percentageIncrease. now intros ->. Qed.

(** C9.  For every [x], the percentage change against a baseline of zero is
    zero, in the detector's [percentageIncrease] and in
    [util.CalculatePercentageChange], for the literal zero as for every
    baseline that [==] equates with it; against any other baseline it is
    [((current - previous) / previous) * 100].  A decrease is the negation of
    the increase, and the two decrease metrics of a comparison are the
    negated increases of the requests per second and of the success rate. *)
Theorem C9_percentage_change (x : float) :
  history.percentageIncrease x 0 = 0%float
  /\ util.CalculatePercentageChange x 0 = 0%float
  /\ (forall previous, (previous =? 0)%float = true ->
        history.percentageIncrease x previous = 0%float
        /\ util.CalculatePercentageChange x previous = 0%float)
  /\ (forall previous, (previous =? 0)%float = false ->
        history.percentageIncrease x previous
        = ((x - previous) / previous * 100)%float
        /\ util.CalculatePercentageChange x previous
           = ((x - previous) / previous * 100)%float
        /\ history.percentageDecrease x previous
           = (- ((x - previous) / previous * 100))%float)
  /\ (forall previous,
        history.percentageDecrease x previous
        = (- history.percentageIncrease x previous)%float)
  /\ (forall c b : EndpointStatistics.t,
        DegradationReport.ThroughputDecrease (history.changesOf c b)
        = (- history.percentageIncrease (EndpointStatistics.RequestsPerSecond c)
               (EndpointStatistics.RequestsPerSecond b))%float
        /\ DegradationReport.SuccessRateDecrease (history.changesOf c b)
           = (- history.percentageIncrease (history.successRate c)
                  (history.successRate b))%float).
Proof.
  split; [reflexivity|]. split; [reflexivity|].
  split; [|split; [|split]].
  - intros previous H. split.
    + now apply percentageIncrease_zero_baseline.
    + unfold util.CalculatePercentageChange. now rewrite H.
  - intros previous H. unfold history.percentageDecrease.
    rewrite (percentageIncrease_formula _ _ H).
    unfold util.CalculatePercentageChange. rewrite H. repeat split.
  - reflexivity.
  - intros c b. split; reflexivity.
Qed.

(** ** The fixed worker pool *)

Lemma enqueue_length (tasks : list Task.t) (requestCount : Z) :
  length (pool.enqueue tasks requestCount)
  = (length tasks * Z.to_nat requestCount)%nat.
Proof.
  unfold pool.enqueue. induction tasks as [|task tasks IH]; [reflexivity|].
  cbn [flat_map length]. rewrite length_app, length_replicate, IH. lia.
Qed.

Lemma bind_insert_perm {A B : Type} (f : A -> list B) (l : list A) (i : nat) (x y : A) :
  l !! i = Some x ->
  f x ++ (<[i := y]> l ≫= f) ≡ₚ f y ++ (l ≫= f).
Proof.
  intros Hi. rewrite insert_take_drop by (eapply lookup_lt_Some; eauto).
  rewrite <- (take_drop_middle l i x Hi) at 3.
  rewrite !bind_app, !bind_cons.
  rewrite !(Permutation_app_swap_app (f _) (take i l ≫= f)).
  apply Permutation_app_head.
  rewrite !app_assoc. apply Permutation_app_tail, Permutation_app_comm.
Qed.

Lemma weight_insert (l : list pool.worker) (i : nat) (x y : pool.worker) :
  l !! i = Some x ->
  (sum_list_with pool.workerWeight (<[i := y]> l) + pool.workerWeight x
   = sum_list_with pool.workerWeight l + pool.workerWeight y)%nat.
Proof.
  intros Hi. rewrite insert_take_drop by (eapply lookup_lt_Some; eauto).
  rewrite <- (take_drop_middle l i x Hi) at 3.
  rewrite !sum_list_with_app. cbn [sum_list_with]. lia.
Qed.

Lemma forallb_isFinished_lookup (l : list pool.worker) (i : nat) (w : pool.worker) :
  forallb pool.isFinished l = true -> l !! i = Some w -> w = pool.Finished.
Proof.
  intros Hall Hi. rewrite forallb_forall in Hall.
  assert (Hin : In w l) by (apply list_elem_of_In, list_elem_of_lookup; eauto).
  specialize (Hall w Hin). now destruct w.
Qed.

Lemma forallb_isFinished_inflight (l : list pool.worker) :
  forallb pool.isFinished l = true -> l ≫= inflight = [].
Proof.
  induction l as [|w l IH]; [reflexivity|]. cbn [forallb].
  intros H. apply andb_true_iff in H as [Hw Hl].
  rewrite bind_cons, (IH Hl). now destruct w.
Qed.

(** Every event uses up some of the weight of the state: no run is longer
    than the weight of the state it starts in. *)
Lemma fire_weight (a : pool.action) (s s' : pool.state) :
  pool.fire a s = Some s' -> (pool.weight s' < pool.weight s)%nat.
Proof.
  destruct s as [pending closed workers rclosed results returned].
  unfold pool.weight.
  destruct a as [i| |i resp|i|i| |]; cbn [pool.fire pool.setWorker pool.pending
    pool.taskChanClosed pool.workers pool.resultChanClosed pool.results pool.returned].
  - destruct pending as [|task rest]; [discriminate|].
    destruct (workers !! i) as [[| | |]|] eqn:Hi; try discriminate.
    destruct closed; [discriminate|]. intros H. injection H as <-. cbn.
    pose proof (weight_insert workers i _ (pool.Requesting task) Hi) as Hw.
    cbn in Hw. lia.
  - destruct pending; [|discriminate]. destruct closed; [discriminate|].
    intros H. injection H as <-. cbn. lia.
  - destruct (workers !! i) as [[|task| |]|] eqn:Hi; try discriminate.
    intros H. injection H as <-. cbn.
    pose proof (weight_insert workers i _ (pool.Sending (pool.resultOf task resp)) Hi) as Hw.
    cbn in Hw. lia.
  - destruct (workers !! i) as [[| |result|]|] eqn:Hi; try discriminate.
    destruct (returned || rclosed) eqn:Hor; [discriminate|].
    apply orb_false_iff in Hor as [-> ->].
    intros H. injection H as <-. cbn.
    pose proof (weight_insert workers i _ pool.Receiving Hi) as Hw.
    cbn in Hw. lia.
  - destruct (workers !! i) as [[| | |]|] eqn:Hi; try discriminate.
    destruct closed; [|discriminate]. intros H. injection H as <-. cbn.
    pose proof (weight_insert workers i _ pool.Finished Hi) as Hw.
    cbn in Hw. lia.
  - destruct (forallb pool.isFinished workers && negb rclosed) eqn:Hc; [|discriminate].
    apply andb_true_iff in Hc as [_ Hr]. destruct rclosed; [discriminate|].
    intros H. injection H as <-. cbn. lia.
  - destruct (rclosed && negb returned) eqn:Hc; [|discriminate].
    apply andb_true_iff in Hc as [-> Hr]. destruct returned; [discriminate|].
    intros H. injection H as <-. cbn. lia.
Qed.

Lemma replicate_receiving_inflight (n : nat) :
  replicate n pool.Receiving ≫= inflight = [].
Proof. induction n as [|n IH]; [reflexivity|]. cbn. exact IH. Qed.

Lemma init_inv (r : Runner.t) : poolInv r (pool.init r).
Proof.
  unfold poolInv, pool.init, accounted. cbn.
  rewrite replicate_receiving_inflight. cbn.
  split; [reflexivity|]. split; [discriminate|]. split.
  { intros i Hi. apply lookup_replicate in Hi as [Hi _]. discriminate. }
  split; [discriminate|]. split; [discriminate|]. apply length_replicate.
Qed.

Lemma insert_not_finished (workers : list pool.worker) (i j : nat) (w : pool.worker) :
  w <> pool.Finished ->
  <[i := w]> workers !! j = Some pool.Finished -> workers !! j = Some pool.Finished.
Proof.
  intros Hw Hj. destruct (decide (i = j)) as [<-|Hne].
  - destruct (decide (i < length workers)%nat) as [Hlt|Hge].
    + rewrite list_lookup_insert_eq in Hj by exact Hlt. congruence.
    + rewrite list_insert_ge in Hj by lia. exact Hj.
  - now rewrite list_lookup_insert_ne in Hj.
Qed.

Lemma not_all_finished (workers : list pool.worker) (i : nat) (w : pool.worker) :
  workers !! i = Some w -> w <> pool.Finished ->
  forallb pool.isFinished workers = true -> False.
Proof.
  intros Hi Hw Hall. apply Hw. eapply forallb_isFinished_lookup; eauto.
Qed.

Lemma fire_inv (r : Runner.t) (a : pool.action) (s s' : pool.state) :
  poolInv r s -> pool.fire a s = Some s' -> poolInv r s'.
Proof.
  destruct s as [pending closed workers rclosed results returned].
  unfold poolInv, accounted. pool_fields.
  intros (Hperm & Hclosed & Hfin & Hrc & Hret & Hlen).
  destruct a as [i| |i resp|i|i| |]; cbn [pool.fire pool.setWorker]; pool_fields.
  - destruct pending as [|task rest]; [discriminate|].
    destruct (workers !! i) as [[| | |]|] eqn:Hi; try discriminate.
    destruct closed; [discriminate|]. intros H. injection H as <-. pool_fields.
    split; [|split; [|split; [|split; [|split]]]].
    + rewrite <- Hperm. apply Permutation_app_head.
      pose proof (bind_insert_perm inflight workers i _ (pool.Requesting task) Hi) as Hp.
      cbn [inflight app] in Hp. rewrite Hp. cbn [fmap list_fmap app].
      apply Permutation_middle.
    + discriminate.
    + intros j Hj. apply insert_not_finished in Hj; [|discriminate]. eauto.
    + intros Hr. exfalso. eapply (not_all_finished workers i); eauto; discriminate.
    + exact Hret.
    + now rewrite length_insert.
  - destruct pending; [|discriminate]. destruct closed; [discriminate|].
    intros H. injection H as <-. pool_fields.
    split; [exact Hperm|]. split; [reflexivity|]. split; [reflexivity|]. auto.
  - destruct (workers !! i) as [[|task| |]|] eqn:Hi; try discriminate.
    intros H. injection H as <-. pool_fields.
    split; [|split; [|split; [|split; [|split]]]].
    + rewrite <- Hperm. apply Permutation_app_head, Permutation_app_tail.
      pose proof (bind_insert_perm inflight workers i _
                    (pool.Sending (pool.resultOf task resp)) Hi) as Hp.
      cbn [inflight] in Hp.
      assert (Hkey : pool.resultKey (pool.resultOf task resp) = pool.taskKey task)
        by now destruct resp.
      rewrite Hkey in Hp. now apply Permutation_app_inv_l in Hp.
    + exact Hclosed.
    + intros j Hj. apply insert_not_finished in Hj; [|discriminate]. eauto.
    + intros Hr. exfalso. eapply (not_all_finished workers i); eauto; discriminate.
    + exact Hret.
    + now rewrite length_insert.
  - destruct (workers !! i) as [[| |result|]|] eqn:Hi; try discriminate.
    destruct (returned || rclosed) eqn:Hor; [discriminate|].
    apply orb_false_iff in Hor as [-> ->].
    intros H. injection H as <-. pool_fields.
    split; [|split; [|split; [|split; [|split]]]].
    + rewrite <- Hperm.
      pose proof (bind_insert_perm inflight workers i _ pool.Receiving Hi) as Hp.
      cbn [inflight app] in Hp.
      rewrite fmap_app, <- app_assoc. apply Permutation_app_head.
      rewrite <- Hp. reflexivity.
    + exact Hclosed.
    + intros j Hj. apply insert_not_finished in Hj; [|discriminate]. eauto.
    + discriminate.
    + discriminate.
    + now rewrite length_insert.
  - destruct (workers !! i) as [[| | |]|] eqn:Hi; try discriminate.
    destruct closed; [|discriminate]. intros H. injection H as <-. pool_fields.
    split; [|split; [|split; [|split; [|split]]]].
    + rewrite <- Hperm. apply Permutation_app_head, Permutation_app_tail.
      pose proof (bind_insert_perm inflight workers i _ pool.Finished Hi) as Hp.
      exact Hp.
    + exact Hclosed.
    + reflexivity.
    + intros Hr. exfalso. eapply (not_all_finished workers i); eauto; discriminate.
    + exact Hret.
    + now rewrite length_insert.
  - destruct (forallb pool.isFinished workers && negb rclosed) eqn:Hc; [|discriminate].
    apply andb_true_iff in Hc as [Hall Hr]. 
    intros H. injection H as <-. pool_fields.
    split; [exact Hperm|]. split; [exact Hclosed|]. split; [exact Hfin|].
    split; [auto|]. split; [reflexivity|]. exact Hlen.
  - destruct (rclosed && negb returned) eqn:Hc; [|discriminate].
    apply andb_true_iff in Hc as [-> Hr].
    intros H. injection H as <-. pool_fields.
    split; [exact Hperm|]. split; [exact Hclosed|]. split; [exact Hfin|].
    split; [auto|]. split; [reflexivity|]. exact Hlen.
Qed.

Lemma run_inv (r : Runner.t) (schedule : list pool.action) :
  forall s s', poolInv r s -> pool.run schedule s = Some s' -> poolInv r s'.
Proof.
  induction schedule as [|a schedule IH]; intros s s' Hinv Hrun; cbn in Hrun.
  - now injection Hrun as <-.
  - destruct (pool.fire a s) as [s1|] eqn:Hfire; [|discriminate].
    cbn in Hrun. eapply IH; [|exact Hrun]. eapply fire_inv; eauto.
Qed.

(** Where the workers of a pool stand, most advanced first. *)
Lemma workers_cases (workers : list pool.worker) :
  (exists i task, workers !! i = Some (pool.Requesting task))
  \/ (exists i result, workers !! i = Some (pool.Sending result))
  \/ (exists i, workers !! i = Some pool.Receiving)
  \/ forallb pool.isFinished workers = true.
Proof.
  induction workers as [|w workers IH]; [now right; right; right|].
  destruct w as [|task|result|].
  - right. right. left. now exists 0%nat.
  - left. now exists 0%nat, task.
  - right. left. now exists 0%nat, result.
  - destruct IH as [(i & task & H)|[(i & result & H)|[(i & H)|H]]].
    + left. now exists (S i), task.
    + right. left. now exists (S i), result.
    + right. right. left. now exists (S i).
    + now right; right; right.
Qed.

(** A pool that has not returned is never stuck, and the event it can take
    is never a failed request. *)
Lemma pool_progress (r : Runner.t) (s : pool.state) :
  poolInv r s -> pool.returned s = false ->
  exists a s', pool.fire a s = Some s' /\ pool.succeeds a = true.
Proof.
  destruct s as [pending closed workers rclosed results returned].
  unfold poolInv. pool_fields.
  intros (_ & Hclosed & Hfin & Hrc & Hret & _) ->.
  destruct (workers_cases workers) as [(i & task & H)|[(i & result & H)|[(i & H)|H]]].
  - exists (pool.Request i (pool.Responded 200 0)). cbn. rewrite H. eauto.
  - exists (pool.Deliver i). cbn. rewrite H.
    destruct rclosed; [|cbn; eauto].
    exfalso. eapply (not_all_finished workers i); eauto; discriminate.
  - destruct pending as [|task rest].
    + destruct closed.
      * exists (pool.Exit i). cbn. rewrite H. eauto.
      * exists pool.CloseTasks. cbn. eauto.
    + exists (pool.Dispatch i). cbn. rewrite H.
      destruct closed; [|eauto]. specialize (Hclosed eq_refl). discriminate.
  - destruct rclosed.
    + exists pool.Return. cbn. eauto.
    + exists pool.CloseResults. cbn. rewrite H. cbn. eauto.
Qed.

(** Every pool can be run to the end, by a schedule without a failed
    request. *)
Lemma pool_completes (r : Runner.t) (n : nat) :
  forall s, poolInv r s -> (pool.weight s <= n)%nat ->
    exists schedule s',
      pool.run schedule s = Some s' /\ pool.returned s' = true
      /\ forallb pool.succeeds schedule = true.
Proof.
  induction n as [|n IH]; intros s Hinv Hw.
  - destruct (pool.returned s) eqn:Hret.
    + exists [], s. auto.
    + destruct (pool_progress r s Hinv Hret) as (a & s1 & Hfire & _).
      apply fire_weight in Hfire. lia.
  - destruct (pool.returned s) eqn:Hret.
    + exists [], s. auto.
    + destruct (pool_progress r s Hinv Hret) as (a & s1 & Hfire & Hok).
      destruct (IH s1) as (schedule & s' & Hrun & Hdone & Hall).
      * eapply fire_inv; eauto.
      * apply fire_weight in Hfire. lia.
      * exists (a :: schedule), s'. cbn. rewrite Hfire, Hok. auto.
Qed.

Lemma fire_allAnswered (a : pool.action) (s s' : pool.state) :
  pool.succeeds a = true -> allAnswered s -> pool.fire a s = Some s' -> allAnswered s'.
Proof.
  destruct s as [pending closed workers rclosed results returned].
  unfold allAnswered. pool_fields. intros Hok [Hres Hsend].
  assert (Hkeep : forall i j w result,
             (forall result0, w = pool.Sending result0 -> Result.Error result0 = None) ->
             <[i := w]> workers !! j = Some (pool.Sending result) ->
             Result.Error result = None).
  { intros i j w result Hw Hj. destruct (decide (i = j)) as [<-|Hne].
    - destruct (decide (i < length workers)%nat) as [Hlt|Hge].
      + rewrite list_lookup_insert_eq in Hj by exact Hlt. injection Hj as ->. eauto.
      + rewrite list_insert_ge in Hj by lia. eauto.
    - rewrite list_lookup_insert_ne in Hj by exact Hne. eauto. }
  destruct a as [i| |i resp|i|i| |]; cbn [pool.fire]; pool_fields.
  - destruct pending as [|task rest]; [discriminate|].
    destruct (workers !! i) as [[| | |]|] eqn:Hi; try discriminate.
    destruct closed; [discriminate|]. intros H. injection H as <-. pool_fields.
    split; [exact Hres|]. intros j result. apply Hkeep. discriminate.
  - destruct pending; [|discriminate]. destruct closed; [discriminate|].
    intros H. injection H as <-. pool_fields. auto.
  - destruct (workers !! i) as [[|task| |]|] eqn:Hi; try discriminate.
    intros H. injection H as <-. pool_fields.
    split; [exact Hres|]. intros j result. apply Hkeep.
    intros result0 Heq. injection Heq as <-. now destruct resp.
  - destruct (workers !! i) as [[| |result|]|] eqn:Hi; try discriminate.
    destruct (returned || rclosed); [discriminate|].
    intros H. injection H as <-. pool_fields. split.
    + apply Forall_app. split; [exact Hres|]. constructor; [eauto|constructor].
    + intros j result0. apply Hkeep. discriminate.
  - destruct (workers !! i) as [[| | |]|] eqn:Hi; try discriminate.
    destruct closed; [|discriminate]. intros H. injection H as <-. pool_fields.
    split; [exact Hres|]. intros j result. apply Hkeep. discriminate.
  - destruct (forallb pool.isFinished workers && negb rclosed); [|discriminate].
    intros H. injection H as <-. pool_fields. auto.
  - destruct (rclosed && negb returned); [|discriminate].
    intros H. injection H as <-. pool_fields. auto.
Qed.

Lemma run_allAnswered (schedule : list pool.action) :
  forall s s', forallb pool.succeeds schedule = true -> allAnswered s ->
               pool.run schedule s = Some s' -> allAnswered s'.
Proof.
  induction schedule as [|a schedule IH]; intros s s' Hok Hall Hrun; cbn in *.
  - now injection Hrun as <-.
  - apply andb_true_iff in Hok as [Ha Hok].
    destruct (pool.fire a s) as [s1|] eqn:Hfire; [|discriminate]. cbn in Hrun.
    eapply IH; [exact Hok| |exact Hrun]. eapply fire_allAnswered; eauto.
Qed.

Lemma init_allAnswered (r : Runner.t) : allAnswered (pool.init r).
Proof.
  split; [constructor|]. cbn. intros i result Hi.
  apply lookup_replicate in Hi as [Hi _]. discriminate.
Qed.

(** What a pool with a worker has collected when [Run] returns. *)
Lemma returned_results (r : Runner.t) (s : pool.state) :
  1 <= Runner.workerCount r -> poolInv r s -> pool.returned s = true ->
  pool.resultKey <$> pool.results s
  ≡ₚ pool.taskKey <$> pool.enqueue (Runner.tasks r) (Runner.requestCount r).
Proof.
  intros HW (Hperm & Hclosed & Hfin & Hrc & Hret & Hlen) Hdone.
  unfold accounted in Hperm.
  pose proof (Hrc (Hret Hdone)) as Hall.
  rewrite (forallb_isFinished_inflight _ Hall) in Hperm.
  destruct (pool.workers s) as [|w workers] eqn:Hw; [cbn in Hlen; lia|].
  assert (Hw0 : (w :: workers) !! 0%nat = Some pool.Finished).
  { cbn. f_equal. eapply (forallb_isFinished_lookup (w :: workers) 0); eauto. }
  rewrite (Hclosed (Hfin _ Hw0)) in Hperm. cbn in Hperm.
  now rewrite app_nil_r in Hperm.
Qed.

Lemma run_weight (schedule : list pool.action) :
  forall s s', pool.run schedule s = Some s' ->
               (length schedule + pool.weight s' <= pool.weight s)%nat.
Proof.
  induction schedule as [|a schedule IH]; intros s s' Hrun; cbn in Hrun.
  - injection Hrun as <-. cbn. lia.
  - destruct (pool.fire a s) as [s1|] eqn:Hfire; [|discriminate]. cbn in Hrun.
    apply fire_weight in Hfire. apply IH in Hrun. cbn [length]. lia.
Qed.

(** C3.  Take a runner with at least one worker, [N] tasks and [R] requests
    per task.
    - Some interleaving leads [Run] to return, with every request answered.
    - Along every interleaving: the number of events so far is bounded by
      the weight of the initial state; as long as [Run] has not returned, an
      event is enabled; and once [Run] has returned, its results are [N * R]
      in number and, by endpoint, a rearrangement of the tasks as the
      producer queued them, each task [R] times.  If no request failed, none
      of the results carries an error. *)
Theorem C3_pool_returns_every_result (r : Runner.t) :
  1 <= Runner.workerCount r ->
  (exists schedule s,
      pool.run schedule (pool.init r) = Some s /\ pool.returned s = true
      /\ forallb pool.succeeds schedule = true)
  /\ forall schedule s,
       pool.run schedule (pool.init r) = Some s ->
       (length schedule + pool.weight s <= pool.weight (pool.init r))%nat
       /\ (pool.returned s = false ->
           exists a s', pool.fire a s = Some s' /\ pool.succeeds a = true)
       /\ (pool.returned s = true ->
           length (pool.results s)
           = (length (Runner.tasks r) * Z.to_nat (Runner.requestCount r))%nat
           /\ pool.resultKey <$> pool.results s
              ≡ₚ pool.taskKey <$> pool.enqueue (Runner.tasks r) (Runner.requestCount r)
           /\ (forallb pool.succeeds schedule = true ->
               Forall (fun result => Result.Error result = None) (pool.results s))).
Proof.
  intros HW. split.
  - apply (pool_completes r (pool.weight (pool.init r))); [apply init_inv | lia].
  - intros schedule s Hrun.
    pose proof (run_inv r schedule _ _ (init_inv r) Hrun) as Hinv.
    split; [now apply run_weight|]. split; [now apply (pool_progress r)|].
    intros Hdone.
    pose proof (returned_results r s HW Hinv Hdone) as Hperm.
    split; [|split; [exact Hperm|]].
    + apply Permutation_length in Hperm.
      rewrite !length_fmap, enqueue_length in Hperm. exact Hperm.
    + intros Hok.
      now destruct (run_allAnswered schedule _ _ Hok (init_allAnswered r) Hrun).
Qed.

(** The witness of C3: two workers, two endpoints, two requests each, along
    [sampleSchedule]. *)
Lemma C3_pool_returns_every_result_witness :
  exists s,
    pool.run sampleSchedule (pool.init sampleRunner) = Some s
    /\ pool.returned s = true
    /\ length (pool.results s) = 4%nat
    /\ pool.resultKey <$> pool.results s
       ≡ₚ [("GET", "/a"); ("GET", "/a"); ("POST", "/b"); ("POST", "/b")]%string.
Proof.
  destruct (pool.run sampleSchedule (pool.init sampleRunner)) as [s|] eqn:Hrun;
    [|vm_compute in Hrun; discriminate].
  assert (Hdone : pool.returned s = true).
  { vm_compute in Hrun. injection Hrun as <-. reflexivity. }
  destruct (C3_pool_returns_every_result sampleRunner) as [_ Hall];
    [cbn; lia|].
  destruct (Hall sampleSchedule s Hrun) as (_ & _ & Hres).
  destruct (Hres Hdone) as (Hlen & Hperm & _).
  exists s. split; [reflexivity|]. split; [exact Hdone|].
  split; [exact Hlen | exact Hperm].
Defined.

(** ** Rounding to binary64

    What the percentile indices need of the arithmetic of [float64]: the
    conversion of a small integer is exact, and a rounded product exceeds
    the exact one by at most a unit in the last place. *)

Lemma digits2_pos_bounds (m : positive) :
  2 ^ (Z.pos (digits2_pos m) - 1) <= Z.pos m < 2 ^ Z.pos (digits2_pos m).
Proof.
  induction m as [m IH|m IH|]; cbn [digits2_pos].
  - rewrite Pos2Z.inj_succ, (Pos2Z.inj_xI m).
    replace (Z.succ (Z.pos (digits2_pos m)) - 1) with (Z.succ (Z.pos (digits2_pos m) - 1)) by lia.
    rewrite !Z.pow_succ_r by lia.
    destruct IH as [IH1 IH2]. revert IH1 IH2.
    generalize (2 ^ (Z.pos (digits2_pos m) - 1)) (2 ^ Z.pos (digits2_pos m)).
    intros; lia.
  - rewrite Pos2Z.inj_succ, (Pos2Z.inj_xO m).
    replace (Z.succ (Z.pos (digits2_pos m)) - 1) with (Z.succ (Z.pos (digits2_pos m) - 1)) by lia.
    rewrite !Z.pow_succ_r by lia.
    destruct IH as [IH1 IH2]. revert IH1 IH2.
    generalize (2 ^ (Z.pos (digits2_pos m) - 1)) (2 ^ Z.pos (digits2_pos m)).
    intros; lia.
  - cbn. lia.
Qed.

Lemma digits2_pos_unique (m : positive) (k : Z) :
  2 ^ (k - 1) <= Z.pos m < 2 ^ k -> Z.pos (digits2_pos m) = k.
Proof.
  intros [Hlo Hhi]. pose proof (digits2_pos_bounds m) as [Hlo' Hhi'].
  assert (Hk : 0 < k).
  { destruct (Z_lt_le_dec 0 k) as [?|Hk]; [assumption|].
    destruct (Z.eq_dec k 0) as [->|Hne].
    - cbn in Hhi. lia.
    - rewrite Z.pow_neg_r in Hhi by lia. lia. }
  destruct (Z.lt_trichotomy (Z.pos (digits2_pos m)) k) as [Hlt|[Heq|Hgt]]; [|assumption|].
  - assert (2 ^ Z.pos (digits2_pos m) <= 2 ^ (k - 1)) by (apply Z.pow_le_mono_r; lia). lia.
  - assert (2 ^ k <= 2 ^ (Z.pos (digits2_pos m) - 1)) by (apply Z.pow_le_mono_r; lia). lia.
Qed.

Lemma shr_1_m (mrs : shr_record) :
  0 <= shr_m mrs -> shr_m (shr_1 mrs) = shr_m mrs / 2.
Proof.
  destruct mrs as [m r s]. cbn [shr_m]. intros Hm.
  destruct m as [|p|p]; [reflexivity| |lia].
  destruct p as [p|p|]; cbn [shr_1 shr_m].
  - rewrite (Pos2Z.inj_xI p). apply Z.div_unique with 1; lia.
  - rewrite (Pos2Z.inj_xO p). apply Z.div_unique with 0; lia.
  - reflexivity.
Qed.

Lemma iter_pos_shr_m (n : positive) :
  forall mrs, 0 <= shr_m mrs ->
    shr_m (SpecFloat.iter_pos shr_1 n mrs) = shr_m mrs / 2 ^ Z.pos n.
Proof.
  induction n as [n IH|n IH|]; intros mrs Hm; cbn [SpecFloat.iter_pos].
  - assert (H1 : 0 <= shr_m (shr_1 mrs)) by (rewrite shr_1_m by lia; apply Z.div_pos; lia).
    assert (H2 : 0 <= shr_m (SpecFloat.iter_pos shr_1 n (shr_1 mrs)))
      by (rewrite IH by lia; apply Z.div_pos; lia).
    rewrite IH, IH, shr_1_m by lia.
    rewrite !Z.div_div by lia. f_equal.
    rewrite (Pos2Z.inj_xI n). rewrite Z.pow_add_r, Z.pow_mul_r by lia.
    change (2 ^ 2) with 4. change (2 ^ 1) with 2.
    replace (4 ^ Z.pos n) with (2 ^ Z.pos n * 2 ^ Z.pos n).
    + lia.
    + rewrite <- Z.pow_mul_l. reflexivity.
  - assert (H2 : 0 <= shr_m (SpecFloat.iter_pos shr_1 n mrs))
      by (rewrite IH by lia; apply Z.div_pos; lia).
    rewrite IH, IH by lia.
    rewrite !Z.div_div by lia. f_equal.
    rewrite (Pos2Z.inj_xO n). rewrite Z.pow_mul_r by lia.
    change (2 ^ 2) with 4.
    replace (4 ^ Z.pos n) with (2 ^ Z.pos n * 2 ^ Z.pos n).
    + lia.
    + rewrite <- Z.pow_mul_l. reflexivity.
  - rewrite shr_1_m by lia. reflexivity.
Qed.

Lemma round_nearest_even_bounds (m : Z) (l : location) :
  m <= round_nearest_even m l <= m + 1.
Proof.
  destruct l as [|[| |]]; cbn; try lia. destruct (Z.even m); lia.
Qed.

Lemma fexp_normal (e : Z) :
  SpecFloat.emin prec emax <= e - prec -> SpecFloat.fexp prec emax e = e - prec.
Proof. unfold SpecFloat.fexp. lia. Qed.

(** A mantissa of exactly 53 bits with an exponent in range is left as it
    is by the rounding. *)
Lemma binary_round_aux_exact (s : bool) (mz : positive) (ez : Z) :
  Z.pos (digits2_pos mz) = prec ->
  SpecFloat.emin prec emax <= ez <= emax - prec ->
  binary_round_aux prec emax s (Z.pos mz) ez loc_Exact = S754_finite s mz ez.
Proof.
  intros Hd [Hlo Hhi].
  assert (Hshift : SpecFloat.fexp prec emax (Z.pos (digits2_pos mz) + ez) - ez = 0).
  { rewrite fexp_normal; rewrite Hd; lia. }
  unfold binary_round_aux, shr_fexp. cbn [Zdigits2 shr_record_of_loc].
  rewrite Hshift. cbn [shr shr_m loc_of_shr_record round_nearest_even Zdigits2
                       shr_record_of_loc].
  rewrite Hshift. cbn [shr shr_m].
  replace (ez <=? emax - prec) with true by (symmetry; apply Z.leb_le; lia).
  reflexivity.
Qed.

Lemma pos_iter_xO (p k : positive) :
  Z.pos (Pos.iter xO p k) = Z.pos p * 2 ^ Z.pos k.
Proof.
  change (Pos.iter xO p k) with (shift_pos k p).
  rewrite shift_pos_correct, Z.pow_pos_fold. lia.
Qed.

(** [float64(l)] for [1 <= l < 2^53]: [l] itself, written with a mantissa of
    53 bits. *)
Lemma binary_normalize_small (l : Z) :
  1 <= l < 2 ^ 53 ->
  exists mx ex,
    binary_normalize prec emax l 0 false = S754_finite false mx ex
    /\ Z.pos (digits2_pos mx) = 53
    /\ -52 <= ex <= 0
    /\ Z.pos mx = l * 2 ^ (- ex).
Proof.
  intros [Hl1 Hl2]. destruct l as [|p|p]; try lia.
  cbn [binary_normalize]. unfold binary_round.
  pose proof (digits2_pos_bounds p) as [Hd1 Hd2].
  set (d := Z.pos (digits2_pos p)) in *.
  assert (Hd : 1 <= d <= 53).
  { split; [unfold d; lia|].
    destruct (Z_le_gt_dec d 53) as [?|Hgt]; [assumption|].
    assert (2 ^ 53 <= 2 ^ (d - 1)) by (apply Z.pow_le_mono_r; lia). lia. }
  rewrite Z.add_0_r. rewrite fexp_normal by (unfold SpecFloat.emin, prec, emax; lia).
  unfold shl_align. change prec with 53 at 1. rewrite Z.sub_0_r.
  destruct (d - 53) as [|q|q] eqn:Hq; try lia.
  - exists p, 0. split.
    { apply binary_round_aux_exact; [unfold prec; lia|].
      unfold SpecFloat.emin, emax, prec. lia. }
    split; [lia|]. split; [lia|]. change (2 ^ (- 0)) with 1. lia.
  - assert (Hiter : Z.pos (Pos.iter xO p q) = Z.pos p * 2 ^ (53 - d)).
    { rewrite pos_iter_xO. do 2 f_equal. lia. }
    assert (Hdig : Z.pos (digits2_pos (Pos.iter xO p q)) = 53).
    { apply digits2_pos_unique. rewrite Hiter. split.
      - replace (53 - 1) with ((d - 1) + (53 - d)) by lia.
        rewrite Z.pow_add_r by lia. apply Z.mul_le_mono_nonneg_r; [|lia].
        apply Z.pow_nonneg. lia.
      - replace 53 with (d + (53 - d)) at 2 by lia.
        rewrite Z.pow_add_r by lia. apply Z.mul_lt_mono_pos_r; [|lia].
        apply Z.pow_pos_nonneg; lia. }
    exists (Pos.iter xO p q), (d - 53). split.
    { apply binary_round_aux_exact; [unfold prec; lia|].
      unfold SpecFloat.emin, emax, prec. lia. }
    split; [exact Hdig|]. split; [lia|].
    rewrite Hiter. do 2 f_equal. lia.
Qed.

(** Rounding a product to 53 bits: the result is finite, and it exceeds the
    exact product by at most one unit of its last place. *)
Lemma binary_round_aux_upper (P : positive) (E : Z) :
  54 <= Z.pos (digits2_pos P) ->
  SpecFloat.emin prec emax <= Z.pos (digits2_pos P) + E - 53 <= 970 ->
  exists m3 e3,
    binary_round_aux prec emax false (Z.pos P) E loc_Exact = S754_finite false m3 e3
    /\ E <= e3
    /\ Z.pos m3 * 2 ^ (e3 - E) <= Z.pos P + 2 ^ (Z.pos (digits2_pos P) - 53).
Proof.
  intros HdP [Hlo Hhi].
  pose proof (digits2_pos_bounds P) as [HP1 HP2].
  set (dP := Z.pos (digits2_pos P)) in *.
  assert (Hshift1 : SpecFloat.fexp prec emax (dP + E) - E = dP - 53).
  { rewrite fexp_normal; unfold prec in *; lia. }
  unfold binary_round_aux, shr_fexp. cbn [Zdigits2 shr_record_of_loc].
  fold dP. rewrite Hshift1.
  destruct (dP - 53) as [|n1|n1] eqn:Hn1; try lia.
  cbn [shr].
  set (mrs1 := SpecFloat.iter_pos shr_1 n1
                 {| shr_m := Z.pos P; shr_r := false; shr_s := false |}).
  assert (Hm1 : shr_m mrs1 = Z.pos P / 2 ^ Z.pos n1).
  { unfold mrs1. rewrite iter_pos_shr_m; cbn [shr_m]; [reflexivity | lia]. }
  assert (Hpow : 2 ^ Z.pos n1 * 2 ^ 52 = 2 ^ (dP - 1)).
  { rewrite <- Z.pow_add_r by lia. f_equal. lia. }
  assert (Hpow' : 2 ^ Z.pos n1 * 2 ^ 53 = 2 ^ dP).
  { rewrite <- Z.pow_add_r by lia. f_equal. lia. }
  assert (Hpos : 0 < 2 ^ Z.pos n1) by (apply Z.pow_pos_nonneg; lia).
  assert (Hm1lo : 2 ^ 52 <= shr_m mrs1).
  { rewrite Hm1. apply Z.div_le_lower_bound; [lia|]. rewrite Hpow. exact HP1. }
  assert (Hm1hi : shr_m mrs1 < 2 ^ 53).
  { rewrite Hm1. apply Z.div_lt_upper_bound; [lia|]. rewrite Hpow'. exact HP2. }
  assert (Hm1mul : shr_m mrs1 * 2 ^ Z.pos n1 <= Z.pos P).
  { rewrite Hm1, Z.mul_comm. apply Z.mul_div_le. lia. }
  pose proof (round_nearest_even_bounds (shr_m mrs1) (loc_of_shr_record mrs1))
    as [Hr1 Hr2].
  set (m2 := round_nearest_even (shr_m mrs1) (loc_of_shr_record mrs1)) in *.
  assert (Hm2mul : m2 * 2 ^ Z.pos n1 <= Z.pos P + 2 ^ Z.pos n1) by nia.
  destruct m2 as [|q2|q2] eqn:Hq2; try lia.
  cbn [Zdigits2 shr_record_of_loc].
  destruct (Z_lt_le_dec (Z.pos q2) (2 ^ 53)) as [Hlt|Hge].
  - assert (Hd2 : Z.pos (digits2_pos q2) = 53).
    { apply digits2_pos_unique. split; [change (53 - 1) with 52|]; lia. }
    assert (Hshift2 : SpecFloat.fexp prec emax (Z.pos (digits2_pos q2) + (E + Z.pos n1))
                      - (E + Z.pos n1) = 0).
    { rewrite Hd2, fexp_normal; unfold prec in *; lia. }
    rewrite Hshift2. cbn [shr shr_m].
    replace (E + Z.pos n1 <=? emax - prec) with true
      by (symmetry; apply Z.leb_le; unfold emax, prec; lia).
    exists q2, (E + Z.pos n1). split; [reflexivity|]. split; [lia|].
    replace (E + Z.pos n1 - E) with (Z.pos n1) by lia. exact Hm2mul.
  - assert (Hq : q2 = 9007199254740992%positive).
    { change (2 ^ 53) with 9007199254740992 in *. lia. }
    subst q2.
    assert (Hshift2 : SpecFloat.fexp prec emax
                        (Z.pos (digits2_pos 9007199254740992) + (E + Z.pos n1))
                      - (E + Z.pos n1) = 1).
    { change (Z.pos (digits2_pos 9007199254740992)) with 54.
      rewrite fexp_normal; unfold prec in *; lia. }
    rewrite Hshift2. cbn [shr SpecFloat.iter_pos shr_1 shr_m].
    replace (E + Z.pos n1 + 1 <=? emax - prec) with true
      by (symmetry; apply Z.leb_le; unfold emax, prec; lia).
    exists 4503599627370496%positive, (E + Z.pos n1 + 1).
    split; [reflexivity|]. split; [lia|].
    replace (E + Z.pos n1 + 1 - E) with (Z.pos n1 + 1) by lia.
    rewrite Z.pow_add_r by lia. change (2 ^ 1) with 2.
    change (Z.pos 4503599627370496) with (2 ^ 52).
    change (Z.pos 9007199254740992) with (2 ^ 53) in Hm2mul.
    change (2 ^ 53) with (2 ^ 52 * 2) in Hm2mul. lia.
Qed.

(** [int(f) < l] for a finite [f] whose value is below the integer [l]. *)
Lemma to_int_below (f : float) (m : positive) (e E l : Z) :
  Prim2SF f = S754_finite false m e ->
  E <= 0 -> E <= e -> 1 <= l <= 2 ^ 53 ->
  Z.pos m * 2 ^ (e - E) < l * 2 ^ (- E) ->
  0 <= gofloat.to_int f < l.
Proof.
  intros Hf HE He Hl Hlt. unfold gofloat.to_int. rewrite Hf.
  assert (Hrange : forall v, 0 <= v < l ->
            (if (goint.min_int64 <=? v) && (v <=? goint.max_int64)
             then v else goint.min_int64) = v).
  { intros v Hv.
    replace (goint.min_int64 <=? v) with true
      by (symmetry; apply Z.leb_le; unfold goint.min_int64; lia).
    replace (v <=? goint.max_int64) with true
      by (symmetry; apply Z.leb_le; unfold goint.max_int64;
          change (2 ^ 53) with 9007199254740992 in Hl; lia).
    reflexivity. }
  destruct (0 <=? e) eqn:He0.
  - apply Z.leb_le in He0.
    assert (Hv : 0 <= Z.pos m * 2 ^ e < l).
    { split; [apply Z.mul_nonneg_nonneg; [lia | apply Z.pow_nonneg; lia]|].
      replace (e - E) with (e + - E) in Hlt by lia.
      rewrite Z.pow_add_r, Z.mul_assoc in Hlt by lia.
      apply Z.mul_lt_mono_pos_r in Hlt; [exact Hlt | apply Z.pow_pos_nonneg; lia]. }
    rewrite (Hrange _ Hv). exact Hv.
  - apply Z.leb_gt in He0.
    assert (Hp : 0 < 2 ^ (- e)) by (apply Z.pow_pos_nonneg; lia).
    rewrite Z.quot_div_nonneg by lia.
    assert (Hv : 0 <= Z.pos m / 2 ^ (- e) < l).
    { split; [apply Z.div_pos; lia|].
      apply Z.div_lt_upper_bound; [lia|].
      replace (- E) with (- e + (e - E)) in Hlt by lia.
      rewrite Z.pow_add_r, Z.mul_assoc in Hlt by lia.
      apply Z.mul_lt_mono_pos_r in Hlt; [lia | apply Z.pow_pos_nonneg; lia]. }
    rewrite (Hrange _ Hv). exact Hv.
Qed.

Lemma of_int_small (l : Z) :
  1 <= l < 2 ^ 53 ->
  exists mx ex,
    Prim2SF (gofloat.of_int l) = S754_finite false mx ex
    /\ Z.pos (digits2_pos mx) = 53
    /\ -52 <= ex <= 0
    /\ Z.pos mx = l * 2 ^ (- ex).
Proof.
  intros Hl. destruct (binary_normalize_small l Hl) as (mx & ex & Hn & Hd & Hex & Hmx).
  exists mx, ex. split; [|auto]. unfold gofloat.of_int. rewrite Hn.
  apply Prim2SF_SF2Prim. cbn [valid_binary]. unfold bounded, canonical_mantissa.
  rewrite Hd, fexp_normal by (unfold SpecFloat.emin, prec, emax; lia).
  apply andb_true_iff. split; [apply Z.eqb_eq | apply Z.leb_le]; unfold prec, emax; lia.
Qed.

(** The index [int(float64(l) * c)] for a factor [c] in [[1/2, 1 - 3/2^53]]:
    it is below [l]. *)
Lemma floatIndex_below (c : float) (mc : positive) (l : Z) :
  Prim2SF c = S754_finite false mc (-53) ->
  2 ^ 52 <= Z.pos mc <= 2 ^ 53 - 3 ->
  1 <= l < 2 ^ 53 ->
  0 <= stats.floatIndex c l < l.
Proof.
  intros Hc [Hc1 Hc2] Hl.
  destruct (of_int_small l Hl) as (mx & ex & Hx & Hd & Hex & Hmx).
  pose proof (digits2_pos_bounds mx) as [Hx1 Hx2]. rewrite Hd in Hx1, Hx2.
  change (53 - 1) with 52 in Hx1.
  unfold stats.floatIndex.
  assert (Hmul : Prim2SF (gofloat.of_int l * c)
                 = binary_round_aux prec emax false (Z.pos (mx * mc)) (ex + -53) loc_Exact).
  { rewrite FloatAxioms.mul_spec, Hx, Hc. reflexivity. }
  pose proof (digits2_pos_bounds (mx * mc)) as [HP1 HP2].
  set (dP := Z.pos (digits2_pos (mx * mc))) in *.
  rewrite Pos2Z.inj_mul in HP1, HP2.
  assert (HPlo : 2 ^ 104 <= Z.pos mx * Z.pos mc).
  { change (2 ^ 104) with (2 ^ 52 * 2 ^ 52). apply Z.mul_le_mono_nonneg; lia. }
  assert (HPhi : Z.pos mx * Z.pos mc < 2 ^ 106).
  { change (2 ^ 106) with (2 ^ 53 * 2 ^ 53). apply Z.mul_lt_mono_nonneg; lia. }
  assert (HdP : 105 <= dP <= 106).
  { split.
    - destruct (Z_le_gt_dec 105 dP) as [?|Hgt]; [assumption|].
      assert (2 ^ dP <= 2 ^ 104) by (apply Z.pow_le_mono_r; lia). lia.
    - destruct (Z_le_gt_dec dP 106) as [?|Hgt]; [assumption|].
      assert (2 ^ 106 <= 2 ^ (dP - 1)) by (apply Z.pow_le_mono_r; lia). lia. }
  destruct (binary_round_aux_upper (mx * mc) (ex + -53)) as (m3 & e3 & Hr & He3 & Hup).
  { fold dP. lia. }
  { fold dP. unfold SpecFloat.emin, prec, emax. lia. }
  fold dP in Hup. rewrite Pos2Z.inj_mul in Hup.
  apply (to_int_below _ m3 e3 (ex + -53) l);
    [now rewrite Hmul | lia | lia
    | change (2 ^ 53) with 9007199254740992 in *; lia |].
  - replace (- (ex + -53)) with (- ex + 53) by lia.
    rewrite Z.pow_add_r, Z.mul_assoc, <- Hmx by lia.
    assert (Hulp : 2 ^ (dP - 53) <= 2 ^ 53) by (apply Z.pow_le_mono_r; lia).
    change (2 ^ 53) with 9007199254740992 in *.
    change (2 ^ 52) with 4503599627370496 in *.
    nia.
Qed.

Lemma floatIndex_95_below (l : Z) :
  1 <= l < 2 ^ 53 -> 0 <= stats.floatIndex gofloat.c0_95 l < l.
Proof.
  apply (floatIndex_below _ 8556839292003942); [reflexivity|].
  change (2 ^ 52) with 4503599627370496. change (2 ^ 53) with 9007199254740992. lia.
Qed.

Lemma floatIndex_99_below (l : Z) :
  1 <= l < 2 ^ 53 -> 0 <= stats.floatIndex gofloat.c0_99 l < l.
Proof.
  apply (floatIndex_below _ 8917127262193582); [reflexivity|].
  change (2 ^ 52) with 4503599627370496. change (2 ^ 53) with 9007199254740992. lia.
Qed.

Lemma intIndex_below (pct l : Z) :
  0 <= pct < 100 -> 1 <= l < 2 ^ 53 -> 0 <= stats.intIndex pct l < l.
Proof.
  intros Hp Hl. unfold stats.intIndex, goint.mul.
  change (2 ^ 53) with 9007199254740992 in Hl.
  rewrite (wrap64_small (l * pct))
    by (unfold goint.min_int64, goint.max_int64; nia).
  rewrite Z.quot_div_nonneg by nia.
  assert (Hq : 0 <= l * pct / 100 < l).
  { split; [apply Z.div_pos; nia|]. apply Z.div_lt_upper_bound; nia. }
  rewrite wrap64_small by (unfold goint.min_int64, goint.max_int64; lia).
  exact Hq.
Qed.

Lemma medianIndex_below (l : Z) :
  1 <= l < 2 ^ 53 -> 0 <= goint.wrap64 (Z.quot l 2) < l.
Proof.
  intros Hl. change (2 ^ 53) with 9007199254740992 in Hl.
  rewrite Z.quot_div_nonneg by lia.
  assert (Hq : 0 <= l / 2 < l).
  { split; [apply Z.div_pos; lia|]. apply Z.div_lt_upper_bound; lia. }
  rewrite wrap64_small by (unfold goint.min_int64, goint.max_int64; lia).
  exact Hq.
Qed.

Lemma index_in_range {A : Type} (s : list A) (i : Z) :
  0 <= i < goint.len s -> is_Some (goint.index s i).
Proof.
  unfold goint.index, goint.len. intros [H0 H1].
  replace (i <? 0) with false by (symmetry; apply Z.ltb_ge; lia).
  apply lookup_lt_is_Some. lia.
Qed.

(** Short of the division by a success count of zero, the second pass
    cannot panic on an endpoint: its five indices are inside the sorted
    durations. *)
Lemma calculateEndpointStats_total (stat : EndpointStatistics.t)
    (results : list Result.t) :
  goint.len results < 2 ^ 53 ->
  EndpointStatistics.SuccessRequests stat <> 0
  \/ stats.collectDurations (EndpointStatistics.URL stat) results = [] ->
  is_Some (stats.calculateEndpointStats stat results).
Proof.
  intros Hlen Hok. unfold stats.calculateEndpointStats.
  set (ds := stats.collectDurations (EndpointStatistics.URL stat) results).
  destruct (0 <? goint.len ds) eqn:Hpos; [|eauto].
  apply Z.ltb_lt in Hpos.
  assert (Hne : EndpointStatistics.SuccessRequests stat <> 0).
  { destruct Hok as [?|Hnil]; [assumption|]. unfold ds in Hpos.
    rewrite Hnil in Hpos. vm_compute in Hpos. discriminate. }
  assert (Hds : goint.len ds <= goint.len results).
  { unfold ds, goint.len. rewrite collectDurations_filter, length_fmap.
    apply inj_le, length_filter. }
  assert (Hl : 1 <= goint.len (stats.sortDurations ds) < 2 ^ 53).
  { unfold goint.len in *. rewrite sortDurations_length. lia. }
  unfold goint.div. apply Z.eqb_neq in Hne. rewrite Hne. cbn [mbind option_bind].
  destruct (index_in_range _ _ (medianIndex_below _ Hl)) as [med ->].
  destruct (index_in_range _ _ (floatIndex_95_below _ Hl)) as [p95 ->].
  destruct (index_in_range _ _ (floatIndex_99_below _ Hl)) as [p99 ->].
  cbn [mbind option_bind]. unfold stats.calculatePercentiles.
  assert (Hl' : 1 <= goint.len (stats.sortDurations (stats.sortDurations ds)) < 2 ^ 53).
  { unfold goint.len in *. rewrite sortDurations_length. lia. }
  destruct (index_in_range _ _ (intIndex_below 50 _ ltac:(lia) Hl')) as [p50 ->].
  destruct (index_in_range _ _ (intIndex_below 95 _ ltac:(lia) Hl')) as [q95 ->].
  destruct (index_in_range _ _ (intIndex_below 99 _ ltac:(lia) Hl')) as [q99 ->].
  cbn [mbind option_bind]. eauto.
Qed.

Lemma calculateEndpointStats_panics_iff (stat : EndpointStatistics.t)
    (results : list Result.t) :
  goint.len results < 2 ^ 53 ->
  stats.calculateEndpointStats stat results = None <->
  EndpointStatistics.SuccessRequests stat = 0
  /\ stats.collectDurations (EndpointStatistics.URL stat) results <> [].
Proof.
  intros Hlen. split.
  - intros Hnone.
    destruct (decide (EndpointStatistics.SuccessRequests stat = 0)) as [H0|Hne].
    + split; [exact H0|]. intros Hnil.
      destruct (calculateEndpointStats_total stat results Hlen (or_intror Hnil))
        as [e He].
      congruence.
    + destruct (calculateEndpointStats_total stat results Hlen (or_introl Hne))
        as [e He].
      congruence.
  - intros [H0 Hne]. unfold stats.calculateEndpointStats.
    destruct (stats.collectDurations (EndpointStatistics.URL stat) results)
      as [|d ds]; [congruence|].
    cbn [goint.len length]. rewrite H0. reflexivity.
Qed.

(** Which batches make [Calculate] panic: those with an endpoint that has no
    success of its own on a URL that a successful result carries. *)
Lemma Calculate_panics_iff (results : list Result.t) :
  goint.len results < 2 ^ 53 ->
  stats.Calculate results = None <->
  exists k e,
    Statistics.EndpointStats (stats.firstPass results) !! k = Some e
    /\ EndpointStatistics.SuccessRequests e = 0
    /\ stats.collectDurations (EndpointStatistics.URL e) results <> [].
Proof.
  intros Hlen. unfold stats.Calculate, stats.secondPass.
  destruct (decide _) as [Hall|Hnot]; cbn.
  - split; [discriminate|]. intros (k & e & Hk & H0 & Hne).
    destruct (Hall k e Hk) as [e' He'].
    assert (Hnone : stats.calculateEndpointStats e results = None)
      by (apply calculateEndpointStats_panics_iff; auto).
    congruence.
  - split; [intros _|reflexivity].
    apply map_not_Forall in Hnot; [|intros; apply _].
    destruct Hnot as (k & e & Hk & Hpanic). exists k, e. split; [exact Hk|].
    apply calculateEndpointStats_panics_iff; [exact Hlen|].
    destruct (stats.calculateEndpointStats e results); [|reflexivity].
    exfalso. apply Hpanic. eauto.
Qed.

(** C10 on the code.  For every length [1 <= l < 2^53] the median index and
    the five percentile indices are inside the sorted durations, so the
    extraction of the percentiles cannot index out of bounds, and an entry
    with a success of its own passes the second pass.  The aggregator is
    nevertheless not total: [Calculate] panics exactly on the batches in
    which an endpoint without a success sits on a URL that a successful
    result carries, in the division by its success count; [GET /a]
    answering once and [POST /a] failing once is such a batch. *)
Theorem C10_indices_in_range_division_panics :
  (forall l, 1 <= l < 2 ^ 53 ->
     0 <= goint.wrap64 (Z.quot l 2) < l
     /\ 0 <= stats.floatIndex gofloat.c0_95 l < l
     /\ 0 <= stats.floatIndex gofloat.c0_99 l < l
     /\ 0 <= stats.intIndex 50 l < l
     /\ 0 <= stats.intIndex 95 l < l
     /\ 0 <= stats.intIndex 99 l < l)
  /\ (forall stat results,
        goint.len results < 2 ^ 53 ->
        EndpointStatistics.SuccessRequests stat <> 0 ->
        is_Some (stats.calculateEndpointStats stat results))
  /\ (forall results,
        goint.len results < 2 ^ 53 ->
        stats.Calculate results = None <->
        exists k e,
          Statistics.EndpointStats (stats.firstPass results) !! k = Some e
          /\ EndpointStatistics.SuccessRequests e = 0
          /\ stats.collectDurations (EndpointStatistics.URL e) results <> [])
  /\ (exists e,
        Statistics.EndpointStats (stats.firstPass sharedUrlFailure) !! "POST /a"%string
        = Some e
        /\ EndpointStatistics.SuccessRequests e = 0
        /\ stats.collectDurations (EndpointStatistics.URL e) sharedUrlFailure = [5]
        /\ goint.div (EndpointStatistics.TotalDuration e)
             (EndpointStatistics.SuccessRequests e) = None
        /\ stats.calculateEndpointStats e sharedUrlFailure = None)
  /\ stats.Calculate sharedUrlFailure = None.
Proof.
  split; [|split; [|split; [|split]]].
  - intros l Hl. split; [now apply medianIndex_below|].
    split; [now apply floatIndex_95_below|].
    split; [now apply floatIndex_99_below|].
    repeat split; apply intIndex_below; lia.
  - intros stat results Hlen Hne. apply calculateEndpointStats_total; auto.
  - exact Calculate_panics_iff.
  - destruct (Statistics.EndpointStats (stats.firstPass sharedUrlFailure)
                !! "POST /a"%string) as [e|] eqn:He;
      [|vm_compute in He; discriminate].
    exists e. split; [reflexivity|].
    vm_compute in He. injection He as <-.
    repeat (split; [vm_compute; reflexivity|]). vm_compute. reflexivity.
  - vm_compute. reflexivity.
Qed.

(** ** More on the ramp controllers *)

(** X1.  The request count of a data-volume step never grows with the
    data size: a larger payload gets at most as many requests as a smaller
    one, and every count lies between 10 and 100. *)
Theorem calculateRequestCount_antitone (a b : Z) :
  a <= b ->
  runner.calculateRequestCount b <= runner.calculateRequestCount a
  /\ 10 <= runner.calculateRequestCount a <= 100.
Proof.
  intros Hab. unfold runner.calculateRequestCount.
  repeat match goal with
         | |- context [?x <? ?y] => destruct (Z.ltb_spec x y)
         end; lia.
Qed.

Lemma calculateRequestCount_antitone_witness :
  runner.calculateRequestCount 5000 <= runner.calculateRequestCount 1000
  /\ 10 <= runner.calculateRequestCount 1000 <= 100.
Proof. apply (calculateRequestCount_antitone 1000 5000). lia. Defined.

Lemma dataLoadLoop_steps {World : Type}
    (Run : Runner.t -> World -> list Result.t * World)
    (config : DataLoadConfig.t) (fuel : nat) :
  forall (step size : Z) (r : Runner.t) (w : World) (acc : list LoadTestResult.t),
  exists new,
    (runner.dataLoadLoop Run fuel config step size r w acc).1.1 = acc ++ new
    /\ (length new <= fuel)%nat
    /\ Forall (fun s => LoadTestResult.DataSize s <= DataLoadConfig.MaxDataSize config
                        /\ LoadTestResult.UserCount s = 0
                        /\ LoadTestResult.StepNumber s = 0) new
    /\ (new = [] <->
        fuel = 0%nat \/ DataLoadConfig.StepsCount config <= step
        \/ DataLoadConfig.MaxDataSize config < size)
    /\ (forall s, head new = Some s -> LoadTestResult.DataSize s = size)
    /\ Runner.tasks (runner.dataLoadLoop Run fuel config step size r w acc).1.2
       = Runner.tasks r
    /\ Runner.workerCount (runner.dataLoadLoop Run fuel config step size r w acc).1.2
       = Runner.workerCount r
    /\ Runner.requestCount (runner.dataLoadLoop Run fuel config step size r w acc).1.2
       = Runner.requestCount r.
Proof.
  induction fuel as [|fuel IH]; intros step size r w acc.
  - exists []. cbn. rewrite app_nil_r. repeat split; auto; try discriminate.
  - cbn [runner.dataLoadLoop].
    destruct (Z.ltb_spec step (DataLoadConfig.StepsCount config)) as [Hs|Hs];
      [destruct (Z.leb_spec size (DataLoadConfig.MaxDataSize config)) as [Hm|Hm]|];
      cbn [andb].
    + destruct (Run _ w) as [testResults w1].
      match goal with
      | |- context [runner.dataLoadLoop Run fuel config ?st ?sz ?r2 w1 ?acc'] =>
          destruct (IH st sz r2 w1 acc')
            as (new & Hres & Hlen & Hall & _ & _ & Ht & Hw & Hr)
      end.
      exists (LoadTestResult.mk 0 size testResults 0 :: new).
      rewrite Hres, <- app_assoc. cbn [app length].
      split; [reflexivity|]. split; [lia|].
      split; [constructor; [cbn; lia | exact Hall]|].
      split; [split; [discriminate | lia]|].
      split; [intros s Hs'; injection Hs' as <-; reflexivity|].
      rewrite Ht, Hw, Hr. repeat split.
    + exists []. cbn. rewrite app_nil_r. repeat split; auto; try discriminate. lia.
    + exists []. cbn. rewrite app_nil_r. repeat split; auto; try discriminate. lia.
Qed.

Lemma Runner_eta (r r' : Runner.t) :
  Runner.tasks r' = Runner.tasks r ->
  Runner.workerCount r' = Runner.workerCount r ->
  Runner.requestCount r' = Runner.requestCount r -> r' = r.
Proof. destruct r, r'; cbn; congruence. Qed.

(** X2.  For every configuration, [RunDataLoadTest] hands the runner back
    with the request count it had, and returns at most [StepsCount] steps,
    each with a data size of at most [MaxDataSize] and with the user count
    and the step number left at zero.  The first step, when there is one,
    has the initial data size; there is no step at all exactly when
    [StepsCount] is not positive or the initial size exceeds the maximum. *)
Theorem RunDataLoadTest_steps {World : Type}
    (Run : Runner.t -> World -> list Result.t * World)
    (r : Runner.t) (config : DataLoadConfig.t) (w : World) :
  (runner.RunDataLoadTest Run r config w).1.2 = r
  /\ (length (runner.RunDataLoadTest Run r config w).1.1
      <= Z.to_nat (DataLoadConfig.StepsCount config))%nat
  /\ Forall (fun s => LoadTestResult.DataSize s <= DataLoadConfig.MaxDataSize config
                      /\ LoadTestResult.UserCount s = 0
                      /\ LoadTestResult.StepNumber s = 0)
       (runner.RunDataLoadTest Run r config w).1.1
  /\ ((runner.RunDataLoadTest Run r config w).1.1 = [] <->
      DataLoadConfig.StepsCount config <= 0
      \/ DataLoadConfig.MaxDataSize config < DataLoadConfig.InitialDataSize config)
  /\ (forall s, head (runner.RunDataLoadTest Run r config w).1.1 = Some s ->
                LoadTestResult.DataSize s = DataLoadConfig.InitialDataSize config).
Proof.
  unfold runner.RunDataLoadTest.
  destruct (dataLoadLoop_steps Run config
              (Z.to_nat (DataLoadConfig.StepsCount config)) 0
              (DataLoadConfig.InitialDataSize config) r w [])
    as (new & Hres & Hlen & Hall & Hnil & Hhd & Ht & Hw & Hr).
  rewrite Hres. cbn [app].
  split; [apply Runner_eta; assumption|].
  split; [exact Hlen|]. split; [exact Hall|]. split; [|exact Hhd].
  rewrite Hnil. split; [intros [H|[H|H]] | intros [H|H]]; auto; left; lia.
Qed.

(** X3.  A user ramp with a step of zero panics before any step is run
    (the division in [totalSteps]), whatever the other settings.  With a
    step that is not zero and a start above the maximum, the ramp returns
    at once: no step is run and the world is left as it was. *)
Theorem RunUserLoadTest_edges {World : Type}
    (userStep : Runner.t -> Z -> Z -> World -> option (list Result.t * World))
    (r : Runner.t) (config : UserLoadConfig.t) (w : World) (fuel : nat) :
  (UserLoadConfig.StepUsers config = 0 ->
   runner.RunUserLoadTest userStep fuel r config w = runner.Panicked)
  /\ (UserLoadConfig.StepUsers config <> 0 ->
      UserLoadConfig.MaxUsers config < UserLoadConfig.StartUsers config ->
      runner.RunUserLoadTest userStep (S fuel) r config w = runner.Returned ([], w)).
Proof.
  unfold runner.RunUserLoadTest, runner.totalSteps, goint.div. split.
  - intros ->. reflexivity.
  - intros Hs Hm. destruct (Z.eqb_spec (UserLoadConfig.StepUsers config) 0) as [He|He];
      [contradiction|].
    cbn [mbind option_bind runner.userLoadLoop].
    destruct (Z.leb_spec (UserLoadConfig.StartUsers config)
                (UserLoadConfig.MaxUsers config)); [lia | reflexivity].
Qed.

(** ** More on the worker pool *)

Lemma fire_no_worker (a : pool.action) (s s' : pool.state) :
  pool.workers s = [] -> pool.fire a s = Some s' ->
  pool.workers s' = [] /\ pool.results s' = pool.results s
  /\ pool.pending s' = pool.pending s.
Proof.
  intros Hw Hf. destruct s as [p tc ws rc rs rt]; cbn in Hw; subst ws.
  destruct a; cbn in Hf; rewrite ?lookup_nil in Hf;
    repeat match type of Hf with
           | context [match ?x with _ => _ end] => destruct x; cbn in Hf
           end;
    try discriminate; injection Hf as <-; cbn; auto.
Qed.

Lemma run_no_worker (schedule : list pool.action) :
  forall s s', pool.workers s = [] -> pool.run schedule s = Some s' ->
    pool.workers s' = [] /\ pool.results s' = pool.results s
    /\ pool.pending s' = pool.pending s.
Proof.
  induction schedule as [|a rest IH]; intros s s' Hw Hr; cbn in Hr.
  - injection Hr as <-. auto.
  - destruct (pool.fire a s) as [s1|] eqn:Hf; [|discriminate]. cbn in Hr.
    destruct (fire_no_worker _ _ _ Hw Hf) as (Hw1 & Hr1 & Hp1).
    destruct (IH _ _ Hw1 Hr) as (? & ? & ?). repeat split; congruence.
Qed.

(** X4.  With a worker count of zero or less, [Run] can return at once
    (the wait group has nothing to wait for), and whatever the schedule no
    result is ever collected and no task ever leaves the producer: the
    caller gets an empty slice although requests were asked for. *)
Theorem pool_without_workers (r : Runner.t) :
  Runner.workerCount r <= 0 ->
  (exists s, pool.run [pool.CloseResults; pool.Return] (pool.init r) = Some s
             /\ pool.returned s = true)
  /\ forall schedule s,
       pool.run schedule (pool.init r) = Some s ->
       pool.results s = []
       /\ pool.pending s = pool.enqueue (Runner.tasks r) (Runner.requestCount r).
Proof.
  intros Hw.
  assert (Hnil : pool.workers (pool.init r) = []).
  { cbn. replace (Z.to_nat (Runner.workerCount r)) with 0%nat by lia. reflexivity. }
  split.
  - unfold pool.init in *. cbn in Hnil. cbn. rewrite Hnil. cbn. eauto.
  - intros schedule s Hr.
    destruct (run_no_worker _ _ _ Hnil Hr) as (_ & -> & ->). auto.
Qed.

Lemma pool_without_workers_witness :
  exists s,
    pool.run [pool.CloseResults; pool.Return]
      (pool.init (Runner.mk (Runner.tasks sampleRunner) 0 2)) = Some s
    /\ pool.returned s = true /\ pool.results s = []
    /\ length (pool.pending s) = 4%nat.
Proof.
  destruct (pool_without_workers (Runner.mk (Runner.tasks sampleRunner) 0 2))
    as [(s & Hr & Hret) Hall]; [cbn; lia|].
  exists s. destruct (Hall _ _ Hr) as [Hres Hpen].
  rewrite Hpen. repeat split; auto.
Defined.

(** X5.  At every moment of every run of the pool, the results collected
    so far are, by endpoint, a sub-multiset of the tasks queued: there are
    never more than [len(tasks) * requestCount] of them, and each carries
    the URL and the method of one of the runner's tasks. *)
Theorem pool_results_within_queue (r : Runner.t) (schedule : list pool.action)
    (s : pool.state) :
  pool.run schedule (pool.init r) = Some s ->
  pool.resultKey <$> pool.results s
    ⊆+ pool.taskKey <$> pool.enqueue (Runner.tasks r) (Runner.requestCount r)
  /\ (length (pool.results s)
      <= length (Runner.tasks r) * Z.to_nat (Runner.requestCount r))%nat
  /\ forall result, result ∈ pool.results s ->
       exists task, task ∈ Runner.tasks r
                    /\ Result.URL result = Task.URL task
                    /\ Result.Method result = Task.Method task.
Proof.
  intros Hr.
  destruct (run_inv r schedule _ _ (init_inv r) Hr) as (Hacc & _).
  assert (Hsub : pool.resultKey <$> pool.results s
             ⊆+ pool.taskKey <$> pool.enqueue (Runner.tasks r) (Runner.requestCount r)).
  { rewrite <- Hacc. unfold accounted. apply submseteq_inserts_r. reflexivity. }
  split; [exact Hsub|]. split.
  - apply submseteq_length in Hsub. rewrite !length_fmap, enqueue_length in Hsub.
    exact Hsub.
  - intros result Hin.
    assert (Hk : pool.resultKey result
                 ∈ pool.taskKey <$> pool.enqueue (Runner.tasks r) (Runner.requestCount r)).
    { eapply elem_of_submseteq; [|exact Hsub]. apply list_elem_of_fmap. eauto. }
    apply list_elem_of_fmap in Hk as (task & Hk & Hin').
    unfold pool.enqueue in Hin'. apply list_elem_of_In, in_flat_map in Hin'.
    destruct Hin' as (task' & Hin' & Hrep).
    apply list_elem_of_In, elem_of_replicate in Hrep as [-> _].
    exists task'. split; [apply list_elem_of_In; exact Hin'|].
    unfold pool.resultKey, pool.taskKey in Hk. injection Hk as -> ->. auto.
Qed.

Lemma pool_results_within_queue_witness :
  exists s,
    pool.run (take 7 sampleSchedule) (pool.init sampleRunner) = Some s
    /\ (length (pool.results s) <= 4)%nat.
Proof.
  eexists. split; [reflexivity|].
  apply (pool_results_within_queue sampleRunner (take 7 sampleSchedule)).
  reflexivity.
Defined.

Lemma fire_single_worker (a : pool.action) (s s' : pool.state) :
  length (pool.workers s) = 1%nat -> pool.fire a s = Some s' ->
  length (pool.workers s') = 1%nat /\ accounted s' = accounted s.
Proof.
  intros Hw Hf. destruct s as [p tc ws rc rs rt]. cbn in Hw.
  destruct ws as [|w [|? ?]]; try discriminate. clear Hw.
  unfold accounted.
  destruct a as [i| |i resp|i|i| |]; try destruct i as [|[|i]]; cbn in Hf;
    repeat match type of Hf with
           | context [match ?x with _ => _ end] => destruct x; cbn in Hf
           end;
    try discriminate; injection Hf as <-; cbn; auto.
  all: split; [reflexivity|].
  - match goal with |- context [pool.resultOf _ ?x] => destruct x end; reflexivity.
  - rewrite fmap_app, <- app_assoc. reflexivity.
Qed.

Lemma run_single_worker (schedule : list pool.action) :
  forall s s', length (pool.workers s) = 1%nat -> pool.run schedule s = Some s' ->
    accounted s' = accounted s.
Proof.
  induction schedule as [|a rest IH]; intros s s' Hw Hr; cbn in Hr.
  - injection Hr as <-. reflexivity.
  - destruct (pool.fire a s) as [s1|] eqn:Hf; [|discriminate]. cbn in Hr.
    destruct (fire_single_worker _ _ _ Hw Hf) as [Hw1 <-]. eauto.
Qed.

(** X6.  With a single worker, the results are collected in the order the
    producer queued the tasks: at any moment they are a prefix of the
    queue, and they are the whole queue once [Run] has returned. *)
Theorem pool_single_worker_in_order (r : Runner.t) (schedule : list pool.action)
    (s : pool.state) :
  Runner.workerCount r = 1 ->
  pool.run schedule (pool.init r) = Some s ->
  pool.resultKey <$> pool.results s
    `prefix_of` pool.taskKey <$> pool.enqueue (Runner.tasks r) (Runner.requestCount r)
  /\ (pool.returned s = true ->
      pool.resultKey <$> pool.results s
      = pool.taskKey <$> pool.enqueue (Runner.tasks r) (Runner.requestCount r)).
Proof.
  intros Hw Hr.
  assert (Hone : length (pool.workers (pool.init r)) = 1%nat).
  { cbn. rewrite Hw. reflexivity. }
  pose proof (run_single_worker _ _ _ Hone Hr) as Hacc.
  assert (Hinit : accounted (pool.init r)
            = pool.taskKey <$> pool.enqueue (Runner.tasks r) (Runner.requestCount r)).
  { unfold accounted. cbn. rewrite replicate_receiving_inflight. reflexivity. }
  rewrite Hinit in Hacc. rewrite <- Hacc. split.
  - unfold accounted. eexists. reflexivity.
  - intros Hret.
    destruct (run_inv r schedule _ _ (init_inv r) Hr)
      as (_ & Hclosed & Hfin & Hrc & Hrt & Hlen).
    pose proof (Hrc (Hrt Hret)) as Hall.
    unfold accounted. rewrite (forallb_isFinished_inflight _ Hall).
    destruct (pool.workers s) as [|w ws] eqn:Hws.
    + cbn in Hlen. lia.
    + assert (w = pool.Finished) as ->.
      { eapply (forallb_isFinished_lookup _ 0%nat); [exact Hall | reflexivity]. }
      rewrite (Hclosed (Hfin 0%nat eq_refl)). cbn. rewrite app_nil_r. reflexivity.
Qed.

Lemma pool_single_worker_in_order_witness :
  exists s,
    pool.run [pool.Dispatch 0; pool.Request 0 (pool.Responded 200 5); pool.Deliver 0;
              pool.Dispatch 0; pool.Request 0 (pool.Failed 3 "refused"); pool.Deliver 0;
              pool.CloseTasks; pool.Exit 0; pool.CloseResults; pool.Return]
      (pool.init (Runner.mk (Runner.tasks sampleRunner) 1 1)) = Some s
    /\ pool.resultKey <$> pool.results s = [("GET", "/a"); ("POST", "/b")]%string.
Proof.
  eexists. split; [reflexivity|].
  apply (pool_single_worker_in_order (Runner.mk (Runner.tasks sampleRunner) 1 1)
           [pool.Dispatch 0; pool.Request 0 (pool.Responded 200 5); pool.Deliver 0;
            pool.Dispatch 0; pool.Request 0 (pool.Failed 3 "refused"); pool.Deliver 0;
            pool.CloseTasks; pool.Exit 0; pool.CloseResults; pool.Return]);
    reflexivity.
Defined.

(** ** The first loop of the aggregator, entry by entry *)

Lemma groupOf_snoc (k : string) (results : list Result.t) (r : Result.t) :
  groupOf k (results ++ [r])
  = groupOf k results ++ (if decide (stats.key r = k) then [r] else []).
Proof.
  unfold groupOf. rewrite filter_app. f_equal.
Qed.

Lemma accumulate_lookup_eq (s : Statistics.t) (r : Result.t) :
  Statistics.EndpointStats (stats.accumulate s r) !! stats.key r
  = Some (tally (default (EndpointStatistics.fresh (Result.URL r) (Result.Method r))
                   (Statistics.EndpointStats s !! stats.key r)) r).
Proof.
  unfold stats.accumulate, tally.
  destruct (Statistics.EndpointStats s !! stats.key r) as [e|];
    destruct (Result.Error r); cbn; rewrite lookup_insert_eq; reflexivity.
Qed.

Lemma firstPass_group (results : list Result.t) (k : string) :
  Statistics.EndpointStats (stats.firstPass results) !! k
  = match groupOf k results with
    | [] => None
    | r :: _ =>
        Some (fold_left tally (groupOf k results)
                (EndpointStatistics.fresh (Result.URL r) (Result.Method r)))
    end.
Proof.
  induction results as [|r results IH] using rev_ind.
  - reflexivity.
  - rewrite firstPass_snoc, groupOf_snoc.
    destruct (decide (stats.key r = k)) as [<-|Hne].
    + rewrite accumulate_lookup_eq, IH.
      destruct (groupOf (stats.key r) results) as [|r0 g]; cbn [app default].
      * reflexivity.
      * f_equal. symmetry. apply (fold_left_app tally (r0 :: g) [r]).
    + rewrite accumulate_lookup_ne by exact Hne. rewrite IH, app_nil_r. reflexivity.
Qed.

Lemma wrap64_add_l (a b : Z) : goint.wrap64 (goint.wrap64 a + b) = goint.wrap64 (a + b).
Proof.
  unfold goint.wrap64. f_equal.
  replace ((a + 2 ^ 63) mod 2 ^ 64 - 2 ^ 63 + b + 2 ^ 63)
    with ((a + 2 ^ 63) mod 2 ^ 64 + b) by ring.
  rewrite Zplus_mod_idemp_l. f_equal. ring.
Qed.

Lemma tally_count (f : EndpointStatistics.t -> Z) (P : Result.t -> Prop)
    (Hdec : forall r, Decision (P r)) :
  (forall e r, f (tally e r) = if decide (P r) then goint.add (f e) 1 else f e) ->
  forall (g : list Result.t) (e0 : EndpointStatistics.t),
    0 <= f e0 -> f e0 + goint.len g <= goint.max_int64 ->
    f (fold_left tally g e0) = f e0 + goint.len (filter P g).
Proof.
  intros Hstep g. unfold goint.len.
  induction g as [|r g IH]; intros e0 H0 Hmax.
  - cbn. lia.
  - cbn [fold_left length] in *. rewrite Nat2Z.inj_succ in Hmax.
    rewrite filter_cons.
    assert (Hr : 0 <= f (tally e0 r) <= f e0 + 1
                 /\ f (tally e0 r) = f e0 + (if decide (P r) then 1 else 0)).
    { rewrite Hstep. destruct (decide (P r)); [|lia].
      rewrite add_small; unfold goint.min_int64, goint.max_int64 in *; lia. }
    rewrite IH by lia.
    destruct Hr as [_ ->]. destruct (decide (P r)); cbn [length];
      rewrite ?Nat2Z.inj_succ; lia.
Qed.

Lemma tally_URL (g : list Result.t) (e0 : EndpointStatistics.t) :
  EndpointStatistics.URL (fold_left tally g e0) = EndpointStatistics.URL e0
  /\ EndpointStatistics.Method (fold_left tally g e0) = EndpointStatistics.Method e0.
Proof.
  revert e0. induction g as [|r g IH]; intros e0; [auto|].
  cbn [fold_left]. destruct (IH (tally e0 r)) as [-> ->].
  unfold tally. destruct (Result.Error r); auto.
Qed.

Lemma tally_TotalDuration (g : list Result.t) (e0 : EndpointStatistics.t) :
  goint.wrap64 (EndpointStatistics.TotalDuration (fold_left tally g e0))
  = goint.wrap64 (EndpointStatistics.TotalDuration e0
                  + sumZ (Result.Duration <$> successes g)).
Proof.
  revert e0. induction g as [|r g IH]; intros e0.
  - cbn [fold_left]. f_equal. cbn. symmetry. apply Z.add_0_r.
  - cbn [fold_left]. rewrite IH. unfold successes. rewrite filter_cons.
    unfold tally. destruct (Result.Error r) as [err|] eqn:He.
    + rewrite decide_False by discriminate. reflexivity.
    + rewrite decide_True by reflexivity.
      cbn -[goint.wrap64 goint.add Z.add]. unfold goint.add.
      rewrite wrap64_add_l. f_equal. unfold sumZ. apply eq_sym, Z.add_assoc.
Qed.

Lemma tally_TotalDuration_range (g : list Result.t) (e0 : EndpointStatistics.t) :
  goint.wrap64 (EndpointStatistics.TotalDuration e0) = EndpointStatistics.TotalDuration e0 ->
  goint.wrap64 (EndpointStatistics.TotalDuration (fold_left tally g e0))
  = EndpointStatistics.TotalDuration (fold_left tally g e0).
Proof.
  revert e0. induction g as [|r g IH]; intros e0 H0; [exact H0|].
  cbn [fold_left]. apply IH. unfold tally.
  destruct (Result.Error r); cbn; [exact H0|].
  unfold goint.add. apply wrap64_small, wrap64_range.
Qed.

Lemma tally_Min (g : list Result.t) :
  forall e0 : EndpointStatistics.t,
    EndpointStatistics.MinDuration (fold_left tally g e0)
    <= EndpointStatistics.MinDuration e0
    /\ (forall d, d ∈ Result.Duration <$> successes g ->
                  EndpointStatistics.MinDuration (fold_left tally g e0) <= d)
    /\ (EndpointStatistics.MinDuration (fold_left tally g e0)
        = EndpointStatistics.MinDuration e0
        \/ EndpointStatistics.MinDuration (fold_left tally g e0)
           ∈ Result.Duration <$> successes g).
Proof.
  induction g as [|r g IH]; intros e0.
  - cbn. split; [lia|]. split; [|auto]. intros d Hd. inversion Hd.
  - cbn [fold_left]. destruct (IH (tally e0 r)) as (Hle & Hall & Hin).
    unfold successes in *. rewrite filter_cons.
    unfold tally in *. destruct (Result.Error r) as [err|] eqn:He.
    + rewrite decide_False by discriminate. auto.
    + rewrite decide_True by reflexivity. rewrite fmap_cons.
      cbn [stats.countSuccess EndpointStatistics.MinDuration] in *.
      destruct (Z.ltb_spec (Result.Duration r) (EndpointStatistics.MinDuration e0)).
      * split; [lia|]. split.
        -- intros d [->|Hd]%elem_of_cons; [lia | auto].
        -- destruct Hin as [->|Hin]; right; [left | right; exact Hin].
      * split; [lia|]. split.
        -- intros d [->|Hd]%elem_of_cons; [lia | auto].
        -- destruct Hin as [->|Hin]; [left; reflexivity | right; right; exact Hin].
Qed.

Lemma tally_Max (g : list Result.t) :
  forall e0 : EndpointStatistics.t,
    EndpointStatistics.MaxDuration e0
    <= EndpointStatistics.MaxDuration (fold_left tally g e0)
    /\ (forall d, d ∈ Result.Duration <$> successes g ->
                  d <= EndpointStatistics.MaxDuration (fold_left tally g e0))
    /\ (EndpointStatistics.MaxDuration (fold_left tally g e0)
        = EndpointStatistics.MaxDuration e0
        \/ EndpointStatistics.MaxDuration (fold_left tally g e0)
           ∈ Result.Duration <$> successes g).
Proof.
  induction g as [|r g IH]; intros e0.
  - cbn. split; [lia|]. split; [|auto]. intros d Hd. inversion Hd.
  - cbn [fold_left]. destruct (IH (tally e0 r)) as (Hle & Hall & Hin).
    unfold successes in *. rewrite filter_cons.
    unfold tally in *. destruct (Result.Error r) as [err|] eqn:He.
    + rewrite decide_False by discriminate. auto.
    + rewrite decide_True by reflexivity. rewrite fmap_cons.
      cbn [stats.countSuccess EndpointStatistics.MaxDuration] in *.
      destruct (Z.ltb_spec (EndpointStatistics.MaxDuration e0) (Result.Duration r)).
      * split; [lia|]. split.
        -- intros d [->|Hd]%elem_of_cons; [lia | auto].
        -- destruct Hin as [->|Hin]; right; [left | right; exact Hin].
      * split; [lia|]. split.
        -- intros d [->|Hd]%elem_of_cons; [lia | auto].
        -- destruct Hin as [->|Hin]; [left; reflexivity | right; right; exact Hin].
Qed.

Lemma calculateEndpointStats_codes (e e' : EndpointStatistics.t)
    (results : list Result.t) :
  stats.calculateEndpointStats e results = Some e' ->
  EndpointStatistics.StatusCodes e' = EndpointStatistics.StatusCodes e
  /\ EndpointStatistics.SuccessCodes e' = EndpointStatistics.SuccessCodes e
  /\ EndpointStatistics.ClientErrors e' = EndpointStatistics.ClientErrors e
  /\ EndpointStatistics.ServerErrors e' = EndpointStatistics.ServerErrors e.
Proof.
  unfold stats.calculateEndpointStats, stats.calculatePercentiles. intros H.
  destruct (0 <? _).
  - repeat (match type of H with
            | (?o ≫= _) = Some _ => destruct o; simpl in H; [|discriminate]
            end).
    injection H as <-. repeat split.
  - injection H as <-. repeat split.
Qed.

Lemma Calculate_lookup_None (results : list Result.t) (s : Statistics.t) (k : string) :
  stats.Calculate results = Some s ->
  Statistics.EndpointStats s !! k = None
  <-> Statistics.EndpointStats (stats.firstPass results) !! k = None.
Proof.
  unfold stats.Calculate, stats.secondPass. intros H.
  destruct (decide _) as [Hall|]; [|discriminate]. cbn in H. injection H as <-.
  cbn. rewrite lookup_omap.
  destruct (Statistics.EndpointStats (stats.firstPass results) !! k) as [e|] eqn:He;
    cbn; [|tauto].
  destruct (Hall k e He) as [e' ->]. split; discriminate.
Qed.

Lemma group_entry (results : list Result.t) (s : Statistics.t) (k : string)
    (e' : EndpointStatistics.t) :
  stats.Calculate results = Some s ->
  Statistics.EndpointStats s !! k = Some e' ->
  exists r g e,
    groupOf k results = r :: g
    /\ e = fold_left tally (r :: g)
             (EndpointStatistics.fresh (Result.URL r) (Result.Method r))
    /\ stats.calculateEndpointStats e results = Some e'.
Proof.
  intros Hc Hk. destruct (Calculate_lookup _ _ _ _ Hc Hk) as (e & He & Hcalc).
  rewrite firstPass_group in He.
  destruct (groupOf k results) as [|r g]; [discriminate|].
  injection He as <-. eauto 6.
Qed.

Lemma groupOf_length (k : string) (results : list Result.t) :
  goint.len (groupOf k results) <= goint.len results.
Proof.
  unfold goint.len, groupOf. pose proof (length_filter (fun r => stats.key r = k) results).
  lia.
Qed.

Lemma tally_counters (e : EndpointStatistics.t) (r : Result.t) :
  EndpointStatistics.TotalRequests (tally e r)
  = (if decide True then goint.add (EndpointStatistics.TotalRequests e) 1
     else EndpointStatistics.TotalRequests e)
  /\ EndpointStatistics.SuccessRequests (tally e r)
     = (if decide (Result.Error r = None)
        then goint.add (EndpointStatistics.SuccessRequests e) 1
        else EndpointStatistics.SuccessRequests e)
  /\ EndpointStatistics.FailedRequests (tally e r)
     = (if decide (Result.Error r <> None)
        then goint.add (EndpointStatistics.FailedRequests e) 1
        else EndpointStatistics.FailedRequests e).
Proof.
  unfold tally. destruct (Result.Error r) as [err|]; cbn;
    repeat case_decide; try congruence; try tauto; auto.
Qed.

Lemma filter_always {A : Type} (l : list A) : filter (fun _ : A => True) l = l.
Proof.
  induction l as [|x l IH]; [reflexivity|].
  rewrite filter_cons_True by exact I. f_equal. exact IH.
Qed.

(** X7.  In the statistics [Calculate] returns, the map has an entry for a
    key exactly when some result has that key.  The entry carries the URL
    and the method of the first such result; its total is the number of
    results with the key, its successes and failures are the numbers of
    those without and with an error, and its total duration is the
    (wrapping) sum of the durations of the successful ones. *)
Theorem Calculate_entry_counts (results : list Result.t) (s : Statistics.t)
    (k : string) :
  goint.len results <= goint.max_int64 ->
  stats.Calculate results = Some s ->
  match Statistics.EndpointStats s !! k with
  | None => groupOf k results = []
  | Some e =>
      (exists r, head (groupOf k results) = Some r
                 /\ EndpointStatistics.URL e = Result.URL r
                 /\ EndpointStatistics.Method e = Result.Method r)
      /\ EndpointStatistics.TotalRequests e = goint.len (groupOf k results)
      /\ EndpointStatistics.SuccessRequests e
         = goint.len (successes (groupOf k results))
      /\ EndpointStatistics.FailedRequests e
         = goint.len (filter (fun r => Result.Error r <> None) (groupOf k results))
      /\ EndpointStatistics.TotalDuration e
         = goint.wrap64 (sumZ (Result.Duration <$> successes (groupOf k results)))
  end.
Proof.
  intros Hlen Hc.
  destruct (Statistics.EndpointStats s !! k) as [e'|] eqn:Hk.
  - destruct (group_entry _ _ _ _ Hc Hk) as (r & g & e & Hg & He & Hcalc).
    pose proof (groupOf_length k results) as Hgl. rewrite Hg in *.
    pose proof (calculateEndpointStats_counters _ _ _ Hcalc) as Hsame.
    unfold sameCounters in Hsame.
    destruct Hsame as (-> & -> & -> & -> & -> & -> & _).
    subst e.
    set (e0 := EndpointStatistics.fresh (Result.URL r) (Result.Method r)).
    destruct (tally_URL (r :: g) e0) as [-> ->].
    split; [exists r; auto|].
    pose proof (tally_count EndpointStatistics.TotalRequests (fun _ => True)
                  (fun _ => decide True)) as HT.
    pose proof (tally_count EndpointStatistics.SuccessRequests
                  (fun r => Result.Error r = None)
                  (fun r => decide (Result.Error r = None))) as HS.
    pose proof (tally_count EndpointStatistics.FailedRequests
                  (fun r => Result.Error r <> None)
                  (fun r => decide (Result.Error r <> None))) as HF.
    split; [|split; [|split]].
    + rewrite (HT (fun e r => proj1 (tally_counters e r)));
        [|cbn; lia | cbn [e0 EndpointStatistics.fresh EndpointStatistics.TotalRequests]; lia].
      cbn [e0 EndpointStatistics.fresh EndpointStatistics.TotalRequests].
      rewrite Z.add_0_l. f_equal. apply filter_always.
    + rewrite (HS (fun e r => proj1 (proj2 (tally_counters e r))));
        [|cbn; lia | cbn [e0 EndpointStatistics.fresh EndpointStatistics.SuccessRequests]; lia].
      reflexivity.
    + rewrite (HF (fun e r => proj2 (proj2 (tally_counters e r))));
        [|cbn; lia | cbn [e0 EndpointStatistics.fresh EndpointStatistics.FailedRequests]; lia].
      reflexivity.
    + rewrite <- (tally_TotalDuration_range (r :: g) e0) by reflexivity.
      rewrite tally_TotalDuration. reflexivity.
  - apply (Calculate_lookup_None _ _ k Hc) in Hk. rewrite firstPass_group in Hk.
    destruct (groupOf k results); [reflexivity | discriminate].
Qed.

Lemma Calculate_entry_counts_witness :
  exists s e,
    stats.Calculate mixedResults = Some s
    /\ Statistics.EndpointStats s !! "GET /a"%string = Some e
    /\ EndpointStatistics.TotalRequests e = 1
    /\ EndpointStatistics.SuccessRequests e = 0
    /\ EndpointStatistics.FailedRequests e = 1.
Proof.
  destruct (stats.Calculate mixedResults) as [s|] eqn:Hc;
    [|vm_compute in Hc; discriminate].
  pose proof (Calculate_entry_counts mixedResults s "GET /a"
                ltac:(vm_compute; discriminate) Hc) as H.
  destruct (Statistics.EndpointStats s !! "GET /a"%string) as [e|] eqn:He;
    [|vm_compute in H; discriminate].
  exists s, e. destruct H as (_ & Ht & Hs & Hf & _).
  repeat split; assumption.
Defined.

(** X8.  In an entry of the statistics [Calculate] returns, every
    successful duration of the entry's key lies between [MinDuration] and
    [MaxDuration].  The minimum is the one-hour starting value or one of
    these durations, and never above one hour; the maximum is zero or one
    of these durations, and never negative. *)
Theorem Calculate_entry_extremes (results : list Result.t) (s : Statistics.t)
    (k : string) (e : EndpointStatistics.t) :
  stats.Calculate results = Some s ->
  Statistics.EndpointStats s !! k = Some e ->
  (forall d, d ∈ Result.Duration <$> successes (groupOf k results) ->
             EndpointStatistics.MinDuration e <= d <= EndpointStatistics.MaxDuration e)
  /\ EndpointStatistics.MinDuration e <= time.Hour
  /\ 0 <= EndpointStatistics.MaxDuration e
  /\ (EndpointStatistics.MinDuration e = time.Hour
      \/ EndpointStatistics.MinDuration e
         ∈ Result.Duration <$> successes (groupOf k results))
  /\ (EndpointStatistics.MaxDuration e = 0
      \/ EndpointStatistics.MaxDuration e
         ∈ Result.Duration <$> successes (groupOf k results)).
Proof.
  intros Hc Hk.
  destruct (group_entry _ _ _ _ Hc Hk) as (r & g & e1 & Hg & He & Hcalc).
  pose proof (calculateEndpointStats_counters _ _ _ Hcalc) as Hsame.
  unfold sameCounters in Hsame.
  destruct Hsame as (_ & _ & _ & _ & _ & _ & -> & ->).
  rewrite Hg. subst e1.
  destruct (tally_Min (r :: g)
              (EndpointStatistics.fresh (Result.URL r) (Result.Method r)))
    as (Hle & Hall & Hin).
  destruct (tally_Max (r :: g)
              (EndpointStatistics.fresh (Result.URL r) (Result.Method r)))
    as (Hle' & Hall' & Hin').
  cbn [EndpointStatistics.fresh EndpointStatistics.MinDuration
       EndpointStatistics.MaxDuration] in Hle, Hin, Hle', Hin'.
  repeat split; auto.
Qed.

Lemma Calculate_entry_extremes_witness :
  exists s e,
    stats.Calculate mixedResults = Some s
    /\ Statistics.EndpointStats s !! "GET /b"%string = Some e
    /\ EndpointStatistics.MinDuration e <= 5 <= EndpointStatistics.MaxDuration e.
Proof.
  destruct (stats.Calculate mixedResults) as [s|] eqn:Hc;
    [|vm_compute in Hc; discriminate].
  destruct (Statistics.EndpointStats s !! "GET /b"%string) as [e|] eqn:He;
    [|vm_compute in Hc; injection Hc as <-; vm_compute in He; discriminate].
  exists s, e. split; [reflexivity|]. split; [exact He|].
  apply (Calculate_entry_extremes mixedResults s "GET /b" e Hc He).
  vm_compute. left.
Defined.

Lemma tally_classes (e : EndpointStatistics.t) (r : Result.t) :
  EndpointStatistics.SuccessCodes (tally e r)
  = (if decide (200 <= Result.StatusCode r < 300 /\ Result.Error r = None)
     then goint.add (EndpointStatistics.SuccessCodes e) 1
     else EndpointStatistics.SuccessCodes e)
  /\ EndpointStatistics.ClientErrors (tally e r)
     = (if decide (400 <= Result.StatusCode r < 500 /\ Result.Error r = None)
        then goint.add (EndpointStatistics.ClientErrors e) 1
        else EndpointStatistics.ClientErrors e)
  /\ EndpointStatistics.ServerErrors (tally e r)
     = (if decide (500 <= Result.StatusCode r /\ Result.Error r = None)
        then goint.add (EndpointStatistics.ServerErrors e) 1
        else EndpointStatistics.ServerErrors e).
Proof.
  unfold tally. destruct (Result.Error r) as [err|]; cbn.
  - repeat case_decide; try tauto; destruct_and?; discriminate.
  - destruct (Z.leb_spec 200 (Result.StatusCode r));
      destruct (Z.ltb_spec (Result.StatusCode r) 300);
      destruct (Z.leb_spec 400 (Result.StatusCode r));
      destruct (Z.ltb_spec (Result.StatusCode r) 500);
      destruct (Z.leb_spec 500 (Result.StatusCode r));
      cbn; repeat case_decide; try tauto; try lia; exfalso; intuition lia.
Qed.

Lemma tally_histogram (c : Z) (e : EndpointStatistics.t) (r : Result.t) :
  EndpointStatistics.StatusCodes (tally e r) !! c
  = if decide (Result.StatusCode r = c /\ Result.Error r = None)
    then Some (goint.add (default 0 (EndpointStatistics.StatusCodes e !! c)) 1)
    else EndpointStatistics.StatusCodes e !! c.
Proof.
  unfold tally. destruct (Result.Error r) as [err|]; cbn.
  - rewrite decide_False; [reflexivity | intros [_ H]; discriminate].
  - unfold stats.bump. case_decide as H.
    + destruct H as [-> _]. apply lookup_insert_eq.
    + apply lookup_insert_ne. tauto.
Qed.

Lemma tally_histogram_None (c : Z) (g : list Result.t) :
  forall e0 : EndpointStatistics.t,
    EndpointStatistics.StatusCodes (fold_left tally g e0) !! c = None
    <-> EndpointStatistics.StatusCodes e0 !! c = None
        /\ filter (fun r => Result.StatusCode r = c /\ Result.Error r = None) g = [].
Proof.
  induction g as [|r g IH]; intros e0.
  - cbn. tauto.
  - cbn [fold_left]. rewrite IH, tally_histogram, filter_cons.
    case_decide; [|tauto]. split; intros [? ?]; discriminate.
Qed.

Lemma tally_histogram_count (c : Z) (e : EndpointStatistics.t) (r : Result.t) :
  default 0 (EndpointStatistics.StatusCodes (tally e r) !! c)
  = if decide (Result.StatusCode r = c /\ Result.Error r = None)
    then goint.add (default 0 (EndpointStatistics.StatusCodes e !! c)) 1
    else default 0 (EndpointStatistics.StatusCodes e !! c).
Proof. rewrite tally_histogram. case_decide; reflexivity. Qed.

Lemma class_counts (l : list Result.t) :
  goint.len (filter (fun r => 200 <= Result.StatusCode r < 300) l)
  + goint.len (filter (fun r => 400 <= Result.StatusCode r < 500) l)
  + goint.len (filter (fun r => 500 <= Result.StatusCode r) l)
  <= goint.len l.
Proof.
  unfold goint.len. induction l as [|r l IH]; [cbn; lia|].
  rewrite !filter_cons. repeat case_decide; cbn [length]; lia.
Qed.

Lemma entry_SuccessRequests (results : list Result.t) (s : Statistics.t)
    (k : string) (e : EndpointStatistics.t) :
  goint.len results <= goint.max_int64 ->
  stats.Calculate results = Some s ->
  Statistics.EndpointStats s !! k = Some e ->
  EndpointStatistics.SuccessRequests e = goint.len (successes (groupOf k results)).
Proof.
  intros Hlen Hc Hk.
  destruct (group_entry _ _ _ _ Hc Hk) as (r & g & e1 & Hg & He & Hcalc).
  pose proof (groupOf_length k results) as Hgl. rewrite Hg in *.
  pose proof (calculateEndpointStats_counters _ _ _ Hcalc) as Hsame.
  unfold sameCounters in Hsame.
  destruct Hsame as (_ & _ & _ & -> & _). subst e1.
  pose proof (tally_count EndpointStatistics.SuccessRequests
                (fun r => Result.Error r = None)
                (fun r => decide (Result.Error r = None))) as HS.
  rewrite (HS (fun e r => proj1 (proj2 (tally_counters e r))));
    [|cbn; lia | cbn [EndpointStatistics.fresh EndpointStatistics.SuccessRequests]; lia].
  reflexivity.
Qed.

(** X9.  In an entry of the statistics [Calculate] returns,
    [SuccessCodes], [ClientErrors] and [ServerErrors] are the numbers of
    successful results of the key with a status in 200..299, in 400..499
    and of 500 or more.  [StatusCodes] maps a status to the number of
    successful results that carry it, and has a key only for a status that
    occurs.  The three classes together never exceed [SuccessRequests]. *)
Theorem Calculate_entry_status_codes (results : list Result.t) (s : Statistics.t)
    (k : string) (e : EndpointStatistics.t) :
  goint.len results <= goint.max_int64 ->
  stats.Calculate results = Some s ->
  Statistics.EndpointStats s !! k = Some e ->
  EndpointStatistics.SuccessCodes e
  = goint.len (filter (fun r => 200 <= Result.StatusCode r < 300)
                 (successes (groupOf k results)))
  /\ EndpointStatistics.ClientErrors e
     = goint.len (filter (fun r => 400 <= Result.StatusCode r < 500)
                    (successes (groupOf k results)))
  /\ EndpointStatistics.ServerErrors e
     = goint.len (filter (fun r => 500 <= Result.StatusCode r)
                    (successes (groupOf k results)))
  /\ (forall c n,
        EndpointStatistics.StatusCodes e !! c = Some n
        <-> 0 < n
            /\ n = goint.len (filter (fun r => Result.StatusCode r = c)
                                (successes (groupOf k results))))
  /\ EndpointStatistics.SuccessCodes e + EndpointStatistics.ClientErrors e
     + EndpointStatistics.ServerErrors e <= EndpointStatistics.SuccessRequests e.
Proof.
  intros Hlen Hc Hk.
  enough (Hmain : EndpointStatistics.SuccessCodes e
            = goint.len (filter (fun r => 200 <= Result.StatusCode r < 300)
                           (successes (groupOf k results)))
            /\ EndpointStatistics.ClientErrors e
               = goint.len (filter (fun r => 400 <= Result.StatusCode r < 500)
                              (successes (groupOf k results)))
            /\ EndpointStatistics.ServerErrors e
               = goint.len (filter (fun r => 500 <= Result.StatusCode r)
                              (successes (groupOf k results)))
            /\ (forall c n,
                  EndpointStatistics.StatusCodes e !! c = Some n
                  <-> 0 < n
                      /\ n = goint.len (filter (fun r => Result.StatusCode r = c)
                                          (successes (groupOf k results))))).
  { destruct Hmain as (HA & HB & HC & HD). repeat (split; [assumption|]).
    rewrite (entry_SuccessRequests results s k e Hlen Hc Hk).
    rewrite HA, HB, HC. apply class_counts. }
  destruct (group_entry _ _ _ _ Hc Hk) as (r & g & e1 & Hg & He & Hcalc).
  pose proof (groupOf_length k results) as Hgl. rewrite Hg in *.
  destruct (calculateEndpointStats_codes _ _ _ Hcalc) as (Hh & Hs & Hcl & Hsv).
  subst e1.
  set (e0 := EndpointStatistics.fresh (Result.URL r) (Result.Method r)) in *.
  pose proof (tally_count EndpointStatistics.SuccessCodes
                (fun r => 200 <= Result.StatusCode r < 300 /\ Result.Error r = None)
                (fun r => decide _)) as H2.
  pose proof (tally_count EndpointStatistics.ClientErrors
                (fun r => 400 <= Result.StatusCode r < 500 /\ Result.Error r = None)
                (fun r => decide _)) as H4.
  pose proof (tally_count EndpointStatistics.ServerErrors
                (fun r => 500 <= Result.StatusCode r /\ Result.Error r = None)
                (fun r => decide _)) as H5.
  specialize (H2 (fun e r => proj1 (tally_classes e r)) (r :: g) e0).
  specialize (H4 (fun e r => proj1 (proj2 (tally_classes e r))) (r :: g) e0).
  specialize (H5 (fun e r => proj2 (proj2 (tally_classes e r))) (r :: g) e0).
  cbn [e0 EndpointStatistics.fresh EndpointStatistics.SuccessCodes
       EndpointStatistics.ClientErrors EndpointStatistics.ServerErrors] in H2, H4, H5.
  unfold successes. rewrite !list_filter_filter.
  rewrite Hs, Hcl, Hsv, H2, H4, H5 by lia. rewrite !Z.add_0_l.
  split; [reflexivity|]. split; [reflexivity|]. split; [reflexivity|].
  intros c n. rewrite Hh, list_filter_filter.
  pose proof (tally_count (fun e => default 0 (EndpointStatistics.StatusCodes e !! c))
                (fun r => Result.StatusCode r = c /\ Result.Error r = None)
                (fun r => decide _)) as Hn.
  specialize (Hn (tally_histogram_count c) (r :: g) e0).
  cbn [e0 EndpointStatistics.fresh EndpointStatistics.StatusCodes] in Hn.
  rewrite lookup_empty in Hn. cbn [default from_option id] in Hn.
  specialize (Hn ltac:(lia) ltac:(lia)). rewrite Z.add_0_l in Hn.
  pose proof (tally_histogram_None c (r :: g) e0) as Hnone.
  cbn [e0 EndpointStatistics.fresh EndpointStatistics.StatusCodes] in Hnone.
  fold e0 in Hnone.
  destruct (EndpointStatistics.StatusCodes (fold_left tally (r :: g) e0) !! c)
    as [v|] eqn:Hv; cbn [default from_option id] in Hn.
  - assert (Hpos : 0 < v).
    { rewrite Hn. unfold goint.len.
      destruct (filter (fun r => Result.StatusCode r = c /\ Result.Error r = None)
                  (r :: g)) as [|r1 g1] eqn:Hf.
      - assert (Some v = None) by (apply Hnone; split; [apply lookup_empty | reflexivity]).
        discriminate.
      - cbn [length]. lia. }
    split; [intros [= <-]; split; [exact Hpos | exact Hn] | intros [_ ->]; f_equal; exact Hn].
  - split; [discriminate|]. intros [Hpos Hn'].
    assert (n = 0) by (etransitivity; [exact Hn' | symmetry; exact Hn]). lia.
Qed.

Lemma Calculate_entry_status_codes_witness :
  exists s e,
    stats.Calculate mixedResults = Some s
    /\ Statistics.EndpointStats s !! "GET /b"%string = Some e
    /\ EndpointStatistics.SuccessCodes e = 1
    /\ EndpointStatistics.StatusCodes e !! 200 = Some 1.
Proof.
  destruct (stats.Calculate mixedResults) as [s|] eqn:Hc;
    [|vm_compute in Hc; discriminate].
  destruct (Statistics.EndpointStats s !! "GET /b"%string) as [e|] eqn:He;
    [|vm_compute in Hc; injection Hc as <-; vm_compute in He; discriminate].
  exists s, e. split; [reflexivity|]. split; [exact He|].
  destruct (Calculate_entry_status_codes mixedResults s "GET /b" e
              ltac:(vm_compute; discriminate) Hc He) as (H2 & _ & _ & Hh & _).
  split; [exact H2|]. apply Hh. vm_compute. split; reflexivity.
Defined.

(** ** The order of the percentiles *)

(** Rounding a product to 53 bits, from both sides: the result is within
    one unit of its last place of the exact product. *)
Lemma binary_round_aux_enclosed (P : positive) (E : Z) :
  54 <= Z.pos (digits2_pos P) ->
  SpecFloat.emin prec emax <= Z.pos (digits2_pos P) + E - 53 <= 970 ->
  exists m3 e3,
    binary_round_aux prec emax false (Z.pos P) E loc_Exact = S754_finite false m3 e3
    /\ E <= e3
    /\ Z.pos P - 2 ^ (Z.pos (digits2_pos P) - 53) < Z.pos m3 * 2 ^ (e3 - E)
       <= Z.pos P + 2 ^ (Z.pos (digits2_pos P) - 53).
Proof.
  intros HdP [Hlo Hhi].
  pose proof (digits2_pos_bounds P) as [HP1 HP2].
  set (dP := Z.pos (digits2_pos P)) in *.
  assert (Hshift1 : SpecFloat.fexp prec emax (dP + E) - E = dP - 53).
  { rewrite fexp_normal; unfold prec in *; lia. }
  unfold binary_round_aux, shr_fexp. cbn [Zdigits2 shr_record_of_loc].
  fold dP. rewrite Hshift1.
  destruct (dP - 53) as [|n1|n1] eqn:Hn1; try lia.
  cbn [shr].
  set (mrs1 := SpecFloat.iter_pos shr_1 n1
                 {| shr_m := Z.pos P; shr_r := false; shr_s := false |}).
  assert (Hm1 : shr_m mrs1 = Z.pos P / 2 ^ Z.pos n1).
  { unfold mrs1. rewrite iter_pos_shr_m; cbn [shr_m]; [reflexivity | lia]. }
  assert (Hpow : 2 ^ Z.pos n1 * 2 ^ 52 = 2 ^ (dP - 1)).
  { rewrite <- Z.pow_add_r by lia. f_equal. lia. }
  assert (Hpow' : 2 ^ Z.pos n1 * 2 ^ 53 = 2 ^ dP).
  { rewrite <- Z.pow_add_r by lia. f_equal. lia. }
  assert (Hpos : 0 < 2 ^ Z.pos n1) by (apply Z.pow_pos_nonneg; lia).
  assert (Hm1lo : 2 ^ 52 <= shr_m mrs1).
  { rewrite Hm1. apply Z.div_le_lower_bound; [lia|]. rewrite Hpow. exact HP1. }
  assert (Hm1hi : shr_m mrs1 < 2 ^ 53).
  { rewrite Hm1. apply Z.div_lt_upper_bound; [lia|]. rewrite Hpow'. exact HP2. }
  assert (Hm1mul : shr_m mrs1 * 2 ^ Z.pos n1 <= Z.pos P).
  { rewrite Hm1, Z.mul_comm. apply Z.mul_div_le. lia. }
  assert (Hm1mul' : Z.pos P < (shr_m mrs1 + 1) * 2 ^ Z.pos n1).
  { rewrite Hm1, Z.mul_comm. apply (Z.mul_succ_div_gt (Z.pos P) (2 ^ Z.pos n1)). lia. }
  pose proof (round_nearest_even_bounds (shr_m mrs1) (loc_of_shr_record mrs1))
    as [Hr1 Hr2].
  set (m2 := round_nearest_even (shr_m mrs1) (loc_of_shr_record mrs1)) in *.
  assert (Hm2mul : Z.pos P - 2 ^ Z.pos n1 < m2 * 2 ^ Z.pos n1 <= Z.pos P + 2 ^ Z.pos n1)
    by nia.
  destruct m2 as [|q2|q2] eqn:Hq2; try lia.
  cbn [Zdigits2 shr_record_of_loc].
  destruct (Z_lt_le_dec (Z.pos q2) (2 ^ 53)) as [Hlt|Hge].
  - assert (Hd2 : Z.pos (digits2_pos q2) = 53).
    { apply digits2_pos_unique. split; [change (53 - 1) with 52|]; lia. }
    assert (Hshift2 : SpecFloat.fexp prec emax (Z.pos (digits2_pos q2) + (E + Z.pos n1))
                      - (E + Z.pos n1) = 0).
    { rewrite Hd2, fexp_normal; unfold prec in *; lia. }
    rewrite Hshift2. cbn [shr shr_m].
    replace (E + Z.pos n1 <=? emax - prec) with true
      by (symmetry; apply Z.leb_le; unfold emax, prec; lia).
    exists q2, (E + Z.pos n1). split; [reflexivity|]. split; [lia|].
    replace (E + Z.pos n1 - E) with (Z.pos n1) by lia. exact Hm2mul.
  - assert (Hq : q2 = 9007199254740992%positive).
    { change (2 ^ 53) with 9007199254740992 in *. lia. }
    subst q2.
    assert (Hshift2 : SpecFloat.fexp prec emax
                        (Z.pos (digits2_pos 9007199254740992) + (E + Z.pos n1))
                      - (E + Z.pos n1) = 1).
    { change (Z.pos (digits2_pos 9007199254740992)) with 54.
      rewrite fexp_normal; unfold prec in *; lia. }
    rewrite Hshift2. cbn [shr SpecFloat.iter_pos shr_1 shr_m].
    replace (E + Z.pos n1 + 1 <=? emax - prec) with true
      by (symmetry; apply Z.leb_le; unfold emax, prec; lia).
    exists 4503599627370496%positive, (E + Z.pos n1 + 1).
    split; [reflexivity|]. split; [lia|].
    replace (E + Z.pos n1 + 1 - E) with (Z.pos n1 + 1) by lia.
    rewrite Z.pow_add_r by lia. change (2 ^ 1) with 2.
    change (Z.pos 4503599627370496) with (2 ^ 52).
    change (Z.pos 9007199254740992) with (2 ^ 53) in Hm2mul.
    change (2 ^ 53) with (2 ^ 52 * 2) in Hm2mul. lia.
Qed.

(** [int(f)] for a finite [f >= 0] below [2^53]: the floor of its value. *)
Lemma to_int_floor (f : float) (m : positive) (e E : Z) :
  Prim2SF f = S754_finite false m e ->
  E <= 0 -> E <= e ->
  Z.pos m * 2 ^ (e - E) < 2 ^ 53 * 2 ^ (- E) ->
  gofloat.to_int f = (Z.pos m * 2 ^ (e - E)) / 2 ^ (- E).
Proof.
  intros Hf HE He Hlt.
  assert (HpE : 0 < 2 ^ (- E)) by (apply Z.pow_pos_nonneg; lia).
  assert (Hbelow : 0 <= Z.pos m * 2 ^ (e - E) / 2 ^ (- E) < 2 ^ 53).
  { split; [apply Z.div_pos; [|lia]; apply Z.mul_nonneg_nonneg;
            [lia | apply Z.pow_nonneg; lia]|].
    apply Z.div_lt_upper_bound; lia. }
  assert (Hval : (if 0 <=? e then Z.pos m * 2 ^ e else Z.quot (Z.pos m) (2 ^ (- e)))
                 = Z.pos m * 2 ^ (e - E) / 2 ^ (- E)).
  { destruct (0 <=? e) eqn:He0.
    - apply Z.leb_le in He0.
      replace (e - E) with (e + - E) by lia.
      rewrite Z.pow_add_r, Z.mul_assoc by lia.
      rewrite Z.div_mul by lia. reflexivity.
    - apply Z.leb_gt in He0.
      assert (Hp : 0 < 2 ^ (- e)) by (apply Z.pow_pos_nonneg; lia).
      rewrite Z.quot_div_nonneg by lia.
      replace (- E) with (- e + (e - E)) by lia.
      rewrite Z.pow_add_r by lia.
      rewrite Z.div_mul_cancel_r; [reflexivity | lia |].
      assert (0 < 2 ^ (e - E)) by (apply Z.pow_pos_nonneg; lia). lia. }
  unfold gofloat.to_int. rewrite Hf. cbv zeta. rewrite Hval.
  replace (goint.min_int64 <=? _) with true
    by (symmetry; apply Z.leb_le; unfold goint.min_int64; lia).
  replace (_ <=? goint.max_int64) with true
    by (symmetry; apply Z.leb_le; unfold goint.max_int64;
        change (2 ^ 53) with 9007199254740992 in Hbelow; lia).
  reflexivity.
Qed.

(** The index [int(float64(l) * c)] as a quotient: the rounded product,
    scaled to an integer [N] within [2^53] of [mx * mc], over the scale. *)
Lemma floatIndex_floor (c : float) (mc mx : positive) (ex l : Z) :
  Prim2SF (gofloat.of_int l) = S754_finite false mx ex ->
  Z.pos (digits2_pos mx) = 53 -> -52 <= ex <= 0 -> Z.pos mx = l * 2 ^ (- ex) ->
  Prim2SF c = S754_finite false mc (-53) ->
  2 ^ 52 <= Z.pos mc <= 2 ^ 53 - 3 ->
  1 <= l < 2 ^ 53 ->
  exists N,
    stats.floatIndex c l = N / 2 ^ (53 - ex)
    /\ Z.pos mx * Z.pos mc - 2 ^ 53 < N <= Z.pos mx * Z.pos mc + 2 ^ 53.
Proof.
  intros Hx Hd Hex Hmx Hc [Hc1 Hc2] Hl.
  pose proof (digits2_pos_bounds mx) as [Hx1 Hx2]. rewrite Hd in Hx1, Hx2.
  change (53 - 1) with 52 in Hx1.
  unfold stats.floatIndex.
  assert (Hmul : Prim2SF (gofloat.of_int l * c)
                 = binary_round_aux prec emax false (Z.pos (mx * mc)) (ex + -53) loc_Exact).
  { rewrite FloatAxioms.mul_spec, Hx, Hc. reflexivity. }
  pose proof (digits2_pos_bounds (mx * mc)) as [HP1 HP2].
  set (dP := Z.pos (digits2_pos (mx * mc))) in *.
  rewrite Pos2Z.inj_mul in HP1, HP2.
  assert (HPlo : 2 ^ 104 <= Z.pos mx * Z.pos mc).
  { change (2 ^ 104) with (2 ^ 52 * 2 ^ 52). apply Z.mul_le_mono_nonneg; lia. }
  assert (HPhi : Z.pos mx * Z.pos mc < 2 ^ 106).
  { change (2 ^ 106) with (2 ^ 53 * 2 ^ 53). apply Z.mul_lt_mono_nonneg; lia. }
  assert (HdP : 105 <= dP <= 106).
  { split.
    - destruct (Z_le_gt_dec 105 dP) as [?|Hgt]; [assumption|].
      assert (2 ^ dP <= 2 ^ 104) by (apply Z.pow_le_mono_r; lia). lia.
    - destruct (Z_le_gt_dec dP 106) as [?|Hgt]; [assumption|].
      assert (2 ^ 106 <= 2 ^ (dP - 1)) by (apply Z.pow_le_mono_r; lia). lia. }
  destruct (binary_round_aux_enclosed (mx * mc) (ex + -53))
    as (m3 & e3 & Hr & He3 & Hlow & Hup).
  { fold dP. lia. }
  { fold dP. unfold SpecFloat.emin, prec, emax. lia. }
  fold dP in Hlow, Hup. rewrite Pos2Z.inj_mul in Hlow, Hup.
  assert (Hulp : 2 ^ (dP - 53) <= 2 ^ 53) by (apply Z.pow_le_mono_r; lia).
  exists (Z.pos m3 * 2 ^ (e3 - (ex + -53))). split; [|lia].
  replace (53 - ex) with (- (ex + -53)) by lia.
  apply to_int_floor; [now rewrite Hmul | lia | lia |].
  replace (- (ex + -53)) with (- ex + 53) by lia.
  rewrite Z.pow_add_r by lia.
  assert (Hpe : 1 <= 2 ^ (- ex)) by (apply (Z.pow_le_mono_r 2 0); lia).
  change (2 ^ 53) with 9007199254740992 in *.
  change (2 ^ 52) with 4503599627370496 in *.
  nia.
Qed.

(** The three indices [len/2], [int(len * 0.95)] and [int(len * 0.99)] come
    in this order. *)
Lemma floatIndex_order (l : Z) :
  1 <= l < 2 ^ 53 ->
  goint.wrap64 (Z.quot l 2) <= stats.floatIndex gofloat.c0_95 l
  /\ stats.floatIndex gofloat.c0_95 l <= stats.floatIndex gofloat.c0_99 l.
Proof.
  intros Hl.
  destruct (of_int_small l Hl) as (mx & ex & Hx & Hd & Hex & Hmx).
  destruct (floatIndex_floor gofloat.c0_95 8556839292003942 mx ex l)
    as (N95 & -> & Hlo95 & Hhi95); auto;
    [change (2 ^ 52) with 4503599627370496; change (2 ^ 53) with 9007199254740992; lia|].
  destruct (floatIndex_floor gofloat.c0_99 8917127262193582 mx ex l)
    as (N99 & -> & Hlo99 & Hhi99); auto;
    [change (2 ^ 52) with 4503599627370496; change (2 ^ 53) with 9007199254740992; lia|].
  pose proof (digits2_pos_bounds mx) as [Hx1 Hx2]. rewrite Hd in Hx1, Hx2.
  change (53 - 1) with 52 in Hx1.
  assert (Hscale : 0 < 2 ^ (53 - ex)) by (apply Z.pow_pos_nonneg; lia).
  split.
  - change (2 ^ 53) with 9007199254740992 in Hl.
    rewrite Z.quot_div_nonneg by lia.
    rewrite wrap64_small.
    2:{ assert (0 <= l / 2 < l) by (split; [apply Z.div_pos | apply Z.div_lt_upper_bound]; lia).
        unfold goint.min_int64, goint.max_int64. lia. }
    assert (Hhalf : l / 2 = (Z.pos mx * 2 ^ 52) / 2 ^ (53 - ex)).
    { rewrite Hmx. replace (53 - ex) with (1 + (- ex + 52)) by lia.
      rewrite (Z.pow_add_r 2 1), (Z.pow_add_r 2 (- ex) 52) by lia.
      change (2 ^ 1) with 2. rewrite <- Z.mul_assoc.
      rewrite Z.div_mul_cancel_r; [reflexivity | lia |].
      assert (0 < 2 ^ (- ex)) by (apply Z.pow_pos_nonneg; lia). lia. }
    rewrite Hhalf. apply Z.div_le_mono; [lia|].
    change (2 ^ 53) with 9007199254740992 in *.
    change (2 ^ 52) with 4503599627370496 in *.
    nia.
  - apply Z.div_le_mono; [lia|].
    change (2 ^ 53) with 9007199254740992 in *.
    change (2 ^ 52) with 4503599627370496 in *.
    nia.
Qed.

Lemma intIndex_order (l : Z) :
  1 <= l < 2 ^ 53 ->
  stats.intIndex 50 l = goint.wrap64 (Z.quot l 2)
  /\ stats.intIndex 50 l <= stats.intIndex 95 l
  /\ stats.intIndex 95 l <= stats.intIndex 99 l.
Proof.
  intros Hl. unfold stats.intIndex, goint.mul.
  change (2 ^ 53) with 9007199254740992 in Hl.
  rewrite !(wrap64_small (l * _))
    by (unfold goint.min_int64, goint.max_int64; lia).
  rewrite !Z.quot_div_nonneg by lia.
  assert (H50 : 0 <= l * 50 / 100 < l)
    by (split; [apply Z.div_pos | apply Z.div_lt_upper_bound]; lia).
  assert (H95 : 0 <= l * 95 / 100 < l)
    by (split; [apply Z.div_pos | apply Z.div_lt_upper_bound]; lia).
  assert (H99 : 0 <= l * 99 / 100 < l)
    by (split; [apply Z.div_pos | apply Z.div_lt_upper_bound]; lia).
  assert (H2 : 0 <= l / 2 < l)
    by (split; [apply Z.div_pos | apply Z.div_lt_upper_bound]; lia).
  rewrite !wrap64_small by (unfold goint.min_int64, goint.max_int64; lia).
  split; [|split].
  - change 100 with (2 * 50). rewrite Z.div_mul_cancel_r by lia. reflexivity.
  - apply Z.div_le_mono; lia.
  - apply Z.div_le_mono; lia.
Qed.

Lemma sorted_lookup_le (s : list Z) :
  StronglySorted Z.le s ->
  forall (n m : nat) (a b : Z),
    s !! n = Some a -> s !! m = Some b -> (n <= m)%nat -> a <= b.
Proof.
  induction 1 as [|x s Hs IH Hall]; intros n m a b Ha Hb Hnm.
  - discriminate.
  - destruct n as [|n], m as [|m]; cbn in Ha, Hb.
    + injection Ha as <-. injection Hb as <-. lia.
    + injection Ha as <-. rewrite List.Forall_forall in Hall.
      apply Hall. apply list_elem_of_In. eapply list_elem_of_lookup_2. exact Hb.
    + lia.
    + eapply IH; eauto. lia.
Qed.

Lemma sorted_index_le (s : list Z) (i j a b : Z) :
  Sorted Z.le s ->
  goint.index s i = Some a -> goint.index s j = Some b -> i <= j -> a <= b.
Proof.
  intros Hs Ha Hb Hij. unfold goint.index in *.
  destruct (Z.ltb_spec i 0); [discriminate|].
  destruct (Z.ltb_spec j 0); [discriminate|].
  apply Sorted_StronglySorted in Hs; [|intros x y z; lia].
  eapply sorted_lookup_le; eauto. lia.
Qed.

Lemma index_elem {A : Type} (s : list A) (i : Z) (a : A) :
  goint.index s i = Some a -> a ∈ s.
Proof.
  unfold goint.index. destruct (i <? 0); [discriminate|].
  apply list_elem_of_lookup_2.
Qed.

Lemma insertSorted_head (d : Z) (l : list Z) :
  HdRel Z.le d l -> stats.insertSorted d l = d :: l.
Proof.
  destruct 1 as [|x l Hle]; [reflexivity|]. cbn.
  destruct (Z.leb_spec d x); [reflexivity | lia].
Qed.

(** Sorting a sorted slice again leaves it as it is. *)
Lemma sortDurations_sorted_id (l : list Z) :
  Sorted Z.le l -> stats.sortDurations l = l.
Proof.
  induction 1 as [|d l Hs IH Hd]; [reflexivity|].
  cbn. rewrite IH. apply insertSorted_head. exact Hd.
Qed.

(** X10.  Whenever [calculateEndpointStats] returns for an entry whose URL
    has a successful result, the percentiles it writes come in order:
    [MedianDuration <= Percentile95 <= Percentile99] and
    [P50Latency <= P95Latency <= P99Latency]; [P50Latency] is the median;
    and each of the six is one of the durations collected for the URL. *)
Theorem percentiles_ordered (stat e' : EndpointStatistics.t)
    (results : list Result.t) :
  goint.len results < 2 ^ 53 ->
  stats.collectDurations (EndpointStatistics.URL stat) results <> [] ->
  stats.calculateEndpointStats stat results = Some e' ->
  EndpointStatistics.MedianDuration e' <= EndpointStatistics.Percentile95 e'
  /\ EndpointStatistics.Percentile95 e' <= EndpointStatistics.Percentile99 e'
  /\ EndpointStatistics.P50Latency e' = EndpointStatistics.MedianDuration e'
  /\ EndpointStatistics.P50Latency e' <= EndpointStatistics.P95Latency e'
  /\ EndpointStatistics.P95Latency e' <= EndpointStatistics.P99Latency e'
  /\ Forall (fun d => d ∈ stats.collectDurations (EndpointStatistics.URL stat) results)
       [EndpointStatistics.MedianDuration e'; EndpointStatistics.Percentile95 e';
        EndpointStatistics.Percentile99 e'; EndpointStatistics.P50Latency e';
        EndpointStatistics.P95Latency e'; EndpointStatistics.P99Latency e'].
Proof.
  intros Hlen Hne Hcalc.
  set (ds := stats.collectDurations (EndpointStatistics.URL stat) results) in *.
  assert (Hl : 1 <= goint.len (stats.sortDurations ds) < 2 ^ 53).
  { unfold goint.len in *. rewrite sortDurations_length.
    assert (length ds <= length results)%nat.
    { unfold ds. rewrite collectDurations_filter, length_fmap. apply length_filter. }
    destruct ds; [contradiction|]. cbn [length] in *. lia. }
  pose proof (sortDurations_sorted ds) as Hsorted.
  pose proof (sortDurations_perm ds) as Hperm.
  unfold stats.calculateEndpointStats in Hcalc. fold ds in Hcalc.
  replace (0 <? goint.len ds) with true in Hcalc.
  2:{ symmetry. apply Z.ltb_lt. unfold goint.len in *.
      rewrite sortDurations_length in Hl. lia. }
  cbv zeta in Hcalc.
  destruct (goint.div _ _) as [avg|]; [|discriminate]. cbn [mbind option_bind] in Hcalc.
  destruct (goint.index _ (goint.wrap64 _)) as [med|] eqn:Hmed; [|discriminate].
  cbn [mbind option_bind] in Hcalc.
  destruct (goint.index _ (stats.floatIndex gofloat.c0_95 _)) as [p95|] eqn:H95;
    [|discriminate].
  cbn [mbind option_bind] in Hcalc.
  destruct (goint.index _ (stats.floatIndex gofloat.c0_99 _)) as [p99|] eqn:H99;
    [|discriminate].
  cbn [mbind option_bind] in Hcalc.
  unfold stats.calculatePercentiles in Hcalc.
  rewrite (sortDurations_sorted_id _ Hsorted) in Hcalc.
  destruct (goint.index _ (stats.intIndex 50 _)) as [q50|] eqn:Hq50; [|discriminate].
  cbn [mbind option_bind] in Hcalc.
  destruct (goint.index _ (stats.intIndex 95 _)) as [q95|] eqn:Hq95; [|discriminate].
  cbn [mbind option_bind] in Hcalc.
  destruct (goint.index _ (stats.intIndex 99 _)) as [q99|] eqn:Hq99; [|discriminate].
  cbn [mbind option_bind] in Hcalc.
  injection Hcalc as <-.
  cbn [EndpointStatistics.MedianDuration EndpointStatistics.Percentile95
       EndpointStatistics.Percentile99 EndpointStatistics.P50Latency
       EndpointStatistics.P95Latency EndpointStatistics.P99Latency].
  destruct (floatIndex_order _ Hl) as [Hf1 Hf2].
  destruct (intIndex_order _ Hl) as (Hi1 & Hi2 & Hi3).
  split; [exact (sorted_index_le _ _ _ _ _ Hsorted Hmed H95 Hf1)|].
  split; [exact (sorted_index_le _ _ _ _ _ Hsorted H95 H99 Hf2)|].
  split; [rewrite Hi1, Hmed in Hq50; congruence|].
  split; [exact (sorted_index_le _ _ _ _ _ Hsorted Hq50 Hq95 Hi2)|].
  split; [exact (sorted_index_le _ _ _ _ _ Hsorted Hq95 Hq99 Hi3)|].
  repeat constructor; rewrite <- Hperm; eapply index_elem; eassumption.
Qed.

Lemma percentiles_ordered_witness :
  exists e',
    stats.calculateEndpointStats
      (stats.countSuccess (answered "GET" "/a" 200 5)
         (EndpointStatistics.fresh "/a" "GET")) sharedUrlResults = Some e'
    /\ EndpointStatistics.MedianDuration e' <= EndpointStatistics.Percentile95 e'.
Proof.
  destruct (stats.calculateEndpointStats
              (stats.countSuccess (answered "GET" "/a" 200 5)
                 (EndpointStatistics.fresh "/a" "GET")) sharedUrlResults)
    as [e'|] eqn:Hcalc; [|vm_compute in Hcalc; discriminate].
  exists e'. split; [reflexivity|].
  apply (percentiles_ordered
           (stats.countSuccess (answered "GET" "/a" 200 5)
              (EndpointStatistics.fresh "/a" "GET")) e' sharedUrlResults);
    [vm_compute; reflexivity | vm_compute; discriminate | exact Hcalc].
Defined.

(** ** When the aggregator returns *)

Lemma collectDurations_elem (url : string) (results : list Result.t) :
  stats.collectDurations url results <> [] ->
  exists r, r ∈ results /\ Result.URL r = url /\ Result.Error r = None.
Proof.
  rewrite collectDurations_filter. intros Hne.
  destruct (filter _ results) as [|r l] eqn:Hf; [contradiction|].
  assert (Hin : r ∈ filter (fun r => Result.URL r = url /\ Result.Error r = None) results)
    by (rewrite Hf; left).
  apply list_elem_of_filter in Hin as [[Hu He] Hin]. eauto.
Qed.

(** X11.  [Calculate] returns, it does not panic, on every batch in which
    all results succeeded, and on every batch in which the results that
    share a URL share the method as well. *)
Theorem Calculate_returns (results : list Result.t) :
  goint.len results < 2 ^ 53 ->
  Forall (fun r => Result.Error r = None) results
  \/ (forall r r', r ∈ results -> r' ∈ results ->
        Result.URL r = Result.URL r' -> Result.Method r = Result.Method r') ->
  is_Some (stats.Calculate results).
Proof.
  intros Hlen Hcond.
  destruct (stats.Calculate results) as [s|] eqn:Hc; [eauto|exfalso].
  apply (Calculate_panics_iff results Hlen) in Hc as (k & e & Hk & Hzero & Hne).
  rewrite firstPass_group in Hk.
  destruct (groupOf k results) as [|r g] eqn:Hg; [discriminate|].
  injection Hk as <-.
  assert (Hr : r ∈ results /\ stats.key r = k).
  { assert (Hin : r ∈ groupOf k results) by (rewrite Hg; left).
    unfold groupOf in Hin. apply list_elem_of_filter in Hin. tauto. }
  pose proof (groupOf_length k results) as Hgl. rewrite Hg in Hgl.
  pose proof (tally_count EndpointStatistics.SuccessRequests
                (fun r => Result.Error r = None)
                (fun r => decide (Result.Error r = None))) as HS.
  specialize (HS (fun e r => proj1 (proj2 (tally_counters e r))) (r :: g)
                (EndpointStatistics.fresh (Result.URL r) (Result.Method r))).
  cbn [EndpointStatistics.fresh EndpointStatistics.SuccessRequests fold_left] in HS.
  rewrite HS in Hzero
    by (change (2 ^ 53) with 9007199254740992 in Hlen; unfold goint.max_int64; lia).
  cbn [EndpointStatistics.fresh EndpointStatistics.SuccessRequests] in Hzero.
  assert (Hnone : filter (fun r => Result.Error r = None) (r :: g) = []).
  { destruct (filter _ (r :: g)); [reflexivity|].
    unfold goint.len in Hzero. cbn [length] in Hzero. lia. }
  destruct (tally_URL (r :: g)
              (EndpointStatistics.fresh (Result.URL r) (Result.Method r))) as [Hurl _].
  cbn [fold_left] in Hurl. rewrite Hurl in Hne. cbn [EndpointStatistics.fresh EndpointStatistics.URL] in Hne.
  apply collectDurations_elem in Hne as (r' & Hin' & Hu' & He').
  assert (Hbad : forall x, x ∈ r :: g -> Result.Error x <> None).
  { intros x Hx Hex.
    assert (x ∈ filter (fun r => Result.Error r = None) (r :: g))
      by (apply list_elem_of_filter; auto).
    rewrite Hnone in H. inversion H. }
  destruct Hcond as [Hall|Hsame].
  - rewrite Forall_forall in Hall. apply (Hbad r); [left | apply Hall; tauto].
  - apply (Hbad r'); [|exact He'].
    rewrite <- Hg. unfold groupOf. apply list_elem_of_filter. split; [|exact Hin'].
    destruct Hr as [Hrin <-]. unfold stats.key.
    rewrite (Hsame r' r Hin' Hrin Hu'), Hu'. reflexivity.
Qed.

Lemma Calculate_returns_witness : is_Some (stats.Calculate mixedResults).
Proof.
  apply Calculate_returns; [vm_compute; reflexivity|].
  right. intros r r' Hr Hr' _. unfold mixedResults in *.
  repeat match goal with
         | H : _ ∈ _ :: _ |- _ => apply elem_of_cons in H as [->|H]
         | H : _ ∈ [] |- _ => inversion H
         end; reflexivity.
Defined.

(** ** The reducer of a load test *)

Lemma sumZ_perm (l l' : list Z) : l ≡ₚ l' -> sumZ l = sumZ l'.
Proof.
  unfold sumZ. induction 1; cbn; lia.
Qed.

Lemma fold_add_sum {A : Type} (f : A -> Z) (l : list A) :
  forall a : Z,
    goint.wrap64 (fold_left (fun total x => goint.add total (f x)) l a)
    = goint.wrap64 (a + sumZ (f <$> l)).
Proof.
  induction l as [|x l IH]; intros a.
  - cbn [fold_left]. f_equal. cbn. symmetry. apply Z.add_0_r.
  - cbn [fold_left]. rewrite IH. unfold goint.add. rewrite wrap64_add_l.
    f_equal. cbn. unfold sumZ. symmetry. apply Z.add_assoc.
Qed.

Lemma fold_add_range {A : Type} (f : A -> Z) (l : list A) :
  forall a : Z,
    goint.wrap64 a = a ->
    goint.wrap64 (fold_left (fun total x => goint.add total (f x)) l a)
    = fold_left (fun total x => goint.add total (f x)) l a.
Proof.
  induction l as [|x l IH]; intros a Ha; [exact Ha|].
  cbn [fold_left]. apply IH. unfold goint.add. apply wrap64_small, wrap64_range.
Qed.

Lemma fold_pair {A B C : Type} (g : B -> A -> B) (h : C -> A -> C) (l : list A) :
  forall (b : B) (c : C),
    fold_left (fun '(b, c) x => (g b x, h c x)) l (b, c)
    = (fold_left g l b, fold_left h l c).
Proof.
  induction l as [|x l IH]; intros b c; [reflexivity|]. cbn [fold_left]. apply IH.
Qed.

(** A wrapping sum over the entries is the same in every traversal order. *)
Lemma fold_add_order (f : EndpointStatistics.t -> Z)
    (rangeOver : gmap string EndpointStatistics.t -> list EndpointStatistics.t)
    (m : gmap string EndpointStatistics.t) :
  rangesOver rangeOver ->
  fold_left (fun total es => goint.add total (f es)) (rangeOver m) 0
  = goint.wrap64 (sumZ (f <$> (map_to_list m).*2)).
Proof.
  intros Hperm. rewrite <- fold_add_range by reflexivity.
  rewrite fold_add_sum, Z.add_0_l. f_equal.
  apply sumZ_perm. rewrite (Hperm m). reflexivity.
Qed.

Lemma sum_insert (f : EndpointStatistics.t -> Z) (m : gmap string EndpointStatistics.t)
    (k : string) (x : EndpointStatistics.t) :
  sumZ (f <$> (map_to_list (<[k := x]> m)).*2)
  = f x + sumZ (f <$> (map_to_list m).*2)
    - match m !! k with Some old => f old | None => 0 end.
Proof.
  destruct (m !! k) as [old|] eqn:Hk.
  - rewrite <- (insert_delete_eq m k x).
    rewrite (sumZ_perm _ _
               (fmap_Permutation f _ _
                  (fmap_Permutation snd _ _
                     (map_to_list_insert (delete k m) k x (lookup_delete_eq m k))))).
    rewrite <- (sumZ_perm _ _
                  (fmap_Permutation f _ _
                     (fmap_Permutation snd _ _ (map_to_list_delete m k old Hk)))).
    cbn. unfold sumZ. lia.
  - rewrite (sumZ_perm _ _
               (fmap_Permutation f _ _
                  (fmap_Permutation snd _ _ (map_to_list_insert m k x Hk)))).
    cbn. unfold sumZ. lia.
Qed.

Lemma accumulate_map (s : Statistics.t) (r : Result.t) :
  Statistics.EndpointStats (stats.accumulate s r)
  = <[stats.key r :=
        tally (default (EndpointStatistics.fresh (Result.URL r) (Result.Method r))
                 (Statistics.EndpointStats s !! stats.key r)) r]>
      (Statistics.EndpointStats s).
Proof.
  unfold stats.accumulate, tally.
  destruct (Statistics.EndpointStats s !! stats.key r) as [e|];
    destruct (Result.Error r); reflexivity.
Qed.

(** After the first loop the totals of the entries add up to the number of
    results read. *)
Lemma firstPass_total (results : list Result.t) :
  goint.len results <= goint.max_int64 ->
  sumZ (EndpointStatistics.TotalRequests
          <$> (map_to_list (Statistics.EndpointStats (stats.firstPass results))).*2)
  = goint.len results.
Proof.
  induction results as [|r results IH] using rev_ind; intros Hlen.
  - reflexivity.
  - unfold goint.len in *. rewrite length_app in *. cbn [length] in *.
    rewrite firstPass_snoc, accumulate_map, sum_insert.
    rewrite IH by lia.
    destruct (firstPass_inv results) as [_ Hall]; [unfold goint.len; lia|].
    assert (Hstep : forall e, 0 <= EndpointStatistics.TotalRequests e
                              <= Z.of_nat (length results) ->
              EndpointStatistics.TotalRequests (tally e r)
              = EndpointStatistics.TotalRequests e + 1).
    { intros e He. destruct (tally_counters e r) as [-> _].
      rewrite decide_True by exact I. apply add_small.
      unfold goint.min_int64, goint.max_int64 in *. lia. }
    destruct (Statistics.EndpointStats (stats.firstPass results) !! stats.key r)
      as [e|] eqn:Hk; cbn [default from_option id].
    + destruct (Hall _ _ Hk) as (Ht & Hs & Hf & Hn). unfold goint.len in Hn.
      rewrite Hstep by lia. lia.
    + rewrite Hstep by (cbn; lia). cbn. lia.
Qed.

Lemma omap_sum (f : EndpointStatistics.t -> Z)
    (g : EndpointStatistics.t -> option EndpointStatistics.t) :
  (forall e e', g e = Some e' -> f e' = f e) ->
  forall m : gmap string EndpointStatistics.t,
    map_Forall (fun _ e => is_Some (g e)) m ->
    sumZ (f <$> (map_to_list (omap g m)).*2) = sumZ (f <$> (map_to_list m).*2).
Proof.
  intros Hf m.
  induction m as [|k e m Hk IH] using map_ind; intros Hall.
  - rewrite omap_empty. reflexivity.
  - destruct (Hall k e (lookup_insert_eq m k e)) as [e' He'].
    rewrite (omap_insert_Some _ _ _ _ _ He').
    assert (Hall' : map_Forall (fun _ e => is_Some (g e)) m).
    { intros k0 e0 Hk0. apply (Hall k0). rewrite lookup_insert_ne; [exact Hk0|].
      intros <-. congruence. }
    rewrite !sum_insert, Hk. rewrite lookup_omap, Hk. cbn.
    rewrite (Hf _ _ He'). f_equal. f_equal. apply IH. exact Hall'.
Qed.

Lemma secondPass_sum (f : EndpointStatistics.t -> Z) (results : list Result.t) :
  (forall e e', stats.calculateEndpointStats e results = Some e' -> f e' = f e) ->
  forall m m' : gmap string EndpointStatistics.t,
    stats.secondPass m results = Some m' ->
    sumZ (f <$> (map_to_list m').*2) = sumZ (f <$> (map_to_list m).*2).
Proof.
  intros Hf m m' Hm'. unfold stats.secondPass in Hm'.
  case_decide as Hall; [|discriminate]. injection Hm' as <-.
  apply omap_sum; assumption.
Qed.

Lemma Calculate_total (results : list Result.t) (s : Statistics.t) :
  goint.len results <= goint.max_int64 ->
  stats.Calculate results = Some s ->
  sumZ (EndpointStatistics.TotalRequests <$> (map_to_list (Statistics.EndpointStats s)).*2)
  = goint.len results.
Proof.
  intros Hlen Hc. unfold stats.Calculate in Hc.
  destruct (stats.secondPass _ _) as [m|] eqn:Hm; [|discriminate].
  injection Hc as <-. cbn [Statistics.EndpointStats].
  rewrite (secondPass_sum EndpointStatistics.TotalRequests results) with (m := Statistics.EndpointStats (stats.firstPass results)); [|intros e e' H|exact Hm].
  - apply firstPass_total. exact Hlen.
  - pose proof (calculateEndpointStats_counters _ _ _ H) as Hs.
    unfold sameCounters in Hs. tauto.
Qed.

Lemma countTotalRequests_length
    (rangeOver : gmap string EndpointStatistics.t -> list EndpointStatistics.t)
    (results : list Result.t) (s : Statistics.t) :
  rangesOver rangeOver ->
  goint.len results <= goint.max_int64 ->
  stats.Calculate results = Some s ->
  loadtest.countTotalRequests rangeOver s = goint.len results.
Proof.
  intros Hperm Hlen Hc. unfold loadtest.countTotalRequests.
  rewrite (fold_add_order EndpointStatistics.TotalRequests rangeOver _ Hperm).
  rewrite (Calculate_total results s Hlen Hc).
  apply wrap64_small. unfold goint.len, goint.min_int64 in *. lia.
Qed.

(** X12.  For the statistics [Calculate] returns on a batch,
    [countTotalRequests] is the number of results of the batch, which is
    also [Statistics.TotalRequests], in whatever order the endpoint map is
    traversed. *)
Theorem countTotalRequests_Calculate
    (rangeOver : gmap string EndpointStatistics.t -> list EndpointStatistics.t)
    (results : list Result.t) (s : Statistics.t) :
  rangesOver rangeOver ->
  goint.len results <= goint.max_int64 ->
  stats.Calculate results = Some s ->
  loadtest.countTotalRequests rangeOver s = goint.len results
  /\ loadtest.countTotalRequests rangeOver s = Statistics.TotalRequests s.
Proof.
  intros Hperm Hlen Hc.
  pose proof (countTotalRequests_length rangeOver results s Hperm Hlen Hc) as Hcount.
  split; [exact Hcount|]. rewrite Hcount.
  unfold stats.Calculate in Hc.
  destruct (stats.secondPass _ _); [|discriminate]. injection Hc as <-.
  cbn [Statistics.TotalRequests]. symmetry.
  apply (firstPass_inv results Hlen).
Qed.

Lemma keyOrder_ranges : rangesOver keyOrder.
Proof. intros m. reflexivity. Qed.

Lemma countTotalRequests_Calculate_witness :
  exists s, stats.Calculate mixedResults = Some s
            /\ loadtest.countTotalRequests keyOrder s = 2.
Proof.
  destruct (stats.Calculate mixedResults) as [s|] eqn:Hc;
    [|vm_compute in Hc; discriminate].
  exists s. split; [reflexivity|].
  apply (countTotalRequests_Calculate keyOrder mixedResults s keyOrder_ranges);
    [vm_compute; discriminate | exact Hc].
Defined.

Lemma updateLatencyStats_frame (st : LoadTestStats.t) (latency : Z) :
  LoadTestStats.Steps (loadtest.updateLatencyStats st latency) = LoadTestStats.Steps st
  /\ LoadTestStats.EndpointStats (loadtest.updateLatencyStats st latency)
     = LoadTestStats.EndpointStats st
  /\ LoadTestStats.TotalRequests (loadtest.updateLatencyStats st latency)
     = LoadTestStats.TotalRequests st
  /\ LoadTestStats.TestDuration (loadtest.updateLatencyStats st latency)
     = LoadTestStats.TestDuration st
  /\ (LoadTestStats.MinLatency st <= LoadTestStats.MaxLatency st ->
      LoadTestStats.MinLatency (loadtest.updateLatencyStats st latency)
      <= LoadTestStats.MaxLatency (loadtest.updateLatencyStats st latency)).
Proof.
  repeat (split; [reflexivity|]). cbn. intros Hle.
  destruct (Z.eqb_spec (LoadTestStats.MinLatency st) 0);
    destruct (Z.ltb_spec latency (LoadTestStats.MinLatency st));
    destruct (Z.ltb_spec (LoadTestStats.MaxLatency st) latency); cbn; lia.
Qed.

Lemma reduceSteps_spec
    (rangeOver : gmap string EndpointStatistics.t -> list EndpointStatistics.t)
    (results : list LoadTestResult.t) :
  rangesOver rangeOver ->
  Forall (fun r => goint.len (LoadTestResult.Results r) <= goint.max_int64) results ->
  forall st : LoadTestStats.t,
    match loadtest.reduceSteps rangeOver st results with
    | None => exists r, r ∈ results /\ stats.Calculate (LoadTestResult.Results r) = None
    | Some st' =>
        Forall (fun r => is_Some (stats.Calculate (LoadTestResult.Results r))) results
        /\ (fun x => (StepStatistics.UserCount x, StepStatistics.DataSize x))
             <$> LoadTestStats.Steps st'
           = ((fun x => (StepStatistics.UserCount x, StepStatistics.DataSize x))
                <$> LoadTestStats.Steps st)
             ++ ((fun r => (LoadTestResult.UserCount r, LoadTestResult.DataSize r))
                   <$> results)
        /\ LoadTestStats.EndpointStats st' = LoadTestStats.EndpointStats st
        /\ LoadTestStats.TestDuration st' = LoadTestStats.TestDuration st
        /\ goint.wrap64 (LoadTestStats.TotalRequests st')
           = goint.wrap64 (LoadTestStats.TotalRequests st
                           + sumZ ((fun r => goint.len (LoadTestResult.Results r))
                                     <$> results))
        /\ (LoadTestStats.MinLatency st <= LoadTestStats.MaxLatency st ->
            LoadTestStats.MinLatency st' <= LoadTestStats.MaxLatency st')
    end.
Proof.
  intros Hperm Hlens. induction Hlens as [|r results Hr Hlens IH]; intros st.
  - cbn. rewrite app_nil_r. repeat split; auto. f_equal. symmetry. apply Z.add_0_r.
  - cbn [loadtest.reduceSteps]. unfold loadtest.reduceStep.
    destruct (stats.Calculate (LoadTestResult.Results r)) as [s|] eqn:Hc;
      cbn [mbind option_bind].
    + match goal with
      | |- context [loadtest.reduceSteps rangeOver ?st1 results] =>
          specialize (IH st1);
          destruct (loadtest.reduceSteps rangeOver st1 results) as [st'|];
          pose proof (updateLatencyStats_frame
                        (LoadTestStats.mk
                           (LoadTestStats.Steps st
                              ++ [loadtest.stepStatistics rangeOver r s])
                           (LoadTestStats.EndpointStats st)
                           (LoadTestStats.AverageLatency st)
                           (LoadTestStats.MaxLatency st) (LoadTestStats.MinLatency st)
                           (goint.add (LoadTestStats.TotalRequests st)
                              (loadtest.countTotalRequests rangeOver s))
                           (LoadTestStats.TestDuration st))
                        (loadtest.calculateAverageLatency rangeOver s))
            as (Hf1 & Hf2 & Hf3 & Hf4 & Hf5)
      end.
      * destruct IH as (Hall & Hsteps & Hes & Htd & Htot & Hmm).
        rewrite Hf1 in Hsteps. rewrite Hf2 in Hes. rewrite Hf3 in Htot.
        rewrite Hf4 in Htd.
        cbn [LoadTestStats.Steps LoadTestStats.EndpointStats LoadTestStats.TotalRequests
             LoadTestStats.TestDuration LoadTestStats.MinLatency
             LoadTestStats.MaxLatency] in *.
        split; [constructor; eauto|].
        split; [rewrite Hsteps, fmap_app, <- app_assoc; reflexivity|].
        split; [exact Hes|]. split; [exact Htd|]. split; [|auto].
        rewrite Htot.
        rewrite (countTotalRequests_length rangeOver _ s Hperm Hr Hc).
        unfold goint.add. rewrite wrap64_add_l. f_equal. cbn. unfold sumZ.
        symmetry. apply Z.add_assoc.
      * destruct IH as (r' & Hin & Hnone). exists r'. split; [right; exact Hin | exact Hnone].
    + exists r. split; [left | exact Hc].
Qed.

Lemma reduceSteps_range
    (rangeOver : gmap string EndpointStatistics.t -> list EndpointStatistics.t)
    (results : list LoadTestResult.t) :
  forall st st' : LoadTestStats.t,
    goint.wrap64 (LoadTestStats.TotalRequests st) = LoadTestStats.TotalRequests st ->
    loadtest.reduceSteps rangeOver st results = Some st' ->
    goint.wrap64 (LoadTestStats.TotalRequests st') = LoadTestStats.TotalRequests st'.
Proof.
  induction results as [|r results IH]; intros st st' Hst Hred.
  - injection Hred as <-. exact Hst.
  - cbn [loadtest.reduceSteps] in Hred. unfold loadtest.reduceStep in Hred.
    destruct (stats.Calculate (LoadTestResult.Results r)) as [s|];
      cbn [mbind option_bind] in Hred; [|discriminate].
    eapply IH; [|exact Hred]. cbn [loadtest.updateLatencyStats LoadTestStats.TotalRequests].
    unfold goint.add. apply wrap64_small, wrap64_range.
Qed.

(** X13.  [CalculateLoadTest] panics exactly when [Calculate] panics on the
    results of one of the steps.  Otherwise it returns one [StepStatistics]
    per step, in order, with the user count and the data size of the step;
    [TotalRequests] is the (wrapping) number of all results; [EndpointStats]
    is left empty and [TestDuration] zero; and [MinLatency <= MaxLatency]. *)
Theorem CalculateLoadTest_steps
    (rangeOver : gmap string EndpointStatistics.t -> list EndpointStatistics.t)
    (results : list LoadTestResult.t) :
  rangesOver rangeOver ->
  Forall (fun r => goint.len (LoadTestResult.Results r) <= goint.max_int64) results ->
  match loadtest.CalculateLoadTest rangeOver results with
  | None => exists r, r ∈ results /\ stats.Calculate (LoadTestResult.Results r) = None
  | Some st =>
      Forall (fun r => is_Some (stats.Calculate (LoadTestResult.Results r))) results
      /\ (fun x => (StepStatistics.UserCount x, StepStatistics.DataSize x))
           <$> LoadTestStats.Steps st
         = (fun r => (LoadTestResult.UserCount r, LoadTestResult.DataSize r)) <$> results
      /\ LoadTestStats.EndpointStats st = ∅
      /\ LoadTestStats.TestDuration st = 0
      /\ LoadTestStats.TotalRequests st
         = goint.wrap64 (sumZ ((fun r => goint.len (LoadTestResult.Results r))
                                 <$> results))
      /\ LoadTestStats.MinLatency st <= LoadTestStats.MaxLatency st
  end.
Proof.
  intros Hperm Hlens. unfold loadtest.CalculateLoadTest.
  pose proof (reduceSteps_spec rangeOver results Hperm Hlens
                (LoadTestStats.mk [] ∅ 0 0 0 0 0)) as H.
  destruct (loadtest.reduceSteps rangeOver _ results) as [st|] eqn:Hred; [|exact H].
  destruct H as (Hall & Hsteps & Hes & Htd & Htot & Hmm).
  cbn in Hsteps, Hes, Htd, Hmm.
  repeat (split; [assumption|]). split; [|apply Hmm; lia].
  cbn [LoadTestStats.TotalRequests] in Htot. rewrite Z.add_0_l in Htot.
  rewrite <- Htot. symmetry.
  apply (reduceSteps_range rangeOver results (LoadTestStats.mk [] ∅ 0 0 0 0 0) st);
    [reflexivity | exact Hred].
Qed.

Lemma CalculateLoadTest_steps_witness :
  exists st,
    loadtest.CalculateLoadTest keyOrder
      [LoadTestResult.mk 2 0 mixedResults 0; LoadTestResult.mk 7 0 [] 1] = Some st
    /\ LoadTestStats.TotalRequests st = 2
    /\ LoadTestStats.TestDuration st = 0.
Proof.
  pose proof (CalculateLoadTest_steps keyOrder
                [LoadTestResult.mk 2 0 mixedResults 0; LoadTestResult.mk 7 0 [] 1]
                keyOrder_ranges) as H.
  destruct (loadtest.CalculateLoadTest keyOrder _) as [st|] eqn:Hst;
    [|vm_compute in Hst; discriminate].
  exists st. split; [reflexivity|].
  destruct H as (_ & _ & _ & Htd & Htot & _).
  - repeat constructor; vm_compute; discriminate.
  - split; [exact Htot | exact Htd].
Defined.

(** The three latency fields after a step depend on the three before it. *)
Lemma updateLatencyStats_latencies (st1 st2 : LoadTestStats.t) (latency : Z) :
  LoadTestStats.AverageLatency st1 = LoadTestStats.AverageLatency st2 ->
  LoadTestStats.MaxLatency st1 = LoadTestStats.MaxLatency st2 ->
  LoadTestStats.MinLatency st1 = LoadTestStats.MinLatency st2 ->
  LoadTestStats.AverageLatency (loadtest.updateLatencyStats st1 latency)
  = LoadTestStats.AverageLatency (loadtest.updateLatencyStats st2 latency)
  /\ LoadTestStats.MaxLatency (loadtest.updateLatencyStats st1 latency)
     = LoadTestStats.MaxLatency (loadtest.updateLatencyStats st2 latency)
  /\ LoadTestStats.MinLatency (loadtest.updateLatencyStats st1 latency)
     = LoadTestStats.MinLatency (loadtest.updateLatencyStats st2 latency).
Proof. intros Ha Hx Hn. cbn. rewrite Ha, Hx, Hn. auto. Qed.

Lemma fold_updateLatencyStats_latencies (ls : list Z) :
  forall st1 st2 : LoadTestStats.t,
    LoadTestStats.AverageLatency st1 = LoadTestStats.AverageLatency st2 ->
    LoadTestStats.MaxLatency st1 = LoadTestStats.MaxLatency st2 ->
    LoadTestStats.MinLatency st1 = LoadTestStats.MinLatency st2 ->
    LoadTestStats.AverageLatency (fold_left loadtest.updateLatencyStats ls st1)
    = LoadTestStats.AverageLatency (fold_left loadtest.updateLatencyStats ls st2)
    /\ LoadTestStats.MaxLatency (fold_left loadtest.updateLatencyStats ls st1)
       = LoadTestStats.MaxLatency (fold_left loadtest.updateLatencyStats ls st2)
    /\ LoadTestStats.MinLatency (fold_left loadtest.updateLatencyStats ls st1)
       = LoadTestStats.MinLatency (fold_left loadtest.updateLatencyStats ls st2).
Proof.
  induction ls as [|l ls IH]; intros st1 st2 Ha Hx Hn; [auto|].
  cbn [fold_left].
  destruct (updateLatencyStats_latencies st1 st2 l Ha Hx Hn) as (Ha' & Hx' & Hn').
  apply IH; assumption.
Qed.

(** The latency fields of the reducer are a fold of [updateLatencyStats]
    over the average latencies of the steps it appends. *)
Lemma reduceSteps_latencies
    (rangeOver : gmap string EndpointStatistics.t -> list EndpointStatistics.t)
    (results : list LoadTestResult.t) :
  forall st st' : LoadTestStats.t,
    loadtest.reduceSteps rangeOver st results = Some st' ->
    exists ls,
      StepStatistics.AverageLatency <$> LoadTestStats.Steps st'
      = (StepStatistics.AverageLatency <$> LoadTestStats.Steps st) ++ ls
      /\ LoadTestStats.AverageLatency st'
         = LoadTestStats.AverageLatency (fold_left loadtest.updateLatencyStats ls st)
      /\ LoadTestStats.MaxLatency st'
         = LoadTestStats.MaxLatency (fold_left loadtest.updateLatencyStats ls st)
      /\ LoadTestStats.MinLatency st'
         = LoadTestStats.MinLatency (fold_left loadtest.updateLatencyStats ls st).
Proof.
  induction results as [|r results IH]; intros st st' Hred.
  - injection Hred as <-. exists []. rewrite app_nil_r. auto.
  - cbn [loadtest.reduceSteps] in Hred. unfold loadtest.reduceStep in Hred.
    destruct (stats.Calculate (LoadTestResult.Results r)) as [s|];
      cbn [mbind option_bind] in Hred; [|discriminate].
    destruct (IH _ _ Hred) as (ls & Hsteps & Ha & Hx & Hn).
    exists (loadtest.calculateAverageLatency rangeOver s :: ls).
    cbn [loadtest.updateLatencyStats LoadTestStats.Steps] in Hsteps.
    rewrite fmap_app, <- app_assoc in Hsteps. split; [exact Hsteps|].
    cbn [fold_left]. rewrite Ha, Hx, Hn.
    apply fold_updateLatencyStats_latencies; reflexivity.
Qed.

Lemma fold_updateLatencyStats_max (ls : list Z) :
  forall st : LoadTestStats.t,
    LoadTestStats.MaxLatency st
    <= LoadTestStats.MaxLatency (fold_left loadtest.updateLatencyStats ls st)
    /\ Forall (fun l => l <= LoadTestStats.MaxLatency
                             (fold_left loadtest.updateLatencyStats ls st)) ls
    /\ (LoadTestStats.MaxLatency (fold_left loadtest.updateLatencyStats ls st)
        = LoadTestStats.MaxLatency st
        \/ LoadTestStats.MaxLatency (fold_left loadtest.updateLatencyStats ls st) ∈ ls).
Proof.
  induction ls as [|l ls IH]; intros st.
  - cbn. split; [lia|]. split; [constructor | left; reflexivity].
  - cbn [fold_left]. destruct (IH (loadtest.updateLatencyStats st l)) as (Hle & Hall & Hin).
    cbn [loadtest.updateLatencyStats LoadTestStats.MaxLatency] in Hle, Hin.
    destruct (Z.ltb_spec (LoadTestStats.MaxLatency st) l).
    + split; [lia|]. split; [constructor; [lia | exact Hall]|].
      destruct Hin as [->|Hin]; right; [left | right; exact Hin].
    + split; [lia|]. split; [constructor; [lia | exact Hall]|].
      destruct Hin as [->|Hin]; [left; reflexivity | right; right; exact Hin].
Qed.

Lemma fold_updateLatencyStats_min (ls : list Z) :
  forall st : LoadTestStats.t,
    (LoadTestStats.MinLatency (fold_left loadtest.updateLatencyStats ls st)
     = LoadTestStats.MinLatency st
     \/ LoadTestStats.MinLatency (fold_left loadtest.updateLatencyStats ls st) ∈ ls)
    /\ (LoadTestStats.MinLatency st = 0 -> ls <> [] ->
        LoadTestStats.MinLatency (fold_left loadtest.updateLatencyStats ls st) ∈ ls)
    /\ (Forall (fun l => 0 < l) ls -> 0 <= LoadTestStats.MinLatency st ->
        Forall (fun l => LoadTestStats.MinLatency
                           (fold_left loadtest.updateLatencyStats ls st) <= l) ls
        /\ (0 < LoadTestStats.MinLatency st ->
            0 < LoadTestStats.MinLatency (fold_left loadtest.updateLatencyStats ls st)
            <= LoadTestStats.MinLatency st)).
Proof.
  induction ls as [|l ls IH]; intros st.
  - cbn. split; [left; reflexivity|]. split; [congruence|].
    intros _ _. split; [constructor | lia].
  - cbn [fold_left].
    destruct (IH (loadtest.updateLatencyStats st l)) as (Hin & Hzero & Hpos).
    cbn [loadtest.updateLatencyStats LoadTestStats.MinLatency] in Hin, Hzero, Hpos.
    split; [|split].
    + destruct Hin as [->|Hin]; [|right; right; exact Hin].
      destruct (_ || _); [right; left | left; reflexivity].
    + intros Hst _. destruct Hin as [->|Hin]; [|right; exact Hin].
      rewrite Hst. cbn. left.
    + intros Hall Hst. inversion Hall as [|? ? Hl Hall']; subst.
      destruct (Z.eqb_spec (LoadTestStats.MinLatency st) 0) as [H0|H0];
        destruct (Z.ltb_spec l (LoadTestStats.MinLatency st)) as [Hlt|Hge];
        cbn [orb] in Hpos;
        destruct (Hpos Hall' ltac:(lia)) as [Hrest Hbound];
        specialize (Hbound ltac:(lia));
        (split; [constructor; [lia | exact Hrest] | lia]).
Qed.

Lemma fold_updateLatencyStats_avg (lo hi : Z) (ls : list Z) :
  0 < lo -> hi < 2 ^ 62 ->
  Forall (fun l => lo <= l <= hi) ls ->
  forall st : LoadTestStats.t,
    LoadTestStats.AverageLatency st = 0
    \/ lo <= LoadTestStats.AverageLatency st <= hi ->
    ls <> [] ->
    lo <= LoadTestStats.AverageLatency (fold_left loadtest.updateLatencyStats ls st) <= hi.
Proof.
  intros Hlo Hhi Hall. change (2 ^ 62) with 4611686018427387904 in Hhi.
  induction Hall as [|l ls Hl Hall IH]; intros st Hst Hne; [contradiction|].
  cbn [fold_left].
  assert (Hstep : lo <= LoadTestStats.AverageLatency (loadtest.updateLatencyStats st l) <= hi).
  { cbn [loadtest.updateLatencyStats LoadTestStats.AverageLatency].
    destruct (Z.eqb_spec (LoadTestStats.AverageLatency st) 0) as [H0|H0]; [lia|].
    destruct Hst as [?|Hst]; [contradiction|].
    rewrite add_small by (unfold goint.min_int64, goint.max_int64; lia).
    rewrite Z.quot_div_nonneg by lia.
    assert (lo <= (LoadTestStats.AverageLatency st + l) / 2 <= hi).
    { split; [apply Z.div_le_lower_bound; lia | apply Z.div_le_upper_bound; lia]. }
    rewrite wrap64_small by (unfold goint.min_int64, goint.max_int64; lia). lia. }
  destruct ls as [|l' ls']; [exact Hstep|].
  apply IH; [right; exact Hstep | discriminate].
Qed.

(** X14.  In what [CalculateLoadTest] returns, [MaxLatency] is the largest
    of zero and the average latencies of the steps; [MinLatency] is one of
    these latencies as soon as there is a step, and is their minimum when
    they are all positive; without a step both, and [AverageLatency], are
    zero; and when the latencies of the steps all lie in a range
    [lo..hi] with [0 < lo] and [hi < 2^62], so does [AverageLatency]. *)
Theorem CalculateLoadTest_latencies
    (rangeOver : gmap string EndpointStatistics.t -> list EndpointStatistics.t)
    (results : list LoadTestResult.t) (st : LoadTestStats.t) :
  loadtest.CalculateLoadTest rangeOver results = Some st ->
  0 <= LoadTestStats.MaxLatency st
  /\ Forall (fun l => l <= LoadTestStats.MaxLatency st)
       (StepStatistics.AverageLatency <$> LoadTestStats.Steps st)
  /\ (LoadTestStats.MaxLatency st = 0
      \/ LoadTestStats.MaxLatency st
         ∈ StepStatistics.AverageLatency <$> LoadTestStats.Steps st)
  /\ (LoadTestStats.Steps st = [] ->
      LoadTestStats.MinLatency st = 0 /\ LoadTestStats.AverageLatency st = 0)
  /\ (LoadTestStats.Steps st <> [] ->
      LoadTestStats.MinLatency st
      ∈ StepStatistics.AverageLatency <$> LoadTestStats.Steps st)
  /\ (Forall (fun l => 0 < l) (StepStatistics.AverageLatency <$> LoadTestStats.Steps st) ->
      Forall (fun l => LoadTestStats.MinLatency st <= l)
        (StepStatistics.AverageLatency <$> LoadTestStats.Steps st))
  /\ (forall lo hi,
        0 < lo -> hi < 2 ^ 62 -> LoadTestStats.Steps st <> [] ->
        Forall (fun l => lo <= l <= hi)
          (StepStatistics.AverageLatency <$> LoadTestStats.Steps st) ->
        lo <= LoadTestStats.AverageLatency st <= hi).
Proof.
  unfold loadtest.CalculateLoadTest. intros Hred.
  destruct (reduceSteps_latencies rangeOver results _ _ Hred)
    as (ls & Hsteps & -> & -> & ->).
  cbn [LoadTestStats.Steps fmap list_fmap app] in Hsteps. subst ls.
  set (ls := StepStatistics.AverageLatency <$> LoadTestStats.Steps st).
  set (st0 := LoadTestStats.mk [] ∅ 0 0 0 0 0).
  destruct (fold_updateLatencyStats_max ls st0) as (Hx1 & Hx2 & Hx3).
  destruct (fold_updateLatencyStats_min ls st0) as (Hn1 & Hn2 & Hn3).
  cbn [st0 LoadTestStats.MaxLatency LoadTestStats.MinLatency] in Hx1, Hx3, Hn1, Hn2, Hn3.
  assert (Hnil : LoadTestStats.Steps st = [] <-> ls = []).
  { unfold ls. split; [intros ->; reflexivity | apply fmap_nil_inv]. }
  split; [exact Hx1|]. split; [exact Hx2|]. split; [exact Hx3|].
  split; [|split; [|split]].
  - intros H. apply Hnil in H. rewrite H. split; reflexivity.
  - intros H. apply Hn2; [reflexivity|]. intros Hls. apply H, Hnil, Hls.
  - intros Hall. apply (Hn3 Hall). lia.
  - intros lo hi Hlo Hhi Hne Hall.
    apply (fold_updateLatencyStats_avg lo hi ls Hlo Hhi Hall); [left; reflexivity|].
    intros Hls. apply Hne, Hnil, Hls.
Qed.

Lemma CalculateLoadTest_latencies_witness :
  exists st,
    loadtest.CalculateLoadTest keyOrder
      [LoadTestResult.mk 2 0 mixedResults 0; LoadTestResult.mk 7 0 [] 1] = Some st
    /\ 0 <= LoadTestStats.MaxLatency st.
Proof.
  destruct (loadtest.CalculateLoadTest keyOrder
              [LoadTestResult.mk 2 0 mixedResults 0; LoadTestResult.mk 7 0 [] 1])
    as [st|] eqn:Hst; [|vm_compute in Hst; discriminate].
  exists st. split; [reflexivity|].
  apply (CalculateLoadTest_latencies keyOrder _ st Hst).
Defined.

(** ** A step without a successful request *)

Lemma failed_Calculate (results : list Result.t) :
  Forall (fun r => Result.Error r <> None) results ->
  stats.Calculate results
  = Some (Statistics.mk (Statistics.EndpointStats (stats.firstPass results))
            (Statistics.TotalRequests (stats.firstPass results))
            (Statistics.TotalDuration (stats.firstPass results)))
  /\ map_Forall (fun _ e => pristine e) (Statistics.EndpointStats (stats.firstPass results)).
Proof.
  intros Hall. rewrite Forall_forall in Hall.
  assert (Hpr : map_Forall (fun _ e => pristine e)
                  (Statistics.EndpointStats (stats.firstPass results))).
  { intros k e Hk. apply (firstPass_pristine results k e Hk). intros r Hr _.
    apply Hall. exact Hr. }
  split; [|exact Hpr].
  assert (Hcalc : forall e, stats.calculateEndpointStats e results = Some e).
  { intros e. unfold stats.calculateEndpointStats.
    rewrite collectDurations_nil; [reflexivity|].
    intros r Hr _. apply Hall. exact Hr. }
  unfold stats.Calculate, stats.secondPass.
  rewrite decide_True by (intros k e _; rewrite Hcalc; eauto).
  cbn [mbind option_bind]. do 2 f_equal.
  apply map_eq. intros k. rewrite lookup_omap.
  destruct (_ !! k) as [e|]; cbn; [apply Hcalc | reflexivity].
Qed.

Lemma rangeOver_elem
    (rangeOver : gmap string EndpointStatistics.t -> list EndpointStatistics.t)
    (m : gmap string EndpointStatistics.t) (P : EndpointStatistics.t -> Prop) :
  rangesOver rangeOver -> map_Forall (fun _ e => P e) m -> Forall P (rangeOver m).
Proof.
  intros Hperm Hall. rewrite (Hperm m). apply Forall_forall. intros e He.
  apply list_elem_of_fmap in He as ([k e'] & -> & Hin).
  apply elem_of_map_to_list in Hin. exact (Hall k e' Hin).
Qed.

Lemma fold_add_zero {A : Type} (f : A -> Z) (l : list A) :
  Forall (fun x => f x = 0) l ->
  fold_left (fun total x => goint.add total (f x)) l 0 = 0.
Proof.
  induction 1 as [|x l Hx Hall IH]; [reflexivity|].
  cbn [fold_left]. rewrite Hx. exact IH.
Qed.

Lemma fold_plus_zero {A : Type} (f : A -> float) (l : list A) :
  Forall (fun x => f x = 0%float) l ->
  fold_left (fun total x => (total + f x)%float) l 0%float = 0%float.
Proof.
  induction 1 as [|x l Hx Hall IH]; [reflexivity|].
  cbn [fold_left]. rewrite Hx. exact IH.
Qed.

(** [float64(0) / float64(n) * 100] is zero for a count [n] of requests. *)
Lemma zero_rate (n : Z) :
  1 <= n < 2 ^ 53 ->
  (gofloat.of_int 0 / gofloat.of_int n * gofloat.c100)%float = 0%float.
Proof.
  intros Hn. destruct (of_int_small n Hn) as (mx & ex & Hx & _).
  assert (Hdiv : (gofloat.of_int 0 / gofloat.of_int n)%float = 0%float).
  { apply Prim2SF_inj. rewrite FloatAxioms.div_spec, Hx. reflexivity. }
  rewrite Hdiv. reflexivity.
Qed.

(** X15.  A step in which every request failed (or that has no result at
    all) does not make [Calculate] panic, and is reported with an average
    latency of zero, zero requests per second, a success rate of 0 and an
    error rate of 100, in whatever order the endpoint map is traversed. *)
Theorem step_without_success
    (rangeOver : gmap string EndpointStatistics.t -> list EndpointStatistics.t)
    (result : LoadTestResult.t) :
  rangesOver rangeOver ->
  goint.len (LoadTestResult.Results result) < 2 ^ 53 ->
  Forall (fun r => Result.Error r <> None) (LoadTestResult.Results result) ->
  exists stepStats,
    stats.Calculate (LoadTestResult.Results result) = Some stepStats
    /\ loadtest.stepStatistics rangeOver result stepStats
       = StepStatistics.mk (LoadTestResult.UserCount result)
           (LoadTestResult.DataSize result) 0 0%float 0%float 100%float.
Proof.
  intros Hperm Hlen Hfail.
  destruct (failed_Calculate _ Hfail) as [Hc Hpr].
  eexists. split; [exact Hc|].
  set (s := Statistics.mk _ _ _) in *.
  assert (Hlen' : goint.len (LoadTestResult.Results result) <= goint.max_int64).
  { change (2 ^ 53) with 9007199254740992 in Hlen. unfold goint.max_int64. lia. }
  pose proof (countTotalRequests_length rangeOver _ s Hperm Hlen' Hc) as Htotal.
  unfold loadtest.countTotalRequests in Htotal.
  assert (Hentries : Forall pristine (rangeOver (Statistics.EndpointStats s))).
  { apply rangeOver_elem; [exact Hperm | exact Hpr]. }
  assert (Havg : loadtest.calculateAverageLatency rangeOver s = 0).
  { unfold loadtest.calculateAverageLatency.
    rewrite (fold_pair (fun total es => goint.add total (EndpointStatistics.AverageDuration es))
               (fun count (_ : EndpointStatistics.t) => goint.add count 1)).
    rewrite (fold_add_zero EndpointStatistics.AverageDuration).
    - destruct (_ =? 0); reflexivity.
    - eapply Forall_impl; [exact Hentries|]. intros e He. apply He. }
  assert (Hrps : loadtest.calculateOverallRPS rangeOver s = 0%float).
  { unfold loadtest.calculateOverallRPS. apply fold_plus_zero.
    eapply Forall_impl; [exact Hentries|]. intros e He. apply He. }
  assert (Hrate : loadtest.calculateOverallSuccessRate rangeOver s = 0%float).
  { unfold loadtest.calculateOverallSuccessRate.
    rewrite (fold_pair (fun total es => goint.add total (EndpointStatistics.TotalRequests es))
               (fun total es => goint.add total (EndpointStatistics.SuccessRequests es))).
    rewrite Htotal, (fold_add_zero EndpointStatistics.SuccessRequests).
    - destruct (Z.eqb_spec (goint.len (LoadTestResult.Results result)) 0); [reflexivity|].
      apply zero_rate. unfold goint.len in *. lia.
    - eapply Forall_impl; [exact Hentries|]. intros e He. apply He. }
  unfold loadtest.stepStatistics, loadtest.calculateOverallErrorRate.
  rewrite Havg, Hrps, Hrate. reflexivity.
Qed.

Lemma step_without_success_witness :
  exists stepStats,
    stats.Calculate [failed "GET" "/a"; failed "GET" "/a"] = Some stepStats
    /\ StepStatistics.ErrorRate
         (loadtest.stepStatistics keyOrder
            (LoadTestResult.mk 5 0 [failed "GET" "/a"; failed "GET" "/a"] 0) stepStats)
       = 100%float.
Proof.
  destruct (step_without_success keyOrder
              (LoadTestResult.mk 5 0 [failed "GET" "/a"; failed "GET" "/a"] 0)
              keyOrder_ranges) as (s & Hc & Hs).
  - vm_compute. reflexivity.
  - repeat constructor; discriminate.
  - exists s. split; [exact Hc|]. rewrite Hs. reflexivity.
Defined.

(** ** The traversal order of the endpoint map *)

(** X16.  [calculateAverageLatency], [countTotalRequests],
    [calculateOverallSuccessRate] and [calculateOverallErrorRate] give the
    same result in every order in which Go may traverse the endpoint map. *)
Theorem reducer_order_independent
    (rangeOver1 rangeOver2 : gmap string EndpointStatistics.t -> list EndpointStatistics.t)
    (s : Statistics.t) :
  rangesOver rangeOver1 -> rangesOver rangeOver2 ->
  loadtest.calculateAverageLatency rangeOver1 s = loadtest.calculateAverageLatency rangeOver2 s
  /\ loadtest.countTotalRequests rangeOver1 s = loadtest.countTotalRequests rangeOver2 s
  /\ loadtest.calculateOverallSuccessRate rangeOver1 s
     = loadtest.calculateOverallSuccessRate rangeOver2 s
  /\ loadtest.calculateOverallErrorRate rangeOver1 s
     = loadtest.calculateOverallErrorRate rangeOver2 s.
Proof.
  intros H1 H2.
  assert (Hsum : forall f,
            fold_left (fun total es => goint.add total (f es))
              (rangeOver1 (Statistics.EndpointStats s)) 0
            = fold_left (fun total es => goint.add total (f es))
                (rangeOver2 (Statistics.EndpointStats s)) 0).
  { intros f. rewrite (fold_add_order f rangeOver1 _ H1), (fold_add_order f rangeOver2 _ H2).
    reflexivity. }
  assert (Hrate : loadtest.calculateOverallSuccessRate rangeOver1 s
                  = loadtest.calculateOverallSuccessRate rangeOver2 s).
  { unfold loadtest.calculateOverallSuccessRate.
    rewrite !(fold_pair (fun total es => goint.add total (EndpointStatistics.TotalRequests es))
                (fun total es => goint.add total (EndpointStatistics.SuccessRequests es))).
    rewrite (Hsum EndpointStatistics.TotalRequests), (Hsum EndpointStatistics.SuccessRequests).
    reflexivity. }
  split; [|split; [|split]].
  - unfold loadtest.calculateAverageLatency.
    rewrite !(fold_pair (fun total es => goint.add total (EndpointStatistics.AverageDuration es))
                (fun count (_ : EndpointStatistics.t) => goint.add count 1)).
    rewrite (Hsum EndpointStatistics.AverageDuration), (Hsum (fun _ => 1)). reflexivity.
  - apply (Hsum EndpointStatistics.TotalRequests).
  - exact Hrate.
  - unfold loadtest.calculateOverallErrorRate. rewrite Hrate. reflexivity.
Qed.

Lemma reverseKeyOrder_ranges : rangesOver reverseKeyOrder.
Proof. intros m. unfold reverseKeyOrder. apply reverse_Permutation. Qed.

Lemma reducer_order_independent_witness :
  loadtest.countTotalRequests keyOrder (stats.firstPass mixedResults)
  = loadtest.countTotalRequests reverseKeyOrder (stats.firstPass mixedResults).
Proof.
  apply (reducer_order_independent keyOrder reverseKeyOrder
           (stats.firstPass mixedResults) keyOrder_ranges reverseKeyOrder_ranges).
Defined.

(** X17.  [calculateOverallRPS] does depend on the order in which the
    endpoint map is traversed: there is a batch on which [Calculate]
    returns and for which two traversal orders give two different sums of
    the requests per second. *)
Theorem requests_per_second_order_dependent :
  exists (s : Statistics.t)
         (rangeOver1 rangeOver2
            : gmap string EndpointStatistics.t -> list EndpointStatistics.t),
    stats.Calculate threeRates = Some s
    /\ rangesOver rangeOver1 /\ rangesOver rangeOver2
    /\ loadtest.calculateOverallRPS rangeOver1 s
       <> loadtest.calculateOverallRPS rangeOver2 s.
Proof.
  destruct (stats.Calculate threeRates) as [s|] eqn:Hc;
    [|vm_compute in Hc; discriminate].
  exists s, keyOrder, reverseKeyOrder.
  split; [reflexivity|]. split; [exact keyOrder_ranges|].
  split; [exact reverseKeyOrder_ranges|].
  vm_compute in Hc. injection Hc as <-.
  intros H. apply (f_equal Prim2SF) in H. vm_compute in H. discriminate.
Qed.

(** ** A run compared with itself *)

(** The change of a value against itself is a zero or not a number. *)
Lemma percentageIncrease_self (x : float) :
  (exists s, Prim2SF (history.percentageIncrease x x) = S754_zero s)
  \/ Prim2SF (history.percentageIncrease x x) = S754_nan.
Proof.
  unfold history.percentageIncrease.
  destruct (x =? 0)%float; [left; exists false; reflexivity|].
  rewrite FloatAxioms.mul_spec, FloatAxioms.div_spec, FloatAxioms.sub_spec.
  destruct (Prim2SF x) as [s|s| |s m e] eqn:Hx.
  - right. destruct s; reflexivity.
  - right. destruct s; reflexivity.
  - right. reflexivity.
  - left. exists s.
    assert (Hsub : SF64sub (S754_finite s m e) (S754_finite s m e) = S754_zero false).
    { unfold SF64sub, SFsub. rewrite Z.min_id.
      unfold shl_align. rewrite !Z.sub_diag. reflexivity. }
    rewrite Hsub. destruct s; reflexivity.
Qed.

Lemma percentageDecrease_self (x : float) :
  (exists s, Prim2SF (history.percentageDecrease x x) = S754_zero s)
  \/ Prim2SF (history.percentageDecrease x x) = S754_nan.
Proof.
  unfold history.percentageDecrease. rewrite FloatAxioms.opp_spec.
  destruct (percentageIncrease_self x) as [[s ->]| ->].
  - left. exists (negb s). reflexivity.
  - right. reflexivity.
Qed.

(** A threshold that is not negative lies above no zero and no NaN. *)
Lemma not_above_zero (t c : float) :
  (t <? 0)%float = false ->
  (exists s, Prim2SF c = S754_zero s) \/ Prim2SF c = S754_nan ->
  (t <? c)%float = false.
Proof.
  rewrite !FloatAxioms.ltb_spec. unfold SFltb. intros Ht [[s ->]| ->].
  - change (Prim2SF 0) with (S754_zero false) in Ht.
    destruct (Prim2SF t) as [st|st| |st mt et]; destruct s; exact Ht.
  - destruct (Prim2SF t) as [st|st| |st mt et]; reflexivity.
Qed.

Lemma isDegraded_self (s : Store.t) (e : EndpointStatistics.t) :
  (Store.thresholdPct s <? 0)%float = false ->
  history.isDegraded s (history.changesOf e e) = false.
Proof.
  intros Ht. unfold history.isDegraded, history.changesOf.
  cbn [DegradationReport.LatencyIncrease DegradationReport.ErrorRateIncrease
       DegradationReport.ThroughputDecrease DegradationReport.SuccessRateDecrease].
  rewrite !(not_above_zero _ _ Ht);
    auto using percentageIncrease_self, percentageDecrease_self.
Qed.

(** X18.  With a threshold that is not negative, a run compared with a
    baseline of the same endpoint statistics is never reported as degraded:
    the verdict is [false], and every endpoint is stored with the
    comparison of its entry with itself, not flagged. *)
Theorem compareWithBaseline_same_statistics (s : Store.t)
    (current baseline : TestHistory.t) :
  (Store.thresholdPct s <? 0)%float = false ->
  Statistics.EndpointStats (TestHistory.Statistics baseline)
  = Statistics.EndpointStats (TestHistory.Statistics current) ->
  (history.compareWithBaseline s current baseline).2 = false
  /\ forall k e,
       Statistics.EndpointStats (TestHistory.Statistics current) !! k = Some e ->
       TestHistory.Endpoints (history.compareWithBaseline s current baseline).1 !! k
       = Some (Comparison.mk e e false (history.changesOf e e)).
Proof.
  intros Ht Hsame.
  destruct (compareEndpoint_fold s
              (Statistics.EndpointStats (TestHistory.Statistics baseline))
              (TestHistory.Endpoints current)
              (Statistics.EndpointStats (TestHistory.Statistics current)))
    as [Hlook Hhas].
  unfold history.compareWithBaseline.
  destruct (map_fold _ _ _) as [eps has]. cbn [fst snd] in *.
  cbn [TestHistory.Endpoints]. split.
  - destruct has; [|reflexivity].
    destruct (proj1 Hhas eq_refl) as (k & c & b & Hc & Hb & Hdeg).
    rewrite Hsame, Hc in Hb. injection Hb as <-.
    rewrite (isDegraded_self s c Ht) in Hdeg. discriminate.
  - intros k e He. rewrite Hlook, Hsame, He.
    unfold history.compare. rewrite (isDegraded_self s e Ht). reflexivity.
Qed.

Lemma compareWithBaseline_same_statistics_witness :
  (history.compareWithBaseline (Store.mk "results" 10%float)
     (TestHistory.mk "run-2" (stats.firstPass mixedResults) ∅ "" false 0%float)
     (TestHistory.mk "run-1" (stats.firstPass mixedResults) ∅ "" false 0%float)).2
  = false.
Proof.
  apply (compareWithBaseline_same_statistics (Store.mk "results" 10%float));
    reflexivity.
Defined.

(** ** The totals of a batch and of its endpoints *)

Lemma wrap64_idem (z : Z) : goint.wrap64 (goint.wrap64 z) = goint.wrap64 z.
Proof. apply wrap64_small, wrap64_range. Qed.

(** A field every iteration adds to, summed over the entries after the
    first loop: what the iterations added, up to wrap-around. *)
Lemma firstPass_sum (f : EndpointStatistics.t -> Z) (delta : Result.t -> Z) :
  (forall url method, f (EndpointStatistics.fresh url method) = 0) ->
  (forall e r, goint.wrap64 (f (tally e r)) = goint.wrap64 (f e + delta r)) ->
  forall results,
    goint.wrap64 (sumZ (f <$> (map_to_list
                                 (Statistics.EndpointStats (stats.firstPass results))).*2))
    = goint.wrap64 (sumZ (delta <$> results)).
Proof.
  intros Hfresh Hstep results.
  induction results as [|r results IH] using rev_ind; [reflexivity|].
  rewrite firstPass_snoc, accumulate_map, sum_insert.
  rewrite fmap_app. cbn [fmap list_fmap].
  assert (Hsum : sumZ ((delta <$> results) ++ [delta r])
                 = sumZ (delta <$> results) + delta r).
  { unfold sumZ. rewrite foldr_app. cbn [foldr].
    generalize (delta <$> results). intros l.
    induction l as [|x l IHl]; cbn [foldr]; lia. }
  rewrite Hsum.
  set (m := Statistics.EndpointStats (stats.firstPass results)) in *.
  set (old := match m !! stats.key r with Some o => f o | None => 0 end).
  set (e := default (EndpointStatistics.fresh (Result.URL r) (Result.Method r))
              (m !! stats.key r)).
  assert (He : f e = old).
  { unfold e, old. destruct (m !! stats.key r); [reflexivity | apply Hfresh]. }
  replace (f (tally e r) + sumZ (f <$> (map_to_list m).*2) - old)
    with (f (tally e r) + (sumZ (f <$> (map_to_list m).*2) - old)) by lia.
  rewrite <- wrap64_add_l, Hstep, wrap64_add_l.
  rewrite He.
  replace (old + delta r + (sumZ (f <$> (map_to_list m).*2) - old))
    with (sumZ (f <$> (map_to_list m).*2) + delta r) by lia.
  rewrite <- wrap64_add_l, IH, wrap64_add_l. reflexivity.
Qed.

Lemma sumZ_between {A : Type} (f g : A -> Z) (l : list A) :
  Forall (fun x => 0 <= f x <= g x) l ->
  0 <= sumZ (f <$> l) <= sumZ (g <$> l).
Proof.
  unfold sumZ. induction 1 as [|x l Hx Hall IH]; cbn; lia.
Qed.

Lemma sumZ_indicator {A : Type} (P : A -> Prop) `{!forall x, Decision (P x)}
    (l : list A) :
  sumZ ((fun x => if decide (P x) then 1 else 0) <$> l) = goint.len (filter P l).
Proof.
  unfold sumZ, goint.len. induction l as [|x l IH]; [reflexivity|].
  rewrite filter_cons, fmap_cons. cbn [foldr].
  destruct (decide (P x)); cbn [length]; rewrite ?Nat2Z.inj_succ; lia.
Qed.

Lemma sumZ_filter {A : Type} (P : A -> Prop) `{!forall x, Decision (P x)}
    (g : A -> Z) (l : list A) :
  sumZ ((fun x => if decide (P x) then g x else 0) <$> l) = sumZ (g <$> filter P l).
Proof.
  unfold sumZ. induction l as [|x l IH]; [reflexivity|].
  rewrite filter_cons, fmap_cons. cbn [foldr].
  destruct (decide (P x)); [rewrite fmap_cons; cbn [foldr]|]; lia.
Qed.

Lemma tally_sums (e : EndpointStatistics.t) (r : Result.t) :
  goint.wrap64 (EndpointStatistics.TotalDuration (tally e r))
  = goint.wrap64 (EndpointStatistics.TotalDuration e
                  + (if decide (Result.Error r = None) then Result.Duration r else 0))
  /\ goint.wrap64 (EndpointStatistics.SuccessRequests (tally e r))
     = goint.wrap64 (EndpointStatistics.SuccessRequests e
                     + (if decide (Result.Error r = None) then 1 else 0))
  /\ goint.wrap64 (EndpointStatistics.FailedRequests (tally e r))
     = goint.wrap64 (EndpointStatistics.FailedRequests e
                     + (if decide (Result.Error r <> None) then 1 else 0)).
Proof.
  unfold tally. destruct (Result.Error r) as [err|];
    cbn [stats.countFailure stats.countSuccess EndpointStatistics.TotalDuration
         EndpointStatistics.SuccessRequests EndpointStatistics.FailedRequests];
    repeat case_decide; try congruence; unfold goint.add;
    rewrite ?wrap64_idem, ?Z.add_0_r; auto.
Qed.

Lemma firstPass_TotalDuration (results : list Result.t) :
  Statistics.TotalDuration (stats.firstPass results)
  = goint.wrap64 (sumZ (Result.Duration <$> successes results)).
Proof.
  induction results as [|r results IH] using rev_ind; [reflexivity|].
  rewrite firstPass_snoc. unfold successes in *. rewrite filter_app, fmap_app.
  rewrite filter_cons, filter_nil.
  unfold stats.accumulate. destruct (Result.Error r) as [err|] eqn:He;
    cbn [Statistics.TotalDuration].
  - rewrite decide_False by discriminate. cbn [fmap list_fmap]. rewrite app_nil_r.
    exact IH.
  - rewrite decide_True by reflexivity. rewrite IH. unfold goint.add.
    rewrite wrap64_add_l. f_equal. unfold sumZ. rewrite foldr_app. cbn.
    generalize (Result.Duration <$> filter (fun r => Result.Error r = None) results).
    intros l. induction l as [|x l IHl]; cbn [foldr]; lia.
Qed.

(** X20.  The totals of the statistics [Calculate] returns agree with the
    batch and with one another: [Statistics.TotalDuration] is the
    (wrapping) sum of the durations of the successful results, and so is
    the sum of [TotalDuration] over the endpoint entries; the successes of
    the entries add up to the number of successful results, and their
    failures to the number of failed ones. *)
Theorem Calculate_totals (results : list Result.t) (s : Statistics.t) :
  goint.len results <= goint.max_int64 ->
  stats.Calculate results = Some s ->
  Statistics.TotalDuration s
  = goint.wrap64 (sumZ (Result.Duration <$> successes results))
  /\ goint.wrap64
       (sumZ (EndpointStatistics.TotalDuration
                <$> (map_to_list (Statistics.EndpointStats s)).*2))
     = Statistics.TotalDuration s
  /\ sumZ (EndpointStatistics.SuccessRequests
             <$> (map_to_list (Statistics.EndpointStats s)).*2)
     = goint.len (successes results)
  /\ sumZ (EndpointStatistics.FailedRequests
             <$> (map_to_list (Statistics.EndpointStats s)).*2)
     = goint.len (filter (fun r => Result.Error r <> None) results).
Proof.
  intros Hlen Hc.
  pose proof (Calculate_total results s Hlen Hc) as Htotal.
  unfold stats.Calculate in Hc.
  destruct (stats.secondPass _ _) as [m|] eqn:Hm; [|discriminate].
  injection Hc as <-.
  cbn [Statistics.EndpointStats Statistics.TotalDuration] in *.
  assert (Hkeep : forall f,
            (forall e e', sameCounters e e' -> f e' = f e) ->
            sumZ (f <$> (map_to_list m).*2)
            = sumZ (f <$> (map_to_list
                             (Statistics.EndpointStats (stats.firstPass results))).*2)).
  { intros f Hf. apply (secondPass_sum f results); [|exact Hm].
    intros e e' H. apply Hf. exact (calculateEndpointStats_counters _ _ _ H). }
  rewrite (Hkeep EndpointStatistics.TotalRequests) in Htotal
    by (unfold sameCounters; tauto).
  rewrite (Hkeep EndpointStatistics.TotalDuration) by (unfold sameCounters; tauto).
  rewrite (Hkeep EndpointStatistics.SuccessRequests) by (unfold sameCounters; tauto).
  rewrite (Hkeep EndpointStatistics.FailedRequests) by (unfold sameCounters; tauto).
  destruct (firstPass_inv results Hlen) as [_ Hall].
  set (vs := (map_to_list (Statistics.EndpointStats (stats.firstPass results))).*2) in *.
  assert (Hvs : Forall (counted (goint.len results)) vs).
  { unfold vs. apply Forall_forall. intros e He.
    apply list_elem_of_fmap in He as ([k e'] & -> & Hin).
    apply elem_of_map_to_list in Hin. exact (Hall k e' Hin). }
  assert (Hs : 0 <= sumZ (EndpointStatistics.SuccessRequests <$> vs)
               <= sumZ (EndpointStatistics.TotalRequests <$> vs)).
  { apply sumZ_between. eapply Forall_impl; [exact Hvs|].
    intros e (Ht & H1 & H2 & _). cbn. lia. }
  assert (Hf : 0 <= sumZ (EndpointStatistics.FailedRequests <$> vs)
               <= sumZ (EndpointStatistics.TotalRequests <$> vs)).
  { apply sumZ_between. eapply Forall_impl; [exact Hvs|].
    intros e (Ht & H1 & H2 & _). cbn. lia. }
  assert (Hsmall : forall z, 0 <= z <= goint.len results -> goint.wrap64 z = z).
  { intros z Hz. apply wrap64_small. unfold goint.min_int64, goint.max_int64 in *. lia. }
  split; [apply firstPass_TotalDuration|].
  split; [|split].
  - rewrite firstPass_TotalDuration.
    unfold successes. rewrite <- (sumZ_filter (fun r => Result.Error r = None)).
    apply (firstPass_sum EndpointStatistics.TotalDuration
             (fun r => if decide (Result.Error r = None) then Result.Duration r else 0));
      [reflexivity | intros e r; apply tally_sums].
  - pose proof (firstPass_sum EndpointStatistics.SuccessRequests
                  (fun r => if decide (Result.Error r = None) then 1 else 0)
                  ltac:(reflexivity) (fun e r => proj1 (proj2 (tally_sums e r)))
                  results) as E.
    fold vs in E. rewrite sumZ_indicator in E.
    rewrite (Hsmall (sumZ _)) in E by lia.
    rewrite Hsmall in E; [exact E|]. unfold goint.len.
    pose proof (length_filter (fun r => Result.Error r = None) results). lia.
  - pose proof (firstPass_sum EndpointStatistics.FailedRequests
                  (fun r => if decide (Result.Error r <> None) then 1 else 0)
                  ltac:(reflexivity) (fun e r => proj2 (proj2 (tally_sums e r)))
                  results) as E.
    fold vs in E. rewrite sumZ_indicator in E.
    rewrite (Hsmall (sumZ _)) in E by lia.
    rewrite Hsmall in E; [exact E|]. unfold goint.len.
    pose proof (length_filter (fun r => Result.Error r <> None) results). lia.
Qed.

Lemma Calculate_totals_witness :
  exists s, stats.Calculate mixedResults = Some s
            /\ Statistics.TotalDuration s = 5.
Proof.
  destruct (stats.Calculate mixedResults) as [s|] eqn:Hc;
    [|vm_compute in Hc; discriminate].
  exists s. split; [reflexivity|].
  destruct (Calculate_totals mixedResults s ltac:(vm_compute; discriminate) Hc)
    as [Htd _].
  rewrite Htd. reflexivity.
Defined.

(** ** A data-volume test, from the ramp to the report *)

Lemma dataLoadLoop_batches {World : Type}
    (Run : Runner.t -> World -> list Result.t * World)
    (config : DataLoadConfig.t) (fuel : nat) :
  forall (step size : Z) (r : Runner.t) (w : World) (acc : list LoadTestResult.t),
  exists new,
    (runner.dataLoadLoop Run fuel config step size r w acc).1.1 = acc ++ new
    /\ Forall (fun s => exists r' w',
                  LoadTestResult.Results s = (Run r' w').1
                  /\ Runner.requestCount r'
                     = runner.calculateRequestCount (LoadTestResult.DataSize s)) new.
Proof.
  induction fuel as [|fuel IH]; intros step size r w acc.
  - exists []. cbn. rewrite app_nil_r. auto.
  - cbn [runner.dataLoadLoop].
    destruct ((step <? DataLoadConfig.StepsCount config)
              && (size <=? DataLoadConfig.MaxDataSize config)).
    + destruct (Run (Runner.withRequestCount r (runner.calculateRequestCount size)) w)
        as [testResults w1] eqn:HRun.
      match goal with
      | |- context [runner.dataLoadLoop Run fuel config ?st ?sz ?r2 w1 ?acc'] =>
          destruct (IH st sz r2 w1 acc') as (new & Hres & Hall)
      end.
      exists (LoadTestResult.mk 0 size testResults 0 :: new).
      rewrite Hres, <- app_assoc. split; [reflexivity|].
      constructor; [|exact Hall].
      exists (Runner.withRequestCount r (runner.calculateRequestCount size)), w.
      rewrite HRun. split; reflexivity.
    + exists []. cbn. rewrite app_nil_r. auto.
Qed.

(** X19.  A data-volume test from the ramp to the report: the report
    [CalculateLoadTest] builds from what [RunDataLoadTest] returns has at
    most [StepsCount] steps, each with a data size of at most [MaxDataSize]
    and a user count of zero; the first has the initial data size; there is
    no step exactly when [StepsCount] is not positive or the initial size
    exceeds the maximum; and [TestDuration] is zero.  The reducer panics
    only if [Calculate] panics on the batch of one of the steps. *)
Theorem data_load_report {World : Type}
    (Run : Runner.t -> World -> list Result.t * World)
    (rangeOver : gmap string EndpointStatistics.t -> list EndpointStatistics.t)
    (r : Runner.t) (config : DataLoadConfig.t) (w : World) :
  (forall r' w', goint.len (Run r' w').1 <= goint.max_int64) ->
  rangesOver rangeOver ->
  match loadtest.CalculateLoadTest rangeOver
          (runner.RunDataLoadTest Run r config w).1.1 with
  | None =>
      exists step, step ∈ (runner.RunDataLoadTest Run r config w).1.1
                   /\ stats.Calculate (LoadTestResult.Results step) = None
  | Some st =>
      (length (LoadTestStats.Steps st) <= Z.to_nat (DataLoadConfig.StepsCount config))%nat
      /\ Forall (fun x => StepStatistics.DataSize x <= DataLoadConfig.MaxDataSize config
                          /\ StepStatistics.UserCount x = 0)
           (LoadTestStats.Steps st)
      /\ (forall x, head (LoadTestStats.Steps st) = Some x ->
                    StepStatistics.DataSize x = DataLoadConfig.InitialDataSize config)
      /\ (LoadTestStats.Steps st = [] <->
          DataLoadConfig.StepsCount config <= 0
          \/ DataLoadConfig.MaxDataSize config < DataLoadConfig.InitialDataSize config)
      /\ LoadTestStats.TestDuration st = 0
  end.
Proof.
  intros Hrun Hperm. unfold runner.RunDataLoadTest.
  destruct (dataLoadLoop_steps Run config
              (Z.to_nat (DataLoadConfig.StepsCount config)) 0
              (DataLoadConfig.InitialDataSize config) r w [])
    as (new & Hres & Hlen & Hall & Hnil & Hhd & _).
  destruct (dataLoadLoop_batches Run config
              (Z.to_nat (DataLoadConfig.StepsCount config)) 0
              (DataLoadConfig.InitialDataSize config) r w [])
    as (new' & Hres' & Hbatch).
  rewrite Hres in Hres'. cbn [app] in Hres'. subst new'.
  rewrite Hres. cbn [app].
  assert (Hlens : Forall (fun s => goint.len (LoadTestResult.Results s)
                                   <= goint.max_int64) new).
  { eapply Forall_impl; [exact Hbatch|]. intros s (r' & w' & -> & _). apply Hrun. }
  pose proof (reduceSteps_spec rangeOver new Hperm Hlens
                (LoadTestStats.mk [] ∅ 0 0 0 0 0)) as Hspec.
  unfold loadtest.CalculateLoadTest.
  destruct (loadtest.reduceSteps rangeOver _ new) as [st|]; [|exact Hspec].
  destruct Hspec as (_ & Hsteps & _ & Htd & _).
  cbn [LoadTestStats.Steps LoadTestStats.TestDuration fmap list_fmap app] in Hsteps, Htd.
  assert (Hlen' : length (LoadTestStats.Steps st) = length new).
  { apply (f_equal length) in Hsteps. rewrite !length_fmap in Hsteps. exact Hsteps. }
  split; [lia|]. split; [|split; [|split; [|exact Htd]]].
  - apply Forall_forall. intros x Hx.
    assert (Hpair : (StepStatistics.UserCount x, StepStatistics.DataSize x)
                    ∈ (fun r => (LoadTestResult.UserCount r, LoadTestResult.DataSize r))
                        <$> new).
    { rewrite <- Hsteps. apply list_elem_of_fmap. eauto. }
    apply list_elem_of_fmap in Hpair as (s & Heq & Hs). injection Heq as -> ->.
    rewrite Forall_forall in Hall. destruct (Hall s Hs) as (? & ? & _). auto.
  - intros x Hx. destruct (LoadTestStats.Steps st) as [|x0 xs]; [discriminate|].
    injection Hx as ->. destruct new as [|s0 new0]; [discriminate|].
    cbn in Hsteps. injection Hsteps as _ -> _. apply Hhd. reflexivity.
  - split.
    + intros Hst. rewrite Hst in Hlen'. destruct new; [|discriminate].
      destruct (proj1 Hnil eq_refl) as [H|[H|H]]; [left; lia | left; lia | right; exact H].
    + intros H. assert (new = []) as ->.
      { apply Hnil. destruct H as [H|H]; [right; left; lia | right; right; exact H]. }
      destruct (LoadTestStats.Steps st); [reflexivity | discriminate].
Qed.

Lemma data_load_report_witness :
  exists st,
    loadtest.CalculateLoadTest keyOrder
      (runner.RunDataLoadTest logRun sampleRunner
         (DataLoadConfig.mk 1000 100000 5%float 4) []).1.1 = Some st
    /\ (length (LoadTestStats.Steps st) <= 4)%nat
    /\ LoadTestStats.TestDuration st = 0.
Proof.
  pose proof (data_load_report logRun keyOrder sampleRunner
                (DataLoadConfig.mk 1000 100000 5%float 4) []
                ltac:(intros r' w'; vm_compute; discriminate) keyOrder_ranges) as H.
  destruct (loadtest.CalculateLoadTest keyOrder _) as [st|] eqn:Hst;
    [|vm_compute in Hst; discriminate].
  exists st. split; [reflexivity|].
  destruct H as (Hlen & _ & _ & _ & Htd). split; [exact Hlen | exact Htd].
Defined.
